(** * Petrol Pump Management System: ledger and aggregation engine

    A shallow embedding of [ppms.c].  The program keeps its whole state in
    globals; here the globals are the fields of one record, [SystemState],
    threaded explicitly through every operation.  Interactive input
    ([scanf]) and the C library ([time], [localtime], [realloc]) are the
    environment: what they return is an argument of the operation that
    calls them.

    Data is modelled on an LP64 platform, as the code has it:
    - [double] is IEEE 754 binary64, Rocq's primitive [float];
    - [int] is 32 bits, [unsigned long], [size_t] and [long] are 64 bits,
      all carried by [Z] with the wrap-around written out;
    - enums are inductive types, structs are records, the fixed arrays and
      the [realloc]ed ledger block are lists updated by index. *)

From Stdlib Require Import ZArith Lia Bool Ascii String Floats.
From stdpp Require Import base list.

Set Warnings "-inexact-float".
Local Open Scope Z_scope.

(* ------------------------------------------------------------------ *)
(** ** Machine integers *)

Definition wrap_int (z : Z) : Z := (z + 2 ^ 31) mod 2 ^ 32 - 2 ^ 31.
Definition wrap_uint (z : Z) : Z := z mod 2 ^ 32.
Definition wrap_ulong (z : Z) : Z := z mod 2 ^ 64.
Definition wrap_size (z : Z) : Z := z mod 2 ^ 64.
Definition wrap_long (z : Z) : Z := (z + 2 ^ 63) mod 2 ^ 64 - 2 ^ 63.

(* ------------------------------------------------------------------ *)
(** ** Constants and types *)

Definition INITIAL_TX_CAPACITY : Z := 50.
Definition PUMP_COUNT : nat := 6.

Definition PRICE_PETROL : float := 102.50.
Definition PRICE_DIESEL : float := 88.75.
Definition PRICE_CNG : float := 75.00.

Definition OPEN_PETROL : float := 50000.0.
Definition OPEN_DIESEL : float := 50000.0.
Definition OPEN_CNG : float := 20000.0.

Inductive FuelType := FUEL_PETROL | FUEL_DIESEL | FUEL_CNG.
Inductive PumpStatus := PUMP_ACTIVE | PUMP_INACTIVE | PUMP_MAINT.
Inductive VehicleType := VEH_2W | VEH_4W | VEH_COMM.
Inductive PaymentMode := PAY_CASH | PAY_CARD | PAY_WALLET.

(** The enumerators' values, used as array indices. *)
Definition fuel_idx (f : FuelType) : nat :=
  match f with FUEL_PETROL => 0 | FUEL_DIESEL => 1 | FUEL_CNG => 2 end%nat.

Definition pay_idx (p : PaymentMode) : nat :=
  match p with PAY_CASH => 0 | PAY_CARD => 1 | PAY_WALLET => 2 end%nat.

(** The casts [(FuelType)f], [(PumpStatus)s], [(VehicleType)v] and
    [(PaymentMode)p], each applied by the code only after a range check
    [0 <= x <= 2]. *)
Definition fuel_of_Z (z : Z) : option FuelType :=
  if z =? 0 then Some FUEL_PETROL else if z =? 1 then Some FUEL_DIESEL
  else if z =? 2 then Some FUEL_CNG else None.

Definition status_of_Z (z : Z) : option PumpStatus :=
  if z =? 0 then Some PUMP_ACTIVE else if z =? 1 then Some PUMP_INACTIVE
  else if z =? 2 then Some PUMP_MAINT else None.

Definition vehicle_of_Z (z : Z) : option VehicleType :=
  if z =? 0 then Some VEH_2W else if z =? 1 then Some VEH_4W
  else if z =? 2 then Some VEH_COMM else None.

Definition payment_of_Z (z : Z) : option PaymentMode :=
  if z =? 0 then Some PAY_CASH else if z =? 1 then Some PAY_CARD
  else if z =? 2 then Some PAY_WALLET else None.

Definition FuelType_eqb (a b : FuelType) : bool :=
  Nat.eqb (fuel_idx a) (fuel_idx b).

Definition PaymentMode_eqb (a b : PaymentMode) : bool :=
  Nat.eqb (pay_idx a) (pay_idx b).

Definition is_active (s : PumpStatus) : bool :=
  match s with PUMP_ACTIVE => true | _ => false end.

Record Fuel := mkFuel {
  f_type : FuelType;
  price : float;
  opening_stock : float;
  current_stock : float;
  closing_stock : float
}.

Record Pump := mkPump {
  pump_id : Z;
  p_fuel_type : FuelType;
  status : PumpStatus;
  transactions_count : Z;
  total_quantity : float;
  total_amount : float
}.

Record Transaction := mkTransaction {
  txn_id : string;
  timestamp : Z;
  tx_pump_id : Z;
  tx_fuel_type : FuelType;
  vehicle_type : VehicleType;
  quantity : float;
  amount : float;
  payment_mode : PaymentMode
}.

(** The fields of [struct tm] the program reads. *)
Record tm := mkTm {
  tm_year : Z;
  tm_mon : Z;
  tm_mday : Z;
  tm_hour : Z
}.

(** All-zero objects: static storage, [calloc] and [memset (.., 0, ..)]. *)
Definition zero_fuel : Fuel := mkFuel FUEL_PETROL 0 0 0 0.
Definition zero_pump : Pump := mkPump 0 FUEL_PETROL PUMP_ACTIVE 0 0 0.
Definition zero_tx : Transaction :=
  mkTransaction EmptyString 0 0 FUEL_PETROL VEH_2W 0 0 PAY_CASH.

(* ------------------------------------------------------------------ *)
(** ** Global system state *)

Record SystemState := mkState {
  fuels : list Fuel;                  (* Fuel fuels[3] *)
  pumps : list Pump;                  (* Pump pumps[PUMP_COUNT] *)
  transactions : list Transaction;    (* the block behind Transaction* *)
  tx_capacity : Z;
  tx_count : Z;
  fuel_wise_quantity : list float;    (* [3] *)
  fuel_wise_amount : list float;      (* [3] *)
  payment_mode_amount : list float;   (* [3] *)
  hour_quantity : list float;         (* [24] *)
  hour_amount : list float;           (* [24] *)
  txn_sequence : Z
}.

Definition set_fuels (v : list Fuel) (s : SystemState) : SystemState :=
  mkState v (pumps s) (transactions s) (tx_capacity s) (tx_count s)
    (fuel_wise_quantity s) (fuel_wise_amount s) (payment_mode_amount s)
    (hour_quantity s) (hour_amount s) (txn_sequence s).

Definition set_pumps (v : list Pump) (s : SystemState) : SystemState :=
  mkState (fuels s) v (transactions s) (tx_capacity s) (tx_count s)
    (fuel_wise_quantity s) (fuel_wise_amount s) (payment_mode_amount s)
    (hour_quantity s) (hour_amount s) (txn_sequence s).

Definition set_block (v : list Transaction) (cap : Z) (s : SystemState)
  : SystemState :=
  mkState (fuels s) (pumps s) v cap (tx_count s)
    (fuel_wise_quantity s) (fuel_wise_amount s) (payment_mode_amount s)
    (hour_quantity s) (hour_amount s) (txn_sequence s).

Definition set_ledger (v : list Transaction) (n : Z) (s : SystemState)
  : SystemState :=
  mkState (fuels s) (pumps s) v (tx_capacity s) n
    (fuel_wise_quantity s) (fuel_wise_amount s) (payment_mode_amount s)
    (hour_quantity s) (hour_amount s) (txn_sequence s).

Definition set_fuel_wise (q a : list float) (s : SystemState) : SystemState :=
  mkState (fuels s) (pumps s) (transactions s) (tx_capacity s) (tx_count s)
    q a (payment_mode_amount s)
    (hour_quantity s) (hour_amount s) (txn_sequence s).

Definition set_payment_mode_amount (v : list float) (s : SystemState)
  : SystemState :=
  mkState (fuels s) (pumps s) (transactions s) (tx_capacity s) (tx_count s)
    (fuel_wise_quantity s) (fuel_wise_amount s) v
    (hour_quantity s) (hour_amount s) (txn_sequence s).

Definition set_hours (q a : list float) (s : SystemState) : SystemState :=
  mkState (fuels s) (pumps s) (transactions s) (tx_capacity s) (tx_count s)
    (fuel_wise_quantity s) (fuel_wise_amount s) (payment_mode_amount s)
    q a (txn_sequence s).

Definition set_txn_sequence (v : Z) (s : SystemState) : SystemState :=
  mkState (fuels s) (pumps s) (transactions s) (tx_capacity s) (tx_count s)
    (fuel_wise_quantity s) (fuel_wise_amount s) (payment_mode_amount s)
    (hour_quantity s) (hour_amount s) v.

(** The globals as the loader leaves them, before [initialize_system]. *)
Definition static_state : SystemState :=
  mkState (replicate 3 zero_fuel) (replicate PUMP_COUNT zero_pump)
    [] 0 0
    (replicate 3 0%float) (replicate 3 0%float) (replicate 3 0%float)
    (replicate 24 0%float) (replicate 24 0%float) 0.

(* ------------------------------------------------------------------ *)
(** ** Array access *)

Definition fuel_at (fs : list Fuel) (f : FuelType) : Fuel :=
  default zero_fuel (fs !! fuel_idx f).

Definition pump_at (ps : list Pump) (i : nat) : Pump :=
  default zero_pump (ps !! i).

Definition tx_at (ts : list Transaction) (i : nat) : Transaction :=
  default zero_tx (ts !! i).

Definition fget (a : list float) (i : nat) : float :=
  default 0%float (a !! i).

(** [a[i] += v]. *)
Definition fadd_at (a : list float) (i : nat) (v : float) : list float :=
  <[ i := (fget a i + v)%float ]> a.

(** The ledger proper: the first [tx_count] slots of the block. *)
Definition ledger (s : SystemState) : list Transaction :=
  take (Z.to_nat (tx_count s)) (transactions s).

(** Left-to-right accumulation from [0.0], the way every total of the
    program is formed ([total += x] in a loop). *)
Definition fsum (l : list float) : float :=
  fold_left (fun acc x => (acc + x)%float) l 0%float.

(* ------------------------------------------------------------------ *)
(** ** Signs of binary64 values *)

(** A value that is a zero, a positive number or [+infinity], read on the
    specification of binary64. *)
Definition sf_nonneg (x : spec_float) : Prop :=
  match x with
  | S754_zero _ => True
  | S754_infinity s | S754_finite s _ _ => s = false
  | S754_nan => False
  end.

(** Neither a NaN nor an infinity. *)
Definition sf_finite (x : spec_float) : Prop :=
  match x with
  | S754_zero _ | S754_finite _ _ _ => True
  | S754_infinity _ | S754_nan => False
  end.

(* ------------------------------------------------------------------ *)
(** ** The [printf] conversions of [generate_txn_id] *)

Definition digit_char (d : Z) : ascii := ascii_of_N (48 + Z.to_N d).

(** Decimal digits of [n >= 0], most significant first.  [fuel] bounds the
    number of digits produced; 20 is enough for any 64-bit value. *)
Fixpoint utoa (fuel : nat) (n : Z) : list ascii :=
  match fuel with
  | O => []
  | S fuel' =>
      if n <? 10 then [digit_char n]
      else utoa fuel' (n / 10) ++ [digit_char (n mod 10)]
  end.

Definition decimal (n : Z) : list ascii := utoa 20 n.

(** The [0] flag with a minimum field width. *)
Definition zero_pad (w : nat) (ds : list ascii) : list ascii :=
  replicate (w - length ds) "0"%char ++ ds.

(** [%0wu] and [%0wlu]. *)
Definition fmt_u (w : nat) (n : Z) : list ascii := zero_pad w (decimal n).

(** [%0wd]: the sign takes one column of the field. *)
Definition fmt_d (w : nat) (z : Z) : list ascii :=
  if z <? 0 then "-"%char :: zero_pad (w - 1) (decimal (- z))
  else zero_pad w (decimal z).

(** [snprintf (out, outsz, ...)] keeps at most [outsz - 1] characters. *)
Definition snprintf (outsz : nat) (chars : list ascii) : string :=
  string_of_list_ascii (take (outsz - 1) chars).

(** [sizeof (tx.txn_id)]. *)
Definition TXN_ID_SIZE : nat := 32.

(** The text [generate_txn_id] formats, before [snprintf] cuts it. *)
Definition txn_id_chars (lt : option tm) (seq : Z) : list ascii :=
  match lt with
  | Some lt =>
      list_ascii_of_string "TXN"
        ++ fmt_u 4 (wrap_uint (tm_year lt + 1900) mod 10000)
        ++ fmt_d 2 (tm_mon lt + 1)
        ++ fmt_d 2 (tm_mday lt)
        ++ fmt_d 2 (tm_hour lt)
        ++ fmt_u 5 seq
  | None => list_ascii_of_string "TXN000000000" ++ fmt_u 5 seq
  end.

(* ------------------------------------------------------------------ *)
(** ** Outcomes *)

(** How a call that may end the process comes back: normally, by
    [exit (EXIT_FAILURE)], or not at all because it accessed the ledger
    block out of bounds (undefined behaviour). *)
Inductive result (A : Type) :=
  | Ok (a : A)
  | Exit
  | Fault.
Arguments Ok {A} a.
Arguments Exit {A}.
Arguments Fault {A}.

(** The message [process_sale] prints before an early [return]. *)
Inductive SaleError :=
  | InvalidInput        (* "Invalid input." *)
  | InvalidPumpId       (* "Invalid pump id." *)
  | PumpNotActive       (* "Selected pump is not active." *)
  | InvalidVehicle      (* "Invalid." after the vehicle prompt *)
  | InvalidMode         (* "Invalid." after the mode prompt *)
  | InvalidQuantity     (* "Invalid quantity." *)
  | InvalidAmount       (* "Invalid amount." *)
  | InsufficientStock   (* "Insufficient stock. ..." *)
  | InvalidPayment.     (* "Invalid." after the payment prompt *)

Inductive SaleOutcome :=
  | Sold (tx : Transaction) (st : SystemState)
  | Rejected (why : SaleError) (st : SystemState)
  | Fatal
  | MemFault.

(** What the operator and the environment supply to one [process_sale]:
    the result of each [scanf] ([None] when the conversion fails), the two
    readings of [time (NULL)], and whether the heap can serve the two
    [realloc] requests of [ensure_tx_capacity]. *)
Record SaleInput := mkSaleInput {
  in_pump_id : option Z;
  in_vchoice : option Z;
  in_mode : option Z;
  in_value : option float;
  in_paychoice : option Z;
  in_now_id : Z;
  in_now_ts : Z;
  in_heap_double : bool;
  in_heap_fallback : bool
}.

(** One row printed by [list_transactions]. *)
Record TxRow := mkTxRow {
  row_txn_id : string;
  row_time : Z;
  row_pump_id : Z;
  row_quantity : float;
  row_amount : float;
  row_payment : PaymentMode
}.

(** One choice of the main menu. *)
Inductive Command :=
  | CmdSale (i : SaleInput)
  | CmdSupply (f : option Z) (amt : option float)
  | CmdStatus (pid : option Z) (s : option Z)
  | CmdList
  | CmdReport
  | CmdShow.   (* choices 6 to 12 and invalid ones: output only *)

Section Program.

(** *** Environment *)

(** [localtime]: the broken-down local time of a [time_t], or [NULL]. *)
Variable localtime : Z -> option tm.

(** [sizeof (Transaction)]. *)
Variable SIZEOF_TX : Z.

(** The size in bytes of the largest object the allocator can provide. *)
Variable HEAP_MAX : Z.

(** What freshly [realloc]ed storage holds before it is written. *)
Variable uninit : Transaction.

(** *** Transaction identifiers *)

Definition generate_txn_id (now : Z) (outsz : nat) (st : SystemState)
  : string * SystemState :=
  let lt := localtime now in
  let st := set_txn_sequence (wrap_ulong (txn_sequence st + 1)) st in
  (snprintf outsz (txn_id_chars lt (txn_sequence st)), st).

(** *** Allocation *)

(** A request succeeds when the heap has room for it ([avail]) and the
    object asked for is one the allocator can provide at all. *)
Definition alloc_ok (avail : bool) (bytes : Z) : bool :=
  avail && (bytes <=? HEAP_MAX).

Definition calloc (avail : bool) (n : Z) : option (list Transaction) :=
  if alloc_ok avail (n * SIZEOF_TX)
  then Some (replicate (Z.to_nat n) zero_tx)
  else None.

(** [realloc]: the old contents up to the smaller of the two sizes, the
    rest indeterminate. *)
Definition realloc (avail : bool) (block : list Transaction) (bytes : Z)
  : option (list Transaction) :=
  if alloc_ok avail bytes then
    let slots := Z.to_nat (bytes / SIZEOF_TX) in
    Some (take slots (block ++ replicate (slots - length block) uninit))
  else None.

(** [memset (block + start, 0, bytes)], in whole records. *)
Definition memset_zero (block : list Transaction) (start : Z) (bytes : Z)
  : list Transaction :=
  list_inserts (Z.to_nat start)
    (replicate (Z.to_nat (bytes / SIZEOF_TX)) zero_tx) block.

Definition initialize_system (heap : bool) (st : SystemState)
  : option SystemState :=
  let fs :=
    [ mkFuel FUEL_PETROL PRICE_PETROL OPEN_PETROL OPEN_PETROL OPEN_PETROL;
      mkFuel FUEL_DIESEL PRICE_DIESEL OPEN_DIESEL OPEN_DIESEL OPEN_DIESEL;
      mkFuel FUEL_CNG PRICE_CNG OPEN_CNG OPEN_CNG OPEN_CNG ] in
  let ps :=
    map (fun i : nat =>
           mkPump (Z.of_nat i + 1)
             (if (i <? 2)%nat then FUEL_PETROL
              else if (i <? 4)%nat then FUEL_DIESEL else FUEL_CNG)
             PUMP_ACTIVE 0 0 0)
        (seq 0 PUMP_COUNT) in
  let st := set_pumps ps (set_fuels fs st) in
  match calloc heap INITIAL_TX_CAPACITY with
  | Some block => Some (set_block block INITIAL_TX_CAPACITY st)
  | None => None                                (* exit (EXIT_FAILURE) *)
  end.

(** The block grown to [new_capacity] records, its new part zeroed. *)
Definition install_block (new_block : list Transaction) (new_capacity : Z)
    (st : SystemState) : SystemState :=
  let zeroed :=
    memset_zero new_block (tx_capacity st)
      (wrap_size (wrap_size (new_capacity - tx_capacity st) * SIZEOF_TX)) in
  set_block zeroed new_capacity st.

(** [None] is [shutdown_system (); exit (EXIT_FAILURE)]. *)
Definition ensure_tx_capacity (heap_double heap_fallback : bool)
    (st : SystemState) : option SystemState :=
  if tx_count st <? tx_capacity st then Some st
  else
    let new_capacity := wrap_size (tx_capacity st * 2) in
    match realloc heap_double (transactions st)
            (wrap_size (new_capacity * SIZEOF_TX)) with
    | Some new_block => Some (install_block new_block new_capacity st)
    | None =>
        let new_capacity := wrap_size (tx_capacity st + 50) in
        match realloc heap_fallback (transactions st)
                (wrap_size (new_capacity * SIZEOF_TX)) with
        | Some new_block => Some (install_block new_block new_capacity st)
        | None => None
        end
    end.

(** *** Pumps *)

Fixpoint pump_index_loop (n i : nat) (ps : list Pump) (id : Z) : Z :=
  match n with
  | O => -1
  | S n' =>
      if pump_id (pump_at ps i) =? id then Z.of_nat i
      else pump_index_loop n' (S i) ps id
  end.

Definition pump_index_by_id (ps : list Pump) (id : Z) : Z :=
  pump_index_loop PUMP_COUNT 0 ps id.

(** *** Recording a transaction *)

(** [pumps[pidx]]'s three counters, when the pump is found. *)
Definition update_pump_stats (tx : Transaction) (st : SystemState)
  : SystemState :=
  let pidx := pump_index_by_id (pumps st) (tx_pump_id tx) in
  if 0 <=? pidx then
    let i := Z.to_nat pidx in
    let p := pump_at (pumps st) i in
    set_pumps
      (<[ i := mkPump (pump_id p) (p_fuel_type p) (status p)
                 (wrap_int (transactions_count p + 1))
                 (total_quantity p + quantity tx)%float
                 (total_amount p + amount tx)%float ]> (pumps st)) st
  else st.

Definition update_fuel_wise (tx : Transaction) (st : SystemState)
  : SystemState :=
  let i := fuel_idx (tx_fuel_type tx) in
  set_fuel_wise (fadd_at (fuel_wise_quantity st) i (quantity tx))
                (fadd_at (fuel_wise_amount st) i (amount tx)) st.

Definition update_payment_mode (tx : Transaction) (st : SystemState)
  : SystemState :=
  set_payment_mode_amount
    (fadd_at (payment_mode_amount st) (pay_idx (payment_mode tx)) (amount tx))
    st.

(** An hour outside [0, 23] would index outside the arrays; [localtime]
    never returns one, and the model leaves the state alone there. *)
Definition update_hour_wise (tx : Transaction) (st : SystemState)
  : SystemState :=
  match localtime (timestamp tx) with
  | Some lt =>
      let hour := tm_hour lt in
      if (0 <=? hour) && (hour <? 24) then
        set_hours (fadd_at (hour_quantity st) (Z.to_nat hour) (quantity tx))
                  (fadd_at (hour_amount st) (Z.to_nat hour) (amount tx)) st
      else st
  | None => st
  end.

(** The aggregation half of [record_transaction]: everything after
    [tx_count++]. *)
Definition update_stats (tx : Transaction) (st : SystemState) : SystemState :=
  update_hour_wise tx
    (update_payment_mode tx (update_fuel_wise tx (update_pump_stats tx st))).

(** The storing half: [transactions[tx_count] = *tx; tx_count++]. *)
Definition store_transaction (tx : Transaction) (st : SystemState)
  : result SystemState :=
  let i := Z.to_nat (tx_count st) in
  if (i <? length (transactions st))%nat then
    Ok (set_ledger (<[ i := tx ]> (transactions st))
          (wrap_size (tx_count st + 1)) st)
  else Fault.

Definition record_transaction (heap_double heap_fallback : bool)
    (tx : Transaction) (st : SystemState) : result SystemState :=
  match ensure_tx_capacity heap_double heap_fallback st with
  | None => Exit
  | Some st =>
      match store_transaction tx st with
      | Ok st => Ok (update_stats tx st)
      | Exit => Exit
      | Fault => Fault
      end
  end.

(** *** Sales *)

Definition set_current_stock (v : float) (fl : Fuel) : Fuel :=
  mkFuel (f_type fl) (price fl) (opening_stock fl) v (closing_stock fl).

Definition set_closing_stock (v : float) (fl : Fuel) : Fuel :=
  mkFuel (f_type fl) (price fl) (opening_stock fl) (current_stock fl) v.

Definition set_status (v : PumpStatus) (p : Pump) : Pump :=
  mkPump (pump_id p) (p_fuel_type p) v (transactions_count p)
    (total_quantity p) (total_amount p).

(** [fuels[ftype].current_stock -= qty]. *)
Definition deduct_stock (ftype : FuelType) (qty : float) (st : SystemState)
  : SystemState :=
  let fl := fuel_at (fuels st) ftype in
  set_fuels
    (<[ fuel_idx ftype := set_current_stock (current_stock fl - qty)%float fl ]>
       (fuels st)) st.

(** The mode prompt and the quantity or amount prompt: the pair
    [(qty, amt)], or the message of the early [return]. *)
Definition read_qty_amt (inp : SaleInput) (unit_price : float)
  : SaleError + float * float :=
  match in_mode inp with
  | None => inl InvalidMode
  | Some mode =>
      if mode =? 0 then
        match in_value inp with
        | None => inl InvalidQuantity
        | Some qty =>
            if (qty <=? 0)%float then inl InvalidQuantity
            else inr (qty, (qty * unit_price)%float)
        end
      else if mode =? 1 then
        match in_value inp with
        | None => inl InvalidAmount
        | Some amt =>
            if (amt <=? 0)%float then inl InvalidAmount
            else inr ((amt / unit_price)%float, amt)
        end
      else inl InvalidMode
  end.

(** From "Create transaction" to the end of [process_sale]; the receipt
    and the low-stock alert only print. *)
Definition commit_sale (inp : SaleInput) (pump_id : Z) (ftype : FuelType)
    (vehicle : VehicleType) (qty amt : float) (pay : PaymentMode)
    (st : SystemState) : SaleOutcome :=
  let '(id, st) := generate_txn_id (in_now_id inp) TXN_ID_SIZE st in
  let tx :=
    mkTransaction id (in_now_ts inp) pump_id ftype vehicle qty amt pay in
  let st := deduct_stock ftype qty st in
  match record_transaction (in_heap_double inp) (in_heap_fallback inp) tx st
  with
  | Ok st => Sold tx st
  | Exit => Fatal
  | Fault => MemFault
  end.

Definition process_sale (inp : SaleInput) (st : SystemState) : SaleOutcome :=
  match in_pump_id inp with
  | None => Rejected InvalidInput st
  | Some pump_id =>
      let pidx := pump_index_by_id (pumps st) pump_id in
      if pidx <? 0 then Rejected InvalidPumpId st
      else
        let pump := pump_at (pumps st) (Z.to_nat pidx) in
        if negb (is_active (status pump)) then Rejected PumpNotActive st
        else
          match in_vchoice inp ≫= vehicle_of_Z with
          | None => Rejected InvalidVehicle st
          | Some vehicle =>
              let ftype := p_fuel_type pump in
              let unit_price := price (fuel_at (fuels st) ftype) in
              match read_qty_amt inp unit_price with
              | inl why => Rejected why st
              | inr (qty, amt) =>
                  if (current_stock (fuel_at (fuels st) ftype) <? qty)%float
                  then Rejected InsufficientStock st
                  else
                    match in_paychoice inp ≫= payment_of_Z with
                    | None => Rejected InvalidPayment st
                    | Some pay =>
                        commit_sale inp pump_id ftype vehicle qty amt pay st
                    end
              end
          end
  end.

(** *** Supply, pump status, reports *)

(** The flag tells whether the supply was added. *)
Definition add_supply (f : option Z) (amt : option float) (st : SystemState)
  : bool * SystemState :=
  match f ≫= fuel_of_Z with
  | None => (false, st)
  | Some ft =>
      match amt with
      | None => (false, st)
      | Some amt =>
          if (amt <=? 0)%float then (false, st)
          else
            let fl := fuel_at (fuels st) ft in
            (true,
             set_fuels
               (<[ fuel_idx ft :=
                     set_current_stock (current_stock fl + amt)%float fl ]>
                  (fuels st)) st)
      end
  end.

Definition change_pump_status (pid : option Z) (s : option Z)
    (st : SystemState) : bool * SystemState :=
  match pid with
  | None => (false, st)
  | Some pid =>
      let idx := pump_index_by_id (pumps st) pid in
      if idx <? 0 then (false, st)
      else
        match s ≫= status_of_Z with
        | None => (false, st)
        | Some s =>
            let i := Z.to_nat idx in
            (true,
             set_pumps (<[ i := set_status s (pump_at (pumps st) i) ]> (pumps st))
               st)
        end
  end.

(** The totals over the three fuels that the daily report prints. *)
Definition report_totals (st : SystemState) : float * float :=
  (fsum (map (fget (fuel_wise_quantity st)) (seq 0 3)),
   fsum (map (fget (fuel_wise_amount st)) (seq 0 3))).

Definition generate_daily_report (st : SystemState)
  : float * float * SystemState :=
  let st :=
    set_fuels
      (map (fun fl => set_closing_stock (current_stock fl) fl) (fuels st)) st in
  (report_totals st, st).

Definition row_of (t : Transaction) : TxRow :=
  mkTxRow (txn_id t) (timestamp t) (tx_pump_id t) (quantity t) (amount t)
    (payment_mode t).

(** The body of the loop [for (i = n - 1; i >= 0; --i)], for [n] rounds. *)
Fixpoint list_rows (n : nat) (ts : list Transaction) : list TxRow :=
  match n with
  | O => []
  | S i => row_of (tx_at ts i) :: list_rows i ts
  end.

(** The rows [list_transactions] prints, first printed first. *)
Definition list_transactions (st : SystemState) : list TxRow :=
  if tx_count st =? 0 then []
  else list_rows (Z.to_nat (wrap_long (tx_count st) - 1 + 1)) (transactions st).

(** *** The main loop *)

Definition exec (c : Command) (st : SystemState) : result SystemState :=
  match c with
  | CmdSale i =>
      match process_sale i st with
      | Sold _ st | Rejected _ st => Ok st
      | Fatal => Exit
      | MemFault => Fault
      end
  | CmdSupply f amt => Ok (snd (add_supply f amt st))
  | CmdStatus pid s => Ok (snd (change_pump_status pid s st))
  | CmdReport => Ok (snd (generate_daily_report st))
  | CmdList | CmdShow => Ok st
  end.

(** The states a run of [main] passes through between two menu choices. *)
Inductive reachable : SystemState -> Prop :=
  | reach_init heap st :
      initialize_system heap static_state = Some st -> reachable st
  | reach_exec c st st' :
      reachable st -> exec c st = Ok st' -> reachable st'.

(** *** Observations on a run *)

(** A movement of stock: a completed sale or an added supply. *)
Inductive StockMove :=
  | Dispensed (f : FuelType) (qty : float)
  | Supplied (f : FuelType) (qty : float).

Definition move_of (c : Command) (st : SystemState) : list StockMove :=
  match c with
  | CmdSale i =>
      match process_sale i st with
      | Sold tx _ => [Dispensed (tx_fuel_type tx) (quantity tx)]
      | _ => []
      end
  | CmdSupply f amt =>
      match f ≫= fuel_of_Z, amt, add_supply f amt st with
      | Some ft, Some amt, (true, _) => [Supplied ft amt]
      | _, _, _ => []
      end
  | _ => []
  end.

(** Running a list of menu choices, collecting the stock movements. *)
Fixpoint run (cs : list Command) (st : SystemState)
  : result (SystemState * list StockMove) :=
  match cs with
  | [] => Ok (st, [])
  | c :: cs =>
      match exec c st with
      | Ok st' =>
          match run cs st' with
          | Ok (st'', ms) => Ok (st'', move_of c st ++ ms)
          | Exit => Exit
          | Fault => Fault
          end
      | Exit => Exit
      | Fault => Fault
      end
  end.

(** A run of sales every one of which completes. *)
Fixpoint run_sales (ins : list SaleInput) (st : SystemState)
  : option SystemState :=
  match ins with
  | [] => Some st
  | i :: ins =>
      match process_sale i st with
      | Sold _ st' => run_sales ins st'
      | _ => None
      end
  end.

(** Appending records one after the other. *)
Fixpoint append_all (txs : list (bool * bool * Transaction))
    (st : SystemState) : result SystemState :=
  match txs with
  | [] => Ok st
  | (h1, h2, tx) :: txs =>
      match record_transaction h1 h2 tx st with
      | Ok st' => append_all txs st'
      | Exit => Exit
      | Fault => Fault
      end
  end.

Definition move_quantity (m : StockMove) : float :=
  match m with Dispensed _ q | Supplied _ q => q end.

(** No fuel's stock is negative (or a NaN). *)
Definition stock_nonneg (st : SystemState) : Prop :=
  forall f, (0 <=? current_stock (fuel_at (fuels st) f))%float = true.

(** [current_stock] replayed from the movements, in their order. *)
Definition apply_move (f : FuelType) (stock : float) (m : StockMove) : float :=
  match m with
  | Dispensed g qty => if FuelType_eqb f g then (stock - qty)%float else stock
  | Supplied g qty => if FuelType_eqb f g then (stock + qty)%float else stock
  end.

Definition replay_stock (f : FuelType) (opening : float) (ms : list StockMove)
  : float :=
  fold_left (apply_move f) ms opening.

Definition dispensed_on (f : FuelType) (ms : list StockMove) : list float :=
  omap (fun m => match m with
                 | Dispensed g q => if FuelType_eqb f g then Some q else None
                 | Supplied _ _ => None
                 end) ms.

Definition supplied_on (f : FuelType) (ms : list StockMove) : list float :=
  omap (fun m => match m with
                 | Supplied g q => if FuelType_eqb f g then Some q else None
                 | Dispensed _ _ => None
                 end) ms.

(** The closed formula: opening stock, less everything sold, plus
    everything supplied. *)
Definition formula_stock (f : FuelType) (opening : float)
    (ms : list StockMove) : float :=
  (opening - fsum (dispensed_on f ms) + fsum (supplied_on f ms))%float.

(** The amounts and quantities of the ledger records of one bucket. *)
Definition amounts_where (P : Transaction -> bool) (l : list Transaction)
  : list float :=
  map amount (List.filter P l).

Definition quantities_where (P : Transaction -> bool) (l : list Transaction)
  : list float :=
  map quantity (List.filter P l).

Definition on_fuel (f : FuelType) (t : Transaction) : bool :=
  FuelType_eqb (tx_fuel_type t) f.

Definition on_pump (id : Z) (t : Transaction) : bool := tx_pump_id t =? id.

Definition paid_by (p : PaymentMode) (t : Transaction) : bool :=
  PaymentMode_eqb (payment_mode t) p.

(** The state in which [record_transaction] runs [update_stats]: the
    block grown by [n] zeroed slots, the record stored after the last one. *)
Definition stored (n : nat) (tx : Transaction) (st : SystemState)
  : SystemState :=
  set_ledger
    (<[ Z.to_nat (tx_count st) := tx ]>
       (transactions st ++ replicate n zero_tx))
    (tx_count st + 1)
    (set_block (transactions st ++ replicate n zero_tx)
       (tx_capacity st + Z.of_nat n) st).

(** The state in which [commit_sale] calls [record_transaction]: one more
    identifier generated, the stock deducted. *)
Definition pre_commit (ftype : FuelType) (qty : float) (st : SystemState)
  : SystemState :=
  deduct_stock ftype qty
    (set_txn_sequence (wrap_ulong (txn_sequence st + 1)) st).

(** The state [initialize_system] builds when [calloc] succeeds. *)
Definition initial_state : SystemState :=
  mkState
    [ mkFuel FUEL_PETROL PRICE_PETROL OPEN_PETROL OPEN_PETROL OPEN_PETROL;
      mkFuel FUEL_DIESEL PRICE_DIESEL OPEN_DIESEL OPEN_DIESEL OPEN_DIESEL;
      mkFuel FUEL_CNG PRICE_CNG OPEN_CNG OPEN_CNG OPEN_CNG ]
    [ mkPump 1 FUEL_PETROL PUMP_ACTIVE 0 0 0;
      mkPump 2 FUEL_PETROL PUMP_ACTIVE 0 0 0;
      mkPump 3 FUEL_DIESEL PUMP_ACTIVE 0 0 0;
      mkPump 4 FUEL_DIESEL PUMP_ACTIVE 0 0 0;
      mkPump 5 FUEL_CNG PUMP_ACTIVE 0 0 0;
      mkPump 6 FUEL_CNG PUMP_ACTIVE 0 0 0 ]
    (replicate 50 zero_tx) 50 0
    (replicate 3 0%float) (replicate 3 0%float) (replicate 3 0%float)
    (replicate 24 0%float) (replicate 24 0%float) 0.

(** What the operations other than a completed sale leave alone: the
    ledger, the identifier sequence, every accumulator, and the counters
    of every pump. *)
Definition pump_totals (p : Pump) : Z * Z * float * float :=
  (pump_id p, transactions_count p, total_quantity p, total_amount p).

Record same_books (st st' : SystemState) : Prop := mkSame {
  same_transactions : transactions st' = transactions st;
  same_tx_capacity : tx_capacity st' = tx_capacity st;
  same_tx_count : tx_count st' = tx_count st;
  same_txn_sequence : txn_sequence st' = txn_sequence st;
  same_fuel_wise_quantity : fuel_wise_quantity st' = fuel_wise_quantity st;
  same_fuel_wise_amount : fuel_wise_amount st' = fuel_wise_amount st;
  same_payment_mode_amount : payment_mode_amount st' = payment_mode_amount st;
  same_hour_quantity : hour_quantity st' = hour_quantity st;
  same_hour_amount : hour_amount st' = hour_amount st;
  same_pump_totals : map pump_totals (pumps st') = map pump_totals (pumps st)
}.

(** *** Well-formed states *)

(** The shape every state of a run has: the fixed arrays keep their sizes,
    the pumps their identifiers and fuels, and the ledger block has
    [tx_capacity] slots of which the first [tx_count] are in use. *)
Record well_formed (st : SystemState) : Prop := mkWf {
  wf_fuels : length (fuels st) = 3%nat;
  wf_fuel_types :
    map f_type (fuels st) = [FUEL_PETROL; FUEL_DIESEL; FUEL_CNG];
  wf_pump_ids : map pump_id (pumps st) = [1; 2; 3; 4; 5; 6];
  wf_pump_fuels :
    map p_fuel_type (pumps st)
    = [FUEL_PETROL; FUEL_PETROL; FUEL_DIESEL; FUEL_DIESEL; FUEL_CNG; FUEL_CNG];
  wf_fuel_wise_quantity : length (fuel_wise_quantity st) = 3%nat;
  wf_fuel_wise_amount : length (fuel_wise_amount st) = 3%nat;
  wf_payment_mode_amount : length (payment_mode_amount st) = 3%nat;
  wf_hour_quantity : length (hour_quantity st) = 24%nat;
  wf_hour_amount : length (hour_amount st) = 24%nat;
  wf_block : Z.of_nat (length (transactions st)) = tx_capacity st;
  wf_capacity : 0 < tx_capacity st;
  wf_count : 0 <= tx_count st <= tx_capacity st;
  wf_heap : tx_capacity st * SIZEOF_TX <= HEAP_MAX
}.

(** A valid broken-down time, as the C library specifies [struct tm]. *)
Definition tm_in_range (lt : tm) : Prop :=
  0 <= tm_mon lt < 12 /\ 1 <= tm_mday lt <= 31 /\ 0 <= tm_hour lt < 24.

(** One identifier has been generated per stored record, and the record
    at position [i] carries the one generated [i + 1]-th. *)
Definition ids_in_step (st : SystemState) : Prop :=
  txn_sequence st = tx_count st
  /\ forall (i : nat) (tx : Transaction),
       ledger st !! i = Some tx ->
       exists lt : option tm,
         (forall t, lt = Some t -> tm_in_range t)
         /\ txn_id tx
            = snprintf TXN_ID_SIZE (txn_id_chars lt (Z.of_nat i + 1)).

(** Every accumulator holds the in-order sum of its own ledger records. *)
Record accumulators_match (st : SystemState) : Prop := mkMatch {
  match_fuel_amount :
    forall f, fget (fuel_wise_amount st) (fuel_idx f)
              = fsum (amounts_where (on_fuel f) (ledger st));
  match_fuel_quantity :
    forall f, fget (fuel_wise_quantity st) (fuel_idx f)
              = fsum (quantities_where (on_fuel f) (ledger st));
  match_pump_amount :
    forall p, p ∈ pumps st ->
              total_amount p
              = fsum (amounts_where (on_pump (pump_id p)) (ledger st));
  match_pump_quantity :
    forall p, p ∈ pumps st ->
              total_quantity p
              = fsum (quantities_where (on_pump (pump_id p)) (ledger st));
  match_payment_amount :
    forall m, fget (payment_mode_amount st) (pay_idx m)
              = fsum (amounts_where (paid_by m) (ledger st))
}.

(** The value a string of decimal digits denotes. *)
Definition digits_value (l : list ascii) : Z :=
  fold_left (fun acc c => acc * 10 + (Z.of_N (N_of_ascii c) - 48)) l 0.

(** The claim that [list_transactions] lists in insertion order. *)
Definition lists_in_insertion_order (st : SystemState) : Prop :=
  forall i : nat, list_transactions st !! i = row_of <$> (ledger st !! i).

(** The recoverable failures of a sale attempt, as conditions on the input
    and the state the attempt starts from. *)
Inductive sale_failure (inp : SaleInput) (st : SystemState) : Prop :=
  | fail_no_pump_input :
      in_pump_id inp = None -> sale_failure inp st
  | fail_unknown_pump id :
      in_pump_id inp = Some id ->
      pump_index_by_id (pumps st) id = -1 -> sale_failure inp st
  | fail_inactive_pump id :
      in_pump_id inp = Some id ->
      0 <= pump_index_by_id (pumps st) id ->
      status (pump_at (pumps st) (Z.to_nat (pump_index_by_id (pumps st) id)))
        <> PUMP_ACTIVE ->
      sale_failure inp st
  | fail_vehicle :
      in_vchoice inp ≫= vehicle_of_Z = None -> sale_failure inp st
  | fail_mode :
      in_mode inp = None \/ (exists m, in_mode inp = Some m /\ m <> 0 /\ m <> 1) ->
      sale_failure inp st
  | fail_value :
      in_value inp = None
      \/ (exists v, in_value inp = Some v /\ (v <=? 0)%float = true) ->
      sale_failure inp st
  | fail_stock id qty amt :
      in_pump_id inp = Some id ->
      0 <= pump_index_by_id (pumps st) id ->
      (let pump := pump_at (pumps st) (Z.to_nat (pump_index_by_id (pumps st) id)) in
       let fl := fuel_at (fuels st) (p_fuel_type pump) in
       read_qty_amt inp (price fl) = inr (qty, amt)
       /\ (current_stock fl <? qty)%float = true) ->
      sale_failure inp st
  | fail_payment :
      in_paychoice inp ≫= payment_of_Z = None -> sale_failure inp st.

(** *** Concrete inputs

    A 64-bit Linux process to try the operations on:
    [sizeof (Transaction)] is 80 bytes and user space spans [2 ^ 47]
    bytes; [localtime] fails exactly when the year of the [time_t] does
    not fit the [int] field [tm_year], and otherwise decomposes it by its
    hour, every time falling on 30 October 2026; fresh storage reads as a
    record of its own. *)

(** The first and the last second whose year fits [tm_year]. *)
Definition TIME_MIN : Z := -67768040609740800.
Definition TIME_MAX : Z := 67768036191676799.

Definition demo_localtime (t : Z) : option tm :=
  if (t <? TIME_MIN) || (TIME_MAX <? t) then None
  else Some (mkTm 126 9 30 ((t / 3600) mod 24)).

Definition demo_sizeof_tx : Z := 80.
Definition demo_heap_max : Z := 2 ^ 47.

Definition demo_uninit : Transaction :=
  mkTransaction "junk" (-1) 99 FUEL_CNG VEH_COMM 1 1 PAY_WALLET.

(** A sale by quantity (mode 0) or by amount (mode 1), for a four-wheeler
    paying cash, one hour into the day, with the heap available. *)
Definition sale_input (pid mode : Z) (v : float) : SaleInput :=
  mkSaleInput (Some pid) (Some 1) (Some mode) (Some v) (Some 0)
    3600 3600 true true.

(** Three sales by amount: petrol on pump 1, diesel on pump 3, petrol on
    pump 2. *)
Definition three_amount_sales : list SaleInput :=
  [ sale_input 1 1 1000.10; sale_input 3 1 2000.20; sale_input 2 1 500.15 ].

Definition after_three_amount_sales : SystemState :=
  default static_state (run_sales three_amount_sales initial_state).

(** Two petrol sales by quantity, on pump 1 and on pump 2. *)
Definition two_petrol_sales : list Command :=
  [ CmdSale (sale_input 1 0 10.1); CmdSale (sale_input 2 0 20.2) ].

(** A sale whose quantity was typed as [nan]. *)
Definition nan_sale : list Command := [ CmdSale (sale_input 1 0 nan) ].

Definition state_of (r : result (SystemState * list StockMove)) : SystemState :=
  match r with Ok (st, _) => st | _ => static_state end.

Definition moves_of (r : result (SystemState * list StockMove))
  : list StockMove :=
  match r with Ok (_, ms) => ms | _ => [] end.

Definition after_two_petrol_sales : SystemState :=
  state_of (run two_petrol_sales initial_state).

Definition two_petrol_moves : list StockMove :=
  moves_of (run two_petrol_sales initial_state).

(** A record for a pump that does not exist. *)
Definition stray_tx : Transaction :=
  mkTransaction "TXN202610300100007" 3600 99 FUEL_DIESEL VEH_4W 12.5 1109.375
    PAY_CARD.

(** A record of pump 3 stamped with a time whose year no [struct tm] can
    hold. *)
Definition late_tx : Transaction :=
  mkTransaction "TXN000000000000001" (2 ^ 60) 3 FUEL_DIESEL VEH_4W 12.5
    1109.375 PAY_CARD.

(** A sale of 60000 litres of petrol, more than the tank holds. *)
Definition oversized_sale : SaleInput := sale_input 1 0 60000.

(** 501 records appended to the initial ledger of 50 slots. *)
Definition numbered_tx (k : nat) : Transaction :=
  mkTransaction "" (Z.of_nat k) 1 FUEL_PETROL VEH_2W 1 1 PAY_CASH.

Definition many_appends : list (bool * bool * Transaction) :=
  map (fun k => (true, true, numbered_tx k)) (seq 0 501).

Definition after_many_appends : SystemState :=
  match append_all many_appends initial_state with
  | Ok st => st
  | _ => static_state
  end.

(** *** The rest of the program *)

Definition LOW_STOCK_THRESHOLD : float := 5000.0.

(** [shutdown_system]: the ledger block is freed and forgotten. *)
Definition shutdown_system (st : SystemState) : SystemState :=
  set_ledger [] 0 (set_block [] 0 st).

(** The warnings [check_low_stock_alerts] prints, in the order of its
    loop: the fuel named and the stock shown. *)
Definition low_stock_alert (st : SystemState) (i : nat)
  : option (FuelType * float) :=
  let fl := default zero_fuel (fuels st !! i) in
  if (current_stock fl <? LOW_STOCK_THRESHOLD)%float
  then Some (f_type fl, current_stock fl)
  else None.

Definition check_low_stock_alerts (st : SystemState)
  : list (FuelType * float) :=
  omap (low_stock_alert st) (seq 0 3).

(** The rows [show_hour_wise_analysis] prints: hour, quantity, revenue. *)
Definition hour_row (st : SystemState) (h : nat)
  : option (nat * float * float) :=
  let q := fget (hour_quantity st) h in
  let a := fget (hour_amount st) h in
  if (0 <? q)%float || (0 <? a)%float then Some (h, q, a) else None.

Definition show_hour_wise_analysis (st : SystemState)
  : list (nat * float * float) :=
  omap (hour_row st) (seq 0 24).

(** What the operator types in one round of the menu: the choice, and
    what the chosen function goes on to read. *)
Record MenuInput := mkMenuInput {
  menu_choice : option Z;
  menu_sale : SaleInput;
  menu_supply_fuel : option Z;
  menu_supply_qty : option float;
  menu_status_pump : option Z;
  menu_status_new : option Z
}.

(** The [switch] of [main], for a choice other than 0. *)
Definition menu_command (m : MenuInput) (choice : Z) : Command :=
  if choice =? 1 then CmdSale (menu_sale m)
  else if choice =? 2 then CmdSupply (menu_supply_fuel m) (menu_supply_qty m)
  else if choice =? 3 then CmdStatus (menu_status_pump m) (menu_status_new m)
  else if choice =? 4 then CmdList
  else if choice =? 5 then CmdReport
  else CmdShow.

(** Where the process stands after the input read so far: back at the
    menu, returned from [main], ended by [exit (EXIT_FAILURE)], or lost to
    an out-of-bounds access. *)
Inductive ProcessEnd :=
  | AtMenu (st : SystemState)
  | Returned (code : Z) (st : SystemState)
  | ExitFailure
  | Crashed.

(** The [while (1)] loop of [main] over the rounds typed so far. *)
Fixpoint main_loop (ms : list MenuInput) (st : SystemState) : ProcessEnd :=
  match ms with
  | [] => AtMenu st
  | m :: ms =>
      match menu_choice m with
      | None => main_loop ms st          (* "Invalid input. Try again." *)
      | Some choice =>
          if choice =? 0 then Returned 0 (shutdown_system st)
          else
            match exec (menu_command m choice) st with
            | Ok st => main_loop ms st
            | Exit => ExitFailure
            | Fault => Crashed
            end
      end
  end.

Definition main (heap : bool) (ms : list MenuInput) : ProcessEnd :=
  match initialize_system heap static_state with
  | Some st => main_loop ms st
  | None => ExitFailure
  end.

(** *** The fixed tables of the station *)

Definition unit_price (f : FuelType) : float :=
  match f with
  | FUEL_PETROL => PRICE_PETROL
  | FUEL_DIESEL => PRICE_DIESEL
  | FUEL_CNG => PRICE_CNG
  end.

Definition opening_of (f : FuelType) : float :=
  match f with
  | FUEL_PETROL => OPEN_PETROL
  | FUEL_DIESEL => OPEN_DIESEL
  | FUEL_CNG => OPEN_CNG
  end.

(** The fuel of the pump with identifier [id], for [1 <= id <= 6]. *)
Definition pump_fuel (id : Z) : FuelType :=
  if id <=? 2 then FUEL_PETROL
  else if id <=? 4 then FUEL_DIESEL else FUEL_CNG.

(** Nothing has touched the type, price and opening stock of a fuel. *)
Definition fixed_tables (st : SystemState) : Prop :=
  forall f,
    f_type (fuel_at (fuels st) f) = f
    /\ price (fuel_at (fuels st) f) = unit_price f
    /\ opening_stock (fuel_at (fuels st) f) = opening_of f.

(** A ledger record as a completed sale leaves it: dispensed from one of
    the six pumps, in that pump's fuel, billed at that fuel's price from
    the quantity typed, or measured at that price from the amount typed. *)
Definition record_consistent (tx : Transaction) : Prop :=
  1 <= tx_pump_id tx <= 6
  /\ tx_fuel_type tx = pump_fuel (tx_pump_id tx)
  /\ ((amount tx = (quantity tx * unit_price (tx_fuel_type tx))%float
       /\ (quantity tx <=? 0)%float = false)
      \/ (quantity tx = (amount tx / unit_price (tx_fuel_type tx))%float
          /\ (amount tx <=? 0)%float = false)).

(** The record was made in local hour [h]. *)
Definition in_hour (h : nat) (tx : Transaction) : bool :=
  match localtime (timestamp tx) with
  | Some lt => tm_hour lt =? Z.of_nat h
  | None => false
  end.

(** Both hour arrays hold, bucket by bucket, the in-order sums of the
    ledger records of that local hour. *)
Definition hours_match (st : SystemState) : Prop :=
  forall h : nat,
    fget (hour_quantity st) h
    = fsum (quantities_where (in_hour h) (ledger st))
    /\ fget (hour_amount st) h = fsum (amounts_where (in_hour h) (ledger st)).

(** The number of ledger records made on pump [id]. *)
Definition sales_on_pump (id : Z) (st : SystemState) : Z :=
  Z.of_nat (length (List.filter (on_pump id) (ledger st))).

(** Every pump's [transactions_count] is the number of its ledger
    records, as an [int] holds it. *)
Definition counts_match (st : SystemState) : Prop :=
  forall p, p ∈ pumps st ->
            transactions_count p = wrap_int (sales_on_pump (pump_id p) st).

(** The slots of the block after the last record. *)
Definition unused_slots (st : SystemState) : list Transaction :=
  drop (Z.to_nat (tx_count st)) (transactions st).

(** The sales among the movements of a run. *)
Definition sales_among (ms : list StockMove) : list StockMove :=
  List.filter (fun m => match m with Dispensed _ _ => true | _ => false end) ms.

Definition sale_move (tx : Transaction) : StockMove :=
  Dispensed (tx_fuel_type tx) (quantity tx).

(** The ten decimal digit characters. *)
Definition is_digit (c : ascii) : bool :=
  let n := Z.of_N (N_of_ascii c) in (48 <=? n) && (n <=? 57).

(** A day at the menu, for trying [main]: a petrol sale, a mistyped
    choice, a supply of diesel, a report, then choice 0. *)
Definition idle_menu (choice : option Z) : MenuInput :=
  mkMenuInput choice (sale_input 1 0 100) (Some 1) (Some 750.5%float)
    (Some 2) (Some 2).

Definition a_day_at_the_menu : list MenuInput :=
  [ idle_menu (Some 1); idle_menu None; idle_menu (Some 2);
    idle_menu (Some 5); idle_menu (Some 3); idle_menu (Some 0) ].

(** *** Assumptions on the platform *)

(** [Transaction] embeds [char txn_id[32]], and is far smaller than 4 GiB. *)
Hypothesis SIZEOF_TX_lo : 32 <= SIZEOF_TX.
Hypothesis SIZEOF_TX_hi : SIZEOF_TX < 2 ^ 32.

(** No object is larger than [PTRDIFF_MAX] bytes. *)
Hypothesis HEAP_MAX_hi : HEAP_MAX < 2 ^ 63.

(** [localtime] fills [struct tm] within the ranges of the C standard. *)
Hypothesis localtime_range :
  forall t lt, localtime t = Some lt -> tm_in_range lt.

(* ------------------------------------------------------------------ *)
(** ** Accumulator arrays *)

Lemma fget_fadd_at_eq (a : list float) (i : nat) (v : float) :
  (i < length a)%nat -> fget (fadd_at a i v) i = (fget a i + v)%float.
Proof.
  intros Hi. unfold fadd_at, fget at 1.
  by rewrite list_lookup_insert_eq.
Qed.

Lemma fget_fadd_at_ne (a : list float) (i j : nat) (v : float) :
  i <> j -> fget (fadd_at a i v) j = fget a j.
Proof.
  intros Hij. unfold fadd_at, fget at 1.
  by rewrite list_lookup_insert_ne.
Qed.

Lemma length_fadd_at (a : list float) (i : nat) (v : float) :
  length (fadd_at a i v) = length a.
Proof. unfold fadd_at. by rewrite length_insert. Qed.

Lemma fsum_snoc (l : list float) (x : float) :
  fsum (l ++ [x]) = (fsum l + x)%float.
Proof. unfold fsum. by rewrite fold_left_app. Qed.

Lemma fuel_idx_inj (f g : FuelType) : fuel_idx f = fuel_idx g -> f = g.
Proof. by destruct f, g. Qed.

Lemma pay_idx_inj (p q : PaymentMode) : pay_idx p = pay_idx q -> p = q.
Proof. by destruct p, q. Qed.

Lemma FuelType_eqb_eq (f g : FuelType) : FuelType_eqb f g = true <-> f = g.
Proof. by destruct f, g. Qed.

Lemma fuel_idx_lt (f : FuelType) : (fuel_idx f < 3)%nat.
Proof. destruct f; simpl; lia. Qed.

Lemma pay_idx_lt (p : PaymentMode) : (pay_idx p < 3)%nat.
Proof. destruct p; simpl; lia. Qed.

Lemma amounts_where_snoc P (l : list Transaction) (t : Transaction) :
  amounts_where P (l ++ [t])
  = amounts_where P l ++ (if P t then [amount t] else []).
Proof.
  unfold amounts_where. rewrite List.filter_app, map_app. simpl.
  by destruct (P t).
Qed.

Lemma quantities_where_snoc P (l : list Transaction) (t : Transaction) :
  quantities_where P (l ++ [t])
  = quantities_where P l ++ (if P t then [quantity t] else []).
Proof.
  unfold quantities_where. rewrite List.filter_app, map_app. simpl.
  by destruct (P t).
Qed.

(* ------------------------------------------------------------------ *)
(** ** Decimal conversion *)

Lemma digit_char_value (d : Z) :
  0 <= d < 10 -> Z.of_N (N_of_ascii (digit_char d)) - 48 = d.
Proof.
  intros Hd. unfold digit_char.
  assert (Hcases : d = 0 \/ d = 1 \/ d = 2 \/ d = 3 \/ d = 4 \/ d = 5
                   \/ d = 6 \/ d = 7 \/ d = 8 \/ d = 9) by lia.
  by repeat (destruct Hcases as [-> | Hcases]); [..| subst d].
Qed.

Lemma digits_value_app (l k : list ascii) :
  digits_value (l ++ k)
  = fold_left (fun acc c => acc * 10 + (Z.of_N (N_of_ascii c) - 48))
      k (digits_value l).
Proof. unfold digits_value. by rewrite fold_left_app. Qed.

Lemma digits_value_zeros (n : nat) (l : list ascii) :
  digits_value (replicate n "0"%char ++ l) = digits_value l.
Proof.
  unfold digits_value. rewrite fold_left_app. f_equal.
  induction n as [|n IH]; [done | simpl; exact IH].
Qed.

Lemma utoa_value (fuel : nat) (n : Z) :
  0 <= n < 10 ^ Z.of_nat fuel -> digits_value (utoa fuel n) = n.
Proof.
  revert n. induction fuel as [|fuel IH]; intros n Hn.
  - simpl in Hn. unfold digits_value. simpl. lia.
  - simpl. destruct (Z.ltb_spec n 10) as [Hlt | Hge].
    + unfold digits_value. simpl. rewrite digit_char_value; lia.
    + rewrite digits_value_app, IH.
      * simpl. rewrite digit_char_value by (apply Z.mod_pos_bound; lia).
        pose proof (Z.div_mod n 10). lia.
      * rewrite Nat2Z.inj_succ, Z.pow_succ_r in Hn by lia.
        split; [apply Z.div_pos; lia | apply Z.div_lt_upper_bound; lia].
Qed.

Lemma utoa_length_le (fuel k : nat) (n : Z) :
  (1 <= k <= fuel)%nat -> 0 <= n < 10 ^ Z.of_nat k ->
  (1 <= length (utoa fuel n) <= k)%nat.
Proof.
  revert k n. induction fuel as [|fuel IH]; intros k n Hk Hn; [lia|].
  simpl. destruct (Z.ltb_spec n 10) as [Hlt | Hge]; [simpl; lia|].
  rewrite length_app. simpl.
  destruct k as [|[|k]]; [lia | simpl in Hn; lia |].
  assert (Hdiv : 0 <= n / 10 < 10 ^ Z.of_nat (S k)).
  { rewrite (Nat2Z.inj_succ (S k)), Z.pow_succ_r in Hn by lia.
    split; [apply Z.div_pos; lia | apply Z.div_lt_upper_bound; lia]. }
  specialize (IH (S k) (n / 10)).
  destruct fuel as [|fuel]; [lia|].
  specialize (IH ltac:(lia) Hdiv). lia.
Qed.

Lemma decimal_value (n : Z) : 0 <= n < 2 ^ 64 -> digits_value (decimal n) = n.
Proof. intros Hn. apply utoa_value. simpl. lia. Qed.

Lemma fmt_u_value (w : nat) (n : Z) :
  0 <= n < 2 ^ 64 -> digits_value (fmt_u w n) = n.
Proof.
  intros Hn. unfold fmt_u, zero_pad.
  by rewrite digits_value_zeros, decimal_value.
Qed.

Lemma fmt_u_inj (w : nat) (n m : Z) :
  0 <= n < 2 ^ 64 -> 0 <= m < 2 ^ 64 -> fmt_u w n = fmt_u w m -> n = m.
Proof.
  intros Hn Hm Heq.
  rewrite <- (fmt_u_value w n Hn), <- (fmt_u_value w m Hm). by rewrite Heq.
Qed.

Lemma length_zero_pad (w : nat) (ds : list ascii) :
  length (zero_pad w ds) = (w `max` length ds)%nat.
Proof. unfold zero_pad. rewrite length_app, length_replicate. lia. Qed.

(** Up to eighteen digits when the number is below [10 ^ 18]. *)
Lemma length_fmt_u_5 (n : Z) :
  0 <= n < 10 ^ 18 -> (5 <= length (fmt_u 5 n) <= 18)%nat.
Proof.
  intros Hn. unfold fmt_u. rewrite length_zero_pad.
  pose proof (utoa_length_le 20 18 n ltac:(lia) Hn) as Hlen.
  unfold decimal. lia.
Qed.

(** A two-digit field shows exactly two characters. *)
Lemma length_fmt_d_2 (z : Z) : 0 <= z < 100 -> length (fmt_d 2 z) = 2%nat.
Proof.
  intros Hz. unfold fmt_d.
  destruct (Z.ltb_spec z 0); [lia|]. rewrite length_zero_pad.
  pose proof (utoa_length_le 20 2 z ltac:(lia) ltac:(simpl; lia)).
  unfold decimal. lia.
Qed.

Lemma length_fmt_u_4 (n : Z) : 0 <= n < 10000 -> length (fmt_u 4 n) = 4%nat.
Proof.
  intros Hn. unfold fmt_u. rewrite length_zero_pad.
  pose proof (utoa_length_le 20 4 n ltac:(lia) ltac:(simpl; lia)).
  unfold decimal. lia.
Qed.

(* ------------------------------------------------------------------ *)
(** ** Transaction identifiers *)

Lemma fmt_d_nonneg (w : nat) (z : Z) : 0 <= z -> fmt_d w z = fmt_u w z.
Proof. intros Hz. unfold fmt_d. by destruct (Z.ltb_spec z 0); [lia|]. Qed.

Lemma year_field_range (y : Z) : 0 <= wrap_uint (y + 1900) mod 10000 < 10000.
Proof. apply Z.mod_pos_bound. lia. Qed.

(** The formatted text is 12 or 13 characters and the sequence digits. *)
Lemma length_txn_id_chars (lt : option tm) (seq : Z) :
  (forall t, lt = Some t -> tm_in_range t) ->
  length (txn_id_chars lt seq)
  = (match lt with Some _ => 13 | None => 12 end + length (fmt_u 5 seq))%nat.
Proof.
  intros Hlt. destruct lt as [t|]; simpl.
  - destruct (Hlt t eq_refl) as (Hmon & Hday & Hhour).
    rewrite !length_app, length_fmt_u_4 by apply year_field_range.
    rewrite !length_fmt_d_2 by lia. lia.
  - done.
Qed.

(** Below [10 ^ 18] the buffer of 32 bytes holds the whole text. *)
Lemma snprintf_txn_id_whole (lt : option tm) (seq : Z) :
  (forall t, lt = Some t -> tm_in_range t) ->
  0 <= seq < 10 ^ 18 ->
  snprintf TXN_ID_SIZE (txn_id_chars lt seq)
  = string_of_list_ascii (txn_id_chars lt seq).
Proof.
  intros Hlt Hseq. unfold snprintf. f_equal. apply take_ge.
  rewrite length_txn_id_chars by done.
  pose proof (length_fmt_u_5 seq Hseq). unfold TXN_ID_SIZE.
  destruct lt; lia.
Qed.

Lemma string_of_list_ascii_inj (l k : list ascii) :
  string_of_list_ascii l = string_of_list_ascii k -> l = k.
Proof.
  intros Heq.
  rewrite <- (list_ascii_of_string_of_list_ascii l),
          <- (list_ascii_of_string_of_list_ascii k).
  by rewrite Heq.
Qed.

(** Two texts with different sequence numbers differ, whatever the clock
    said at either call. *)
Lemma txn_id_chars_distinct (lt1 lt2 : option tm) (seq1 seq2 : Z) :
  (forall t, lt1 = Some t -> tm_in_range t) ->
  (forall t, lt2 = Some t -> tm_in_range t) ->
  0 <= seq1 < 2 ^ 64 -> 0 <= seq2 < 2 ^ 64 -> seq1 <> seq2 ->
  txn_id_chars lt1 seq1 <> txn_id_chars lt2 seq2.
Proof.
  intros H1 H2 Hs1 Hs2 Hne Heq.
  assert (Hmonth : forall t s k,
             tm_in_range t ->
             txn_id_chars (Some t) s <> txn_id_chars None k).
  { intros t s k (Hmon & Hday & Hhour) Habs. simpl in Habs.
    injection Habs as Habs.
    change (fmt_u 4 (wrap_uint (tm_year t + 1900) mod 10000)
              ++ fmt_d 2 (tm_mon t + 1)
              ++ fmt_d 2 (tm_mday t) ++ fmt_d 2 (tm_hour t) ++ fmt_u 5 s
            = replicate 4 "0"%char
              ++ replicate 2 "0"%char ++ replicate 3 "0"%char ++ fmt_u 5 k)
      in Habs.
    apply app_inj_1 in Habs as [_ Habs];
      [| by rewrite length_fmt_u_4 by apply year_field_range].
    apply app_inj_1 in Habs as [Habs _];
      [| by rewrite length_fmt_d_2 by lia].
    rewrite fmt_d_nonneg in Habs by lia.
    pose proof (fmt_u_value 2 (tm_mon t + 1) ltac:(lia)) as Hval.
    rewrite Habs in Hval. unfold digits_value in Hval. simpl in Hval. lia. }
  destruct lt1 as [t1|], lt2 as [t2|].
  - destruct (H1 t1 eq_refl) as (Hmon1 & Hday1 & Hhour1).
    destruct (H2 t2 eq_refl) as (Hmon2 & Hday2 & Hhour2).
    simpl in Heq. injection Heq as Heq.
    apply app_inj_1 in Heq as [_ Heq];
      [| by rewrite !length_fmt_u_4 by apply year_field_range].
    apply app_inj_1 in Heq as [_ Heq];
      [| by rewrite !length_fmt_d_2 by lia].
    apply app_inj_1 in Heq as [_ Heq];
      [| by rewrite !length_fmt_d_2 by lia].
    apply app_inj_1 in Heq as [_ Heq];
      [| by rewrite !length_fmt_d_2 by lia].
    by apply fmt_u_inj in Heq.
  - by apply (Hmonth t1 seq1 seq2 (H1 t1 eq_refl)).
  - symmetry in Heq. by apply (Hmonth t2 seq2 seq1 (H2 t2 eq_refl)).
  - simpl in Heq. repeat injection Heq as Heq. by apply fmt_u_inj in Heq.
Qed.

(** The same for the identifiers as stored, while the sequence number
    stays below [10 ^ 18]. *)
Lemma txn_id_distinct (lt1 lt2 : option tm) (seq1 seq2 : Z) :
  (forall t, lt1 = Some t -> tm_in_range t) ->
  (forall t, lt2 = Some t -> tm_in_range t) ->
  0 <= seq1 < 10 ^ 18 -> 0 <= seq2 < 10 ^ 18 -> seq1 <> seq2 ->
  snprintf TXN_ID_SIZE (txn_id_chars lt1 seq1)
  <> snprintf TXN_ID_SIZE (txn_id_chars lt2 seq2).
Proof.
  intros H1 H2 Hs1 Hs2 Hne.
  rewrite !snprintf_txn_id_whole by done.
  intros Heq%string_of_list_ascii_inj.
  by apply (txn_id_chars_distinct lt1 lt2 seq1 seq2); [..| lia | lia | |].
Qed.

(* ------------------------------------------------------------------ *)
(** ** Growing the ledger block *)

Collection Platform := SIZEOF_TX_lo SIZEOF_TX_hi HEAP_MAX_hi.

Lemma wrap_size_small (z : Z) : 0 <= z < 2 ^ 64 -> wrap_size z = z.
Proof. intros Hz. unfold wrap_size. by apply Z.mod_small. Qed.

(** A well-formed block is small: no size computed from it wraps. *)
Lemma capacity_bound (st : SystemState) :
  well_formed st -> 0 < tx_capacity st < 2 ^ 58.
Proof using Platform.
  intros Hwf. pose proof (wf_capacity st Hwf). pose proof (wf_heap st Hwf).
  nia.
Qed.

(** [realloc] to a larger size followed by the [memset] of
    [ensure_tx_capacity] keeps the records and appends zeroed ones. *)
Lemma install_realloc (avail : bool) (new_capacity : Z) (st : SystemState)
    (new_block : list Transaction) :
  well_formed st ->
  tx_capacity st <= new_capacity ->
  new_capacity * SIZEOF_TX < 2 ^ 64 ->
  realloc avail (transactions st) (wrap_size (new_capacity * SIZEOF_TX))
  = Some new_block ->
  new_capacity * SIZEOF_TX <= HEAP_MAX
  /\ install_block new_block new_capacity st
     = set_block
         (transactions st
            ++ replicate (Z.to_nat (new_capacity - tx_capacity st)) zero_tx)
         new_capacity st.
Proof using Platform.
  intros Hwf Hcap Hsmall Hre.
  pose proof (wf_block st Hwf) as Hlen.
  pose proof (wf_capacity st Hwf) as Hpos.
  assert (Hnc : new_capacity < 2 ^ 59) by nia.
  assert (Hbytes : wrap_size (new_capacity * SIZEOF_TX)
                   = new_capacity * SIZEOF_TX)
    by (apply wrap_size_small; nia).
  rewrite Hbytes in Hre. unfold realloc, alloc_ok in Hre.
  destruct avail; simpl in Hre; [| done].
  destruct (Z.leb_spec (new_capacity * SIZEOF_TX) HEAP_MAX) as [Hfit|];
    [| done].
  injection Hre as <-. split; [done|].
  unfold install_block, memset_zero. f_equal.
  rewrite Z.div_mul by lia.
  rewrite (wrap_size_small (new_capacity - tx_capacity st)) by lia.
  rewrite wrap_size_small by nia.
  rewrite Z.div_mul by lia.
  set (k := Z.to_nat (new_capacity - tx_capacity st)).
  assert (Hslots : (Z.to_nat new_capacity - length (transactions st))%nat = k)
    by lia.
  rewrite Hslots.
  rewrite take_ge by (rewrite length_app, length_replicate; lia).
  replace (Z.to_nat (tx_capacity st))
    with (length (transactions st) + 0)%nat by lia.
  rewrite list_inserts_app_r. f_equal.
  rewrite <- (app_nil_r (replicate k uninit)).
  rewrite list_inserts_0_r by (by rewrite !length_replicate).
  by rewrite app_nil_r.
Qed.

(** The growth policy, case by case. *)
Lemma ensure_tx_capacity_cases (h1 h2 : bool) (st : SystemState) :
  well_formed st ->
  let cap := tx_capacity st in
  ensure_tx_capacity h1 h2 st
  = if tx_count st <? cap then Some st
    else if alloc_ok h1 (cap * 2 * SIZEOF_TX) then
      Some (set_block (transactions st ++ replicate (Z.to_nat cap) zero_tx)
              (cap * 2) st)
    else if alloc_ok h2 ((cap + 50) * SIZEOF_TX) then
      Some (set_block (transactions st ++ replicate 50 zero_tx) (cap + 50) st)
    else None.
Proof using Platform.
  intros Hwf cap. pose proof (capacity_bound st Hwf) as Hcap. fold cap in Hcap.
  pose proof (wf_heap st Hwf) as Hheap. fold cap in Hheap.
  assert (Hdouble : 0 <= cap * 2 * SIZEOF_TX < 2 ^ 64) by nia.
  assert (Hfallback : 0 <= (cap + 50) * SIZEOF_TX < 2 ^ 64) by nia.
  unfold ensure_tx_capacity. fold cap.
  destruct (tx_count st <? cap); [done|].
  rewrite (wrap_size_small (cap * 2)) by lia.
  rewrite (wrap_size_small (cap + 50)) by lia.
  destruct (realloc h1 (transactions st) (wrap_size (cap * 2 * SIZEOF_TX)))
    as [nb|] eqn:Hre1.
  - pose proof (install_realloc h1 (cap * 2) st nb Hwf ltac:(lia) ltac:(lia) Hre1)
      as [Hfit ->].
    unfold realloc in Hre1. rewrite wrap_size_small in Hre1 by lia.
    destruct (alloc_ok h1 (cap * 2 * SIZEOF_TX)); [| done].
    by replace (cap * 2 - tx_capacity st) with cap by (subst cap; lia).
  - unfold realloc in Hre1. rewrite wrap_size_small in Hre1 by lia.
    destruct (alloc_ok h1 (cap * 2 * SIZEOF_TX)); [done|].
    destruct (realloc h2 (transactions st)
                (wrap_size ((cap + 50) * SIZEOF_TX))) as [nb|] eqn:Hre2.
    + pose proof (install_realloc h2 (cap + 50) st nb Hwf ltac:(lia) ltac:(lia) Hre2)
        as [Hfit ->].
      unfold realloc in Hre2. rewrite wrap_size_small in Hre2 by lia.
      destruct (alloc_ok h2 ((cap + 50) * SIZEOF_TX)); [| done].
      by replace (cap + 50 - tx_capacity st) with 50 by (subst cap; lia).
    + unfold realloc in Hre2. rewrite wrap_size_small in Hre2 by lia.
      by destruct (alloc_ok h2 ((cap + 50) * SIZEOF_TX)).
Qed.

(** What a successful [ensure_tx_capacity] leaves: the same records, room
    for one more, and a block the heap could provide. *)
Lemma ensure_tx_capacity_Some (h1 h2 : bool) (st st1 : SystemState) :
  well_formed st ->
  ensure_tx_capacity h1 h2 st = Some st1 ->
  exists n : nat,
    st1 = set_block (transactions st ++ replicate n zero_tx)
            (tx_capacity st + Z.of_nat n) st
    /\ tx_count st < tx_capacity st + Z.of_nat n
    /\ (tx_capacity st + Z.of_nat n) * SIZEOF_TX <= HEAP_MAX.
Proof using Platform.
  intros Hwf Hens. rewrite ensure_tx_capacity_cases in Hens by done.
  pose proof (capacity_bound st Hwf) as Hcap.
  pose proof (wf_count st Hwf) as Hcount.
  pose proof (wf_heap st Hwf) as Hheap.
  destruct (Z.ltb_spec (tx_count st) (tx_capacity st)) as [Hlt | Hfull].
  - injection Hens as <-. exists 0%nat. simpl.
    rewrite app_nil_r, Z.add_0_r. by destruct st.
  - unfold alloc_ok in Hens.
    destruct h1; simpl in Hens.
    + destruct (Z.leb_spec (tx_capacity st * 2 * SIZEOF_TX) HEAP_MAX).
      * injection Hens as <-. exists (Z.to_nat (tx_capacity st)).
        rewrite Z2Nat.id by lia.
        replace (tx_capacity st + tx_capacity st) with (tx_capacity st * 2)
          by lia.
        repeat split; [lia | done].
      * destruct h2; simpl in Hens; [| done].
        destruct (Z.leb_spec ((tx_capacity st + 50) * SIZEOF_TX) HEAP_MAX);
          [| done].
        injection Hens as <-. exists 50%nat. repeat split; [lia | done].
    + destruct h2; simpl in Hens; [| done].
      destruct (Z.leb_spec ((tx_capacity st + 50) * SIZEOF_TX) HEAP_MAX);
        [| done].
      injection Hens as <-. exists 50%nat. repeat split; [lia | done].
Qed.

(* ------------------------------------------------------------------ *)
(** ** Pump lookup *)

Lemma pump_index_by_id_spec (ps : list Pump) (id : Z) :
  map pump_id ps = [1; 2; 3; 4; 5; 6] ->
  pump_index_by_id ps id = if (1 <=? id) && (id <=? 6) then id - 1 else -1.
Proof.
  intros Hids.
  destruct ps as [|p1 [|p2 [|p3 [|p4 [|p5 [|p6 [|p7 ps]]]]]]]; try done.
  injection Hids as H1 H2 H3 H4 H5 H6.
  unfold pump_index_by_id, PUMP_COUNT. simpl. unfold pump_at. simpl.
  rewrite H1, H2, H3, H4, H5, H6.
  repeat match goal with
         | |- context [?a =? ?b] => destruct (Z.eqb_spec a b)
         | |- context [?a <=? ?b] => destruct (Z.leb_spec a b)
         end; simpl; lia.
Qed.

Lemma pump_index_by_id_range (ps : list Pump) (id : Z) :
  map pump_id ps = [1; 2; 3; 4; 5; 6] ->
  pump_index_by_id ps id = -1
  \/ (0 <= pump_index_by_id ps id < 6
      /\ pump_id (pump_at ps (Z.to_nat (pump_index_by_id ps id))) = id).
Proof.
  intros Hids. rewrite (pump_index_by_id_spec ps id Hids).
  destruct (Z.leb_spec 1 id), (Z.leb_spec id 6); simpl; auto.
  right. split; [lia|].
  destruct ps as [|p1 [|p2 [|p3 [|p4 [|p5 [|p6 [|p7 ps]]]]]]]; try done.
  injection Hids as H1 H2 H3 H4 H5 H6.
  assert (Hcases : id = 1 \/ id = 2 \/ id = 3 \/ id = 4 \/ id = 5 \/ id = 6)
    by lia.
  by repeat (destruct Hcases as [-> | Hcases]); [..| subst id].
Qed.

(* ------------------------------------------------------------------ *)
(** ** What [update_stats] touches *)

Lemma update_stats_fuels tx st : fuels (update_stats tx st) = fuels st.
Proof.
  unfold update_stats, update_hour_wise, update_payment_mode,
    update_fuel_wise, update_pump_stats.
  by repeat case_match.
Qed.

Lemma update_stats_ledger tx st :
  transactions (update_stats tx st) = transactions st
  /\ tx_capacity (update_stats tx st) = tx_capacity st
  /\ tx_count (update_stats tx st) = tx_count st
  /\ txn_sequence (update_stats tx st) = txn_sequence st.
Proof.
  unfold update_stats, update_hour_wise, update_payment_mode,
    update_fuel_wise, update_pump_stats.
  by repeat case_match.
Qed.

Lemma update_stats_pumps tx st :
  pumps (update_stats tx st) = pumps (update_pump_stats tx st).
Proof.
  unfold update_stats, update_hour_wise, update_payment_mode,
    update_fuel_wise.
  by repeat case_match.
Qed.

Lemma update_stats_fuel_wise tx st :
  fuel_wise_quantity (update_stats tx st)
  = fadd_at (fuel_wise_quantity st) (fuel_idx (tx_fuel_type tx)) (quantity tx)
  /\ fuel_wise_amount (update_stats tx st)
     = fadd_at (fuel_wise_amount st) (fuel_idx (tx_fuel_type tx)) (amount tx).
Proof.
  unfold update_stats, update_hour_wise, update_payment_mode,
    update_fuel_wise, update_pump_stats.
  by repeat case_match.
Qed.

Lemma update_stats_payment_mode tx st :
  payment_mode_amount (update_stats tx st)
  = fadd_at (payment_mode_amount st) (pay_idx (payment_mode tx)) (amount tx).
Proof.
  unfold update_stats, update_hour_wise, update_payment_mode,
    update_fuel_wise, update_pump_stats.
  by repeat case_match.
Qed.

Lemma update_stats_hours_None tx st :
  localtime (timestamp tx) = None ->
  hour_quantity (update_stats tx st) = hour_quantity st
  /\ hour_amount (update_stats tx st) = hour_amount st.
Proof.
  intros Hlt.
  unfold update_stats, update_hour_wise, update_payment_mode,
    update_fuel_wise, update_pump_stats.
  rewrite Hlt. by repeat case_match.
Qed.

Lemma update_stats_hours_Some tx st lt :
  localtime (timestamp tx) = Some lt ->
  hour_quantity (update_stats tx st)
  = fadd_at (hour_quantity st) (Z.to_nat (tm_hour lt)) (quantity tx)
  /\ hour_amount (update_stats tx st)
     = fadd_at (hour_amount st) (Z.to_nat (tm_hour lt)) (amount tx).
Proof using localtime_range.
  intros Hlt. destruct (localtime_range _ _ Hlt) as (_ & _ & Hhour).
  unfold update_stats, update_hour_wise, update_payment_mode,
    update_fuel_wise, update_pump_stats.
  rewrite Hlt.
  destruct (Z.leb_spec 0 (tm_hour lt)), (Z.ltb_spec (tm_hour lt) 24);
    try lia.
  by repeat case_match.
Qed.

Lemma update_stats_hours_length tx st :
  length (hour_quantity (update_stats tx st)) = length (hour_quantity st)
  /\ length (hour_amount (update_stats tx st)) = length (hour_amount st).
Proof.
  unfold update_stats, update_hour_wise, update_payment_mode,
    update_fuel_wise, update_pump_stats.
  by repeat case_match; simpl; rewrite ?length_fadd_at.
Qed.

(** The pump that matches gets the record's quantity and amount and one
    more transaction; no other pump changes, and no pump changes its
    identifier, fuel or status. *)
Lemma update_pump_stats_found tx st :
  map pump_id (pumps st) = [1; 2; 3; 4; 5; 6] ->
  0 <= pump_index_by_id (pumps st) (tx_pump_id tx) ->
  let i := Z.to_nat (pump_index_by_id (pumps st) (tx_pump_id tx)) in
  let p := pump_at (pumps st) i in
  (i < 6)%nat
  /\ pump_id p = tx_pump_id tx
  /\ pumps (update_pump_stats tx st)
     = <[ i := mkPump (pump_id p) (p_fuel_type p) (status p)
                 (wrap_int (transactions_count p + 1))
                 (total_quantity p + quantity tx)%float
                 (total_amount p + amount tx)%float ]> (pumps st).
Proof.
  intros Hids Hfound i p.
  destruct (pump_index_by_id_range (pumps st) (tx_pump_id tx) Hids)
    as [Hnone | [Hrange Hid]]; [lia|].
  repeat split; [lia | done |].
  unfold update_pump_stats.
  by destruct (Z.leb_spec 0 (pump_index_by_id (pumps st) (tx_pump_id tx)));
    [| lia].
Qed.

Lemma update_pump_stats_missing tx st :
  pump_index_by_id (pumps st) (tx_pump_id tx) = -1 ->
  update_pump_stats tx st = st.
Proof. intros Hnone. unfold update_pump_stats. by rewrite Hnone. Qed.

Lemma update_pump_stats_shape tx st :
  map pump_id (pumps st) = [1; 2; 3; 4; 5; 6] ->
  map pump_id (pumps (update_pump_stats tx st)) = map pump_id (pumps st)
  /\ map p_fuel_type (pumps (update_pump_stats tx st))
     = map p_fuel_type (pumps st)
  /\ map status (pumps (update_pump_stats tx st)) = map status (pumps st).
Proof.
  intros Hids.
  destruct (pump_index_by_id_range (pumps st) (tx_pump_id tx) Hids)
    as [Hnone | [Hrange Hid]].
  - by rewrite update_pump_stats_missing.
  - destruct (update_pump_stats_found tx st Hids ltac:(lia))
      as (Hi & _ & ->).
    set (i := Z.to_nat (pump_index_by_id (pumps st) (tx_pump_id tx))) in *.
    assert (Hlen : length (pumps st) = 6%nat)
      by (by rewrite <- (length_map pump_id), Hids).
    destruct (lookup_lt_is_Some_2 (pumps st) i ltac:(lia)) as [p Hp].
    unfold pump_at. rewrite Hp. simpl.
    rewrite !list_fmap_insert. simpl.
    by rewrite !list_insert_id by (by rewrite list_lookup_fmap, Hp).
Qed.

(* ------------------------------------------------------------------ *)
(** ** Recording a transaction *)

Lemma record_transaction_result (h1 h2 : bool) (tx : Transaction)
    (st : SystemState) :
  well_formed st ->
  match ensure_tx_capacity h1 h2 st with
  | None => record_transaction h1 h2 tx st = Exit
  | Some _ =>
      exists n : nat,
        record_transaction h1 h2 tx st = Ok (update_stats tx (stored n tx st))
        /\ tx_count st < tx_capacity st + Z.of_nat n
        /\ (tx_capacity st + Z.of_nat n) * SIZEOF_TX <= HEAP_MAX
  end.
Proof using Platform.
  intros Hwf. unfold record_transaction.
  destruct (ensure_tx_capacity h1 h2 st) as [st1|] eqn:Hens; [| done].
  destruct (ensure_tx_capacity_Some h1 h2 st st1 Hwf Hens)
    as (n & -> & Hroom & Hheap).
  exists n. split; [| done].
  pose proof (wf_block st Hwf) as Hlen.
  pose proof (wf_count st Hwf) as Hcount.
  pose proof (capacity_bound st Hwf) as Hcap.
  unfold store_transaction. simpl.
  rewrite length_app, length_replicate.
  destruct (Nat.ltb_spec (Z.to_nat (tx_count st))
              (length (transactions st) + n)) as [_ | Hge]; [| lia].
  rewrite wrap_size_small; [done|].
  assert ((tx_capacity st + Z.of_nat n) * 32 <= HEAP_MAX) by nia. lia.
Qed.

Lemma ledger_stored (n : nat) (tx : Transaction) (st : SystemState) :
  well_formed st ->
  tx_count st < tx_capacity st + Z.of_nat n ->
  ledger (stored n tx st) = ledger st ++ [tx].
Proof.
  intros Hwf Hroom.
  pose proof (wf_block st Hwf) as Hlen.
  pose proof (wf_count st Hwf) as Hcount.
  unfold ledger, stored. simpl.
  replace (Z.to_nat (tx_count st + 1)) with (S (Z.to_nat (tx_count st)))
    by lia.
  rewrite (take_S_r _ _ tx)
    by (apply list_lookup_insert_eq;
        rewrite length_app, length_replicate; lia).
  rewrite take_insert_ge by lia.
  by rewrite take_app_le by lia.
Qed.

Lemma well_formed_stored (n : nat) (tx : Transaction) (st : SystemState) :
  well_formed st ->
  tx_count st < tx_capacity st + Z.of_nat n ->
  (tx_capacity st + Z.of_nat n) * SIZEOF_TX <= HEAP_MAX ->
  well_formed (stored n tx st).
Proof.
  intros [] Hroom Hheap.
  split; simpl; try done;
    rewrite ?length_insert, ?length_app, ?length_replicate; lia.
Qed.

Lemma well_formed_update_stats (tx : Transaction) (st : SystemState) :
  well_formed st -> well_formed (update_stats tx st).
Proof.
  intros Hwf.
  destruct (update_stats_ledger tx st) as (Hblk & Hcap & Hcount & _).
  destruct (update_stats_fuel_wise tx st) as (Hfq & Hfa).
  destruct (update_stats_hours_length tx st) as (Hhq & Hha).
  destruct (update_pump_stats_shape tx st (wf_pump_ids st Hwf))
    as (Hids & Hpf & _).
  destruct Hwf.
  split;
    rewrite ?update_stats_fuels, ?update_stats_pumps, ?Hblk, ?Hcap, ?Hcount,
      ?Hfq, ?Hfa, ?Hhq, ?Hha, ?update_stats_payment_mode, ?length_fadd_at,
      ?Hids, ?Hpf;
    done.
Qed.

(** A record appended to a well-formed state is appended in bounds. *)
Lemma record_transaction_no_fault (h1 h2 : bool) (tx : Transaction)
    (st : SystemState) :
  well_formed st -> record_transaction h1 h2 tx st <> Fault.
Proof using Platform.
  intros Hwf Hfault.
  pose proof (record_transaction_result h1 h2 tx st Hwf) as Hres.
  destruct (ensure_tx_capacity h1 h2 st); [| congruence].
  destruct Hres as (n & Hres & _). congruence.
Qed.

Lemma record_transaction_Ok (h1 h2 : bool) (tx : Transaction)
    (st st' : SystemState) :
  well_formed st ->
  record_transaction h1 h2 tx st = Ok st' ->
  exists n : nat,
    st' = update_stats tx (stored n tx st)
    /\ well_formed st'
    /\ ledger st' = ledger st ++ [tx]
    /\ tx_count st' = tx_count st + 1.
Proof using Platform.
  intros Hwf Hrec.
  pose proof (record_transaction_result h1 h2 tx st Hwf) as Hres.
  destruct (ensure_tx_capacity h1 h2 st); [| congruence].
  destruct Hres as (n & Hres & Hroom & Hheap).
  rewrite Hres in Hrec. injection Hrec as <-.
  exists n. split; [done|].
  destruct (update_stats_ledger tx (stored n tx st)) as (Hblk & _ & Hcount & _).
  split; [| split].
  - by apply well_formed_update_stats, well_formed_stored.
  - unfold ledger at 1. rewrite Hblk, Hcount.
    by apply ledger_stored.
  - by rewrite Hcount.
Qed.

(* ------------------------------------------------------------------ *)
(** ** Sales *)

Lemma well_formed_set_stock (st : SystemState) (f : FuelType) (v : float) :
  well_formed st ->
  well_formed
    (set_fuels
       (<[ fuel_idx f := set_current_stock v (fuel_at (fuels st) f) ]>
          (fuels st)) st).
Proof.
  intros Hwf. pose proof (wf_fuels st Hwf) as Hlen.
  pose proof (fuel_idx_lt f) as Hf.
  destruct (lookup_lt_is_Some_2 (fuels st) (fuel_idx f) ltac:(lia))
    as [fl Hfl].
  destruct Hwf.
  split; simpl; try done.
  - by rewrite length_insert.
  - unfold fuel_at. rewrite Hfl. simpl.
    rewrite list_fmap_insert. simpl.
    by rewrite list_insert_id by (by rewrite list_lookup_fmap, Hfl).
Qed.

Lemma well_formed_pre_commit (st : SystemState) (f : FuelType) (q : float) :
  well_formed st -> well_formed (pre_commit f q st).
Proof.
  intros Hwf. unfold pre_commit, deduct_stock.
  apply (well_formed_set_stock (set_txn_sequence _ st)).
  by destruct Hwf.
Qed.

(** Everything a completed sale did, read off the code path. *)
Lemma process_sale_Sold (inp : SaleInput) (st st' : SystemState)
    (tx : Transaction) :
  well_formed st ->
  process_sale inp st = Sold tx st' ->
  exists (n : nat) (vehicle : VehicleType) (pay : PaymentMode),
    let idx := pump_index_by_id (pumps st) (tx_pump_id tx) in
    let pump := pump_at (pumps st) (Z.to_nat idx) in
    let fl := fuel_at (fuels st) (tx_fuel_type tx) in
    in_pump_id inp = Some (tx_pump_id tx)
    /\ 0 <= idx
    /\ status pump = PUMP_ACTIVE
    /\ tx_fuel_type tx = p_fuel_type pump
    /\ read_qty_amt inp (price fl) = inr (quantity tx, amount tx)
    /\ (current_stock fl <? quantity tx)%float = false
    /\ tx = mkTransaction
              (snprintf TXN_ID_SIZE
                 (txn_id_chars (localtime (in_now_id inp))
                    (wrap_ulong (txn_sequence st + 1))))
              (in_now_ts inp) (tx_pump_id tx) (tx_fuel_type tx) vehicle
              (quantity tx) (amount tx) pay
    /\ st' = update_stats tx
               (stored n tx (pre_commit (tx_fuel_type tx) (quantity tx) st))
    /\ well_formed st'
    /\ ledger st' = ledger st ++ [tx]
    /\ tx_count st' = tx_count st + 1
    /\ txn_sequence st' = wrap_ulong (txn_sequence st + 1).
Proof using Platform.
  intros Hwf Hsale. unfold process_sale in Hsale.
  destruct (in_pump_id inp) as [pid|] eqn:Hpid; [| done].
  destruct (Z.ltb_spec (pump_index_by_id (pumps st) pid) 0) as [| Hidx];
    [done|].
  destruct (status (pump_at (pumps st)
                      (Z.to_nat (pump_index_by_id (pumps st) pid))))
    eqn:Hstatus; simpl in Hsale; try done.
  destruct (in_vchoice inp ≫= vehicle_of_Z) as [vehicle|]; [| done].
  destruct (read_qty_amt inp _) as [| [qty amt]] eqn:Hread; [done|].
  destruct (_ <? qty)%float eqn:Hstock; [done|].
  destruct (in_paychoice inp ≫= payment_of_Z) as [pay|]; [| done].
  unfold commit_sale, generate_txn_id in Hsale. simpl in Hsale.
  match type of Hsale with
  | match record_transaction _ _ ?t ?s with _ => _ end = _ =>
      set (tx0 := t) in *;
      change s with (pre_commit (p_fuel_type
        (pump_at (pumps st) (Z.to_nat (pump_index_by_id (pumps st) pid))))
        qty st) in Hsale
  end.
  destruct (record_transaction _ _ tx0 _) as [st1| |] eqn:Hrec; try done.
  injection Hsale as <- <-.
  apply record_transaction_Ok in Hrec as (n & -> & Hwf' & Hledger & Hcount);
    [| by apply well_formed_pre_commit].
  exists n, vehicle, pay. simpl. rewrite Hstatus.
  split_and!; try done.
  by destruct (update_stats_ledger tx0 (stored n tx0
       (pre_commit (p_fuel_type
          (pump_at (pumps st) (Z.to_nat (pump_index_by_id (pumps st) pid))))
          qty st))) as (_ & _ & _ & ->).
Qed.


Lemma commit_sale_not_Rejected inp pid f v q a p st why st' :
  commit_sale inp pid f v q a p st <> Rejected why st'.
Proof.
  unfold commit_sale. destruct (generate_txn_id _ _ _).
  by destruct (record_transaction _ _ _ _).
Qed.

(** A sale that returns early returns the state it was given. *)
Lemma process_sale_Rejected (inp : SaleInput) (st st' : SystemState)
    (why : SaleError) :
  process_sale inp st = Rejected why st' -> st' = st.
Proof.
  unfold process_sale. intros Hsale.
  repeat case_match; try congruence.
  by apply commit_sale_not_Rejected in Hsale.
Qed.

Lemma add_supply_cases (f : option Z) (amt : option float)
    (st : SystemState) :
  (fst (add_supply f amt st) = false /\ snd (add_supply f amt st) = st)
  \/ exists ft a,
       f ≫= fuel_of_Z = Some ft /\ amt = Some a
       /\ (a <=? 0)%float = false
       /\ add_supply f amt st
          = (true,
             set_fuels
               (<[ fuel_idx ft :=
                     set_current_stock
                       (current_stock (fuel_at (fuels st) ft) + a)%float
                       (fuel_at (fuels st) ft) ]> (fuels st)) st).
Proof.
  unfold add_supply.
  destruct (f ≫= fuel_of_Z) as [ft|]; [| by left].
  destruct amt as [a|]; [| by left].
  destruct (a <=? 0)%float eqn:Ha; [by left|].
  right. by exists ft, a.
Qed.

(* ------------------------------------------------------------------ *)
(** ** Every state of a run is well formed *)

Lemma initialize_system_Some (heap : bool) (st : SystemState) :
  initialize_system heap static_state = Some st ->
  st = initial_state /\ INITIAL_TX_CAPACITY * SIZEOF_TX <= HEAP_MAX.
Proof.
  unfold initialize_system, calloc, alloc_ok. intros Hinit.
  destruct heap; simpl in Hinit; [| done].
  destruct (Z.leb_spec (INITIAL_TX_CAPACITY * SIZEOF_TX) HEAP_MAX);
    [| done].
  by injection Hinit as <-.
Qed.

Lemma well_formed_initial_state :
  INITIAL_TX_CAPACITY * SIZEOF_TX <= HEAP_MAX -> well_formed initial_state.
Proof. intros Hheap. split; simpl; try done; lia. Qed.

Lemma well_formed_exec (c : Command) (st st' : SystemState) :
  well_formed st -> exec c st = Ok st' -> well_formed st'.
Proof using Platform.
  intros Hwf Hexec. destruct c as [inp | f amt | pid s | | |]; simpl in Hexec.
  - destruct (process_sale inp st) as [tx st1 | why st1 | |] eqn:Hsale;
      try done; injection Hexec as <-.
    + by destruct (process_sale_Sold inp st st1 tx Hwf Hsale)
        as (n & v & p & _ & _ & _ & _ & _ & _ & _ & _ & Hwf' & _).
    + by rewrite (process_sale_Rejected inp st st1 why Hsale).
  - injection Hexec as <-.
    destruct (add_supply_cases f amt st) as [[_ ->] | (ft & a & _ & _ & _ & ->)];
      [done|].
    by apply well_formed_set_stock.
  - injection Hexec as <-. unfold change_pump_status.
    destruct pid as [pid|]; [| done].
    destruct (Z.ltb_spec (pump_index_by_id (pumps st) pid) 0) as [| Hidx];
      [done|].
    destruct (s ≫= status_of_Z) as [s'|]; [| done]. simpl.
    destruct (pump_index_by_id_range (pumps st) pid (wf_pump_ids st Hwf))
      as [Hnone | [Hrange _]]; [lia|].
    set (i := Z.to_nat (pump_index_by_id (pumps st) pid)).
    assert (Hlen : length (pumps st) = 6%nat)
      by (by rewrite <- (length_map pump_id), (wf_pump_ids st Hwf)).
    destruct (lookup_lt_is_Some_2 (pumps st) i ltac:(lia)) as [p Hp].
    destruct Hwf. split; simpl; try done.
    + unfold pump_at. rewrite Hp. simpl. rewrite list_fmap_insert. simpl.
      by rewrite list_insert_id by (by rewrite list_lookup_fmap, Hp).
    + unfold pump_at. rewrite Hp. simpl. rewrite list_fmap_insert. simpl.
      by rewrite list_insert_id by (by rewrite list_lookup_fmap, Hp).
  - by injection Hexec as <-.
  - injection Hexec as <-. destruct Hwf. split; simpl; try done.
    + by rewrite length_map.
    + by rewrite <- list_fmap_compose.
  - by injection Hexec as <-.
Qed.

Lemma reachable_well_formed (st : SystemState) :
  reachable st -> well_formed st.
Proof using Platform.
  induction 1 as [heap st Hinit | c st st' _ IH Hexec].
  - apply initialize_system_Some in Hinit as [-> Hheap].
    by apply well_formed_initial_state.
  - by apply (well_formed_exec c st st').
Qed.

(** No menu choice makes a well-formed state write outside the block. *)
Lemma exec_no_fault (c : Command) (st : SystemState) :
  well_formed st -> exec c st <> Fault.
Proof using Platform.
  intros Hwf. destruct c as [inp | | | | |]; simpl; try done.
  destruct (process_sale inp st) as [| | |] eqn:Hsale; try done.
  exfalso. unfold process_sale in Hsale.
  repeat case_match; try congruence.
  unfold commit_sale, generate_txn_id in Hsale. simpl in Hsale.
  match type of Hsale with
  | match record_transaction ?h1 ?h2 ?t ?s with _ => _ end = _ =>
      pose proof (record_transaction_no_fault h1 h2 t s) as Hno;
      destruct (record_transaction h1 h2 t s); try done
  end.
  apply Hno; [| done].
  match goal with
  | |- well_formed (deduct_stock ?f ?q _) =>
      apply (well_formed_pre_commit st f q Hwf)
  end.
Qed.

(* ------------------------------------------------------------------ *)
(** ** What a menu choice changes *)

(** A menu choice either completes a sale or leaves the books alone. *)
Lemma exec_cases (c : Command) (st st' : SystemState) :
  well_formed st ->
  exec c st = Ok st' ->
  (exists inp tx, c = CmdSale inp /\ process_sale inp st = Sold tx st')
  \/ same_books st st'.
Proof.
  intros Hwf Hexec. destruct c as [inp | f amt | pid s | | |]; simpl in Hexec.
  - destruct (process_sale inp st) as [tx st1 | why st1 | |] eqn:Hsale;
      try done; injection Hexec as <-.
    + left. by exists inp, tx.
    + right. by rewrite (process_sale_Rejected inp st st1 why Hsale).
  - right. injection Hexec as <-.
    by destruct (add_supply_cases f amt st)
      as [[_ ->] | (ft & a & _ & _ & _ & ->)].
  - right. injection Hexec as <-. unfold change_pump_status.
    destruct pid as [pid|]; [| done].
    destruct (Z.ltb_spec (pump_index_by_id (pumps st) pid) 0) as [| Hidx];
      [done|].
    destruct (s ≫= status_of_Z) as [s'|]; [| done]. simpl.
    destruct (pump_index_by_id_range (pumps st) pid (wf_pump_ids st Hwf))
      as [Hnone | [Hrange _]]; [lia|].
    set (i := Z.to_nat (pump_index_by_id (pumps st) pid)).
    assert (Hlen : length (pumps st) = 6%nat)
      by (by rewrite <- (length_map pump_id), (wf_pump_ids st Hwf)).
    destruct (lookup_lt_is_Some_2 (pumps st) i ltac:(lia)) as [p Hp].
    split; simpl; try done.
    unfold pump_at. rewrite Hp. simpl. rewrite list_fmap_insert.
    by rewrite list_insert_id by (by rewrite list_lookup_fmap, Hp).
  - right. by injection Hexec as <-.
  - right. by injection Hexec as <-.
  - right. by injection Hexec as <-.
Qed.

Lemma same_books_ledger (st st' : SystemState) :
  same_books st st' -> ledger st' = ledger st.
Proof. intros []. unfold ledger. congruence. Qed.

Lemma ledger_length (st : SystemState) :
  well_formed st -> length (ledger st) = Z.to_nat (tx_count st).
Proof.
  intros Hwf. pose proof (wf_block st Hwf). pose proof (wf_count st Hwf).
  unfold ledger. rewrite length_take. lia.
Qed.

(* ------------------------------------------------------------------ *)
(** ** Identifiers and the ledger *)

Lemma ids_in_step_initial_state : ids_in_step initial_state.
Proof. split; [done|]. intros i tx Hi. by destruct i. Qed.

Lemma ids_in_step_exec (c : Command) (st st' : SystemState) :
  well_formed st -> ids_in_step st -> exec c st = Ok st' -> ids_in_step st'.
Proof using Platform localtime_range.
  intros Hwf [Hseq Hids] Hexec.
  destruct (exec_cases c st st' Hwf Hexec) as [(inp & tx & -> & Hsale) | Hsame].
  - destruct (process_sale_Sold inp st st' tx Hwf Hsale)
      as (n & v & p & _ & _ & _ & _ & _ & _ & Htx & _ & _ & Hledger & Hcount
          & Hseq').
    pose proof (capacity_bound st Hwf) as Hcap.
    pose proof (wf_count st Hwf) as Hcnt.
    assert (Hwrap : wrap_ulong (txn_sequence st + 1) = tx_count st + 1).
    { unfold wrap_ulong. rewrite Z.mod_small; lia. }
    split; [congruence|].
    intros i tx' Hi. rewrite Hledger in Hi.
    apply lookup_app_Some in Hi as [Hi | [Hlen Hi]]; [by apply Hids|].
    rewrite ledger_length in Hlen, Hi by done.
    apply list_lookup_singleton_Some in Hi as [Hi0 <-].
    exists (localtime (in_now_id inp)). split; [by apply localtime_range|].
    rewrite Htx. simpl. rewrite Hwrap. do 2 f_equal. lia.
  - destruct Hsame. split; [congruence|].
    intros i tx Hi. apply Hids. unfold ledger in *. congruence.
Qed.

Lemma reachable_ids_in_step (st : SystemState) :
  reachable st -> ids_in_step st.
Proof using Platform localtime_range.
  induction 1 as [heap st Hinit | c st st' Hreach IH Hexec].
  - apply initialize_system_Some in Hinit as [-> _].
    apply ids_in_step_initial_state.
  - by apply (ids_in_step_exec c st st');
      [apply reachable_well_formed | |].
Qed.

(* ------------------------------------------------------------------ *)
(** ** The ledger store *)

Lemma append_all_Ok (txs : list (bool * bool * Transaction))
    (st st' : SystemState) :
  well_formed st ->
  append_all txs st = Ok st' ->
  well_formed st' /\ ledger st' = ledger st ++ map snd txs.
Proof using Platform.
  revert st. induction txs as [| [[h1 h2] tx] txs IH]; intros st Hwf Happ.
  - injection Happ as <-. by rewrite app_nil_r.
  - simpl in Happ.
    destruct (record_transaction h1 h2 tx st) as [st1| |] eqn:Hrec; try done.
    destruct (record_transaction_Ok h1 h2 tx st st1 Hwf Hrec)
      as (n & _ & Hwf1 & Hledger & _).
    destruct (IH st1 Hwf1 Happ) as [Hwf' ->].
    split; [done|]. rewrite Hledger. simpl. by rewrite <- app_assoc.
Qed.

(** C5: the ledger starts with room for 50 records; a full block is
    doubled, or grown by 50 records when doubling fails, or the process
    exits when that fails too; and any number of appends that do not exit
    leaves every earlier record where it was, followed by the appended
    ones in the order of the appends. *)
Theorem ledger_growth_keeps_records :
  (forall heap st,
     initialize_system heap static_state = Some st ->
     tx_capacity st = INITIAL_TX_CAPACITY /\ ledger st = [])
  /\ (forall st h1 h2,
        reachable st ->
        ensure_tx_capacity h1 h2 st
        = if tx_count st <? tx_capacity st then Some st
          else if alloc_ok h1 (tx_capacity st * 2 * SIZEOF_TX) then
            Some (set_block
                    (transactions st
                       ++ replicate (Z.to_nat (tx_capacity st)) zero_tx)
                    (tx_capacity st * 2) st)
          else if alloc_ok h2 ((tx_capacity st + 50) * SIZEOF_TX) then
            Some (set_block (transactions st ++ replicate 50 zero_tx)
                    (tx_capacity st + 50) st)
          else None)
  /\ (forall st txs st',
        reachable st ->
        append_all txs st = Ok st' ->
        ledger st' = ledger st ++ map snd txs
        /\ forall i tx, ledger st !! i = Some tx -> ledger st' !! i = Some tx).
Proof using Platform.
  split_and!.
  - intros heap st Hinit. by apply initialize_system_Some in Hinit as [-> _].
  - intros st h1 h2 Hreach.
    by apply ensure_tx_capacity_cases, reachable_well_formed.
  - intros st txs st' Hreach Happ.
    apply append_all_Ok in Happ as [_ ->];
      [| by apply reachable_well_formed].
    split; [done|]. intros i tx Hi. by apply lookup_app_l_Some.
Qed.

(** C10: in every state of a run the ledger holds at most [tx_capacity]
    records in a block of [tx_capacity > 0] slots; [ensure_tx_capacity],
    when it returns, leaves a free slot at index [tx_count]; so neither
    [record_transaction] nor any menu choice writes outside the block. *)
Theorem ledger_writes_in_bounds (st : SystemState) :
  reachable st ->
  0 < tx_capacity st
  /\ 0 <= tx_count st <= tx_capacity st
  /\ Z.of_nat (length (transactions st)) = tx_capacity st
  /\ (forall h1 h2 st1,
        ensure_tx_capacity h1 h2 st = Some st1 ->
        0 <= tx_count st1 < tx_capacity st1
        /\ Z.of_nat (length (transactions st1)) = tx_capacity st1)
  /\ (forall h1 h2 tx, record_transaction h1 h2 tx st <> Fault)
  /\ (forall c, exec c st <> Fault).
Proof using Platform.
  intros Hwf%reachable_well_formed.
  pose proof (wf_count st Hwf) as Hcount.
  split_and!; try (by destruct Hwf); try lia.
  - intros h1 h2 st1 Hens.
    destruct (ensure_tx_capacity_Some h1 h2 st st1 Hwf Hens)
      as (n & -> & Hroom & _). simpl.
    rewrite length_app, length_replicate.
    pose proof (wf_block st Hwf). lia.
  - intros h1 h2 tx. by apply record_transaction_no_fault.
  - intros c. by apply exec_no_fault.
Qed.

(* ------------------------------------------------------------------ *)
(** ** Transaction identifiers of a run *)

(** C4: in every state of a run the identifiers in the ledger are pairwise
    distinct, and the identifier the next call generates differs from all
    of them, whatever the clock says at any of the calls and also when
    [localtime] fails. *)
Theorem txn_ids_pairwise_distinct (st : SystemState) :
  reachable st ->
  NoDup (map txn_id (ledger st))
  /\ forall now,
       fst (generate_txn_id now TXN_ID_SIZE st) ∉ map txn_id (ledger st).
Proof using Platform localtime_range.
  intros Hreach.
  pose proof (reachable_well_formed st Hreach) as Hwf.
  destruct (reachable_ids_in_step st Hreach) as [Hseq Hids].
  pose proof (capacity_bound st Hwf) as Hcap.
  pose proof (wf_count st Hwf) as Hcount.
  pose proof (ledger_length st Hwf) as Hlen.
  assert (Hbound : forall i tx, ledger st !! i = Some tx ->
                                0 <= Z.of_nat i + 1 <= tx_count st).
  { intros i tx Hi%lookup_lt_Some. lia. }
  split.
  - apply NoDup_alt. intros i j id Hi Hj.
    rewrite list_lookup_fmap in Hi, Hj.
    destruct (ledger st !! i) as [ti|] eqn:Hti; [| done].
    destruct (ledger st !! j) as [tj|] eqn:Htj; [| done].
    injection Hi as Hi. injection Hj as Hj.
    destruct (Hids i ti Hti) as (lti & Hri & Hidi).
    destruct (Hids j tj Htj) as (ltj & Hrj & Hidj).
    pose proof (Hbound i ti Hti). pose proof (Hbound j tj Htj).
    destruct (decide (i = j)) as [| Hne]; [done|]. exfalso.
    apply (txn_id_distinct lti ltj (Z.of_nat i + 1) (Z.of_nat j + 1));
      try done; try lia.
    congruence.
  - intros now Hin. simpl in Hin.
    apply list_elem_of_lookup in Hin as [i Hi].
    rewrite list_lookup_fmap in Hi.
    destruct (ledger st !! i) as [ti|] eqn:Hti; [| done].
    injection Hi as Hi.
    destruct (Hids i ti Hti) as (lti & Hri & Hidi).
    pose proof (Hbound i ti Hti).
    assert (Hwrap : wrap_ulong (txn_sequence st + 1) = tx_count st + 1).
    { unfold wrap_ulong. rewrite Z.mod_small; lia. }
    rewrite Hwrap in Hi.
    apply (txn_id_distinct lti (localtime now) (Z.of_nat i + 1)
             (tx_count st + 1)); try done; try lia.
    + by apply localtime_range.
    + congruence.
Qed.

(* ------------------------------------------------------------------ *)
(** ** Listing the transactions *)

Lemma list_rows_rev (n : nat) (ts : list Transaction) :
  (n <= length ts)%nat -> list_rows n ts = row_of <$> reverse (take n ts).
Proof.
  induction n as [|n IH]; intros Hn; [done|].
  destruct (lookup_lt_is_Some_2 ts n ltac:(lia)) as [t Ht].
  simpl list_rows. rewrite (take_S_r _ _ t Ht), reverse_snoc. simpl.
  unfold tx_at. rewrite Ht. simpl. f_equal. apply IH. lia.
Qed.

(** C6, as the code has it: [list_transactions] prints the ledger most
    recent first, so the [i]-th row printed is the record appended
    [i + 1]-th from the end. *)
Theorem list_transactions_most_recent_first (st : SystemState) :
  reachable st ->
  list_transactions st = row_of <$> reverse (ledger st)
  /\ forall i : nat,
       (i < length (ledger st))%nat ->
       list_transactions st !! i
       = row_of <$> (ledger st !! (length (ledger st) - 1 - i)%nat).
Proof using Platform.
  intros Hwf%reachable_well_formed.
  pose proof (capacity_bound st Hwf) as Hcap.
  pose proof (wf_count st Hwf) as Hcount.
  pose proof (wf_block st Hwf) as Hblock.
  assert (Hlist : list_transactions st = row_of <$> reverse (ledger st)).
  { unfold list_transactions, ledger.
    destruct (Z.eqb_spec (tx_count st) 0) as [-> | Hne]; [done|].
    assert (Hlong : wrap_long (tx_count st) = tx_count st).
    { unfold wrap_long. rewrite Z.mod_small; lia. }
    rewrite Hlong.
    replace (tx_count st - 1 + 1) with (tx_count st) by lia.
    apply list_rows_rev. lia. }
  split; [done|]. intros i Hi. rewrite Hlist.
  rewrite list_lookup_fmap, reverse_lookup by done. do 2 f_equal. lia.
Qed.

(* ------------------------------------------------------------------ *)
(** ** The aggregation step *)

(** [a[i] += v], read back slot by slot. *)
Lemma fget_fadd_at (a : list float) (i j : nat) (v : float) :
  (i < length a)%nat ->
  fget (fadd_at a i v) j
  = if (j =? i)%nat then (fget a j + v)%float else fget a j.
Proof.
  intros Hi. destruct (Nat.eqb_spec j i) as [-> | Hne].
  - by apply fget_fadd_at_eq.
  - by apply fget_fadd_at_ne.
Qed.

Lemma pump_at_insert (ps : list Pump) (i k : nat) (p : Pump) :
  (i < length ps)%nat ->
  pump_at (<[ i := p ]> ps) k = if (k =? i)%nat then p else pump_at ps k.
Proof.
  intros Hi. unfold pump_at. destruct (Nat.eqb_spec k i) as [-> | Hne].
  - by rewrite list_lookup_insert_eq.
  - by rewrite list_lookup_insert_ne.
Qed.

(** What the aggregation step does to each slot of the three accumulator
    families that do not depend on the pump. *)
Lemma update_stats_slots (tx : Transaction) (st : SystemState) :
  well_formed st ->
  let st' := update_stats tx st in
  (forall j : nat,
     fget (fuel_wise_quantity st') j
     = (if (j =? fuel_idx (tx_fuel_type tx))%nat
        then (fget (fuel_wise_quantity st) j + quantity tx)%float
        else fget (fuel_wise_quantity st) j)
     /\ fget (fuel_wise_amount st') j
        = (if (j =? fuel_idx (tx_fuel_type tx))%nat
           then (fget (fuel_wise_amount st) j + amount tx)%float
           else fget (fuel_wise_amount st) j)
     /\ fget (payment_mode_amount st') j
        = (if (j =? pay_idx (payment_mode tx))%nat
           then (fget (payment_mode_amount st) j + amount tx)%float
           else fget (payment_mode_amount st) j))
  /\ match localtime (timestamp tx) with
     | None =>
         hour_quantity st' = hour_quantity st
         /\ hour_amount st' = hour_amount st
     | Some lt =>
         forall h : nat,
           fget (hour_quantity st') h
           = (if (h =? Z.to_nat (tm_hour lt))%nat
              then (fget (hour_quantity st) h + quantity tx)%float
              else fget (hour_quantity st) h)
           /\ fget (hour_amount st') h
              = (if (h =? Z.to_nat (tm_hour lt))%nat
                 then (fget (hour_amount st) h + amount tx)%float
                 else fget (hour_amount st) h)
     end.
Proof using localtime_range.
  intros Hwf st'. subst st'.
  destruct (update_stats_fuel_wise tx st) as [Hfq Hfa].
  pose proof (fuel_idx_lt (tx_fuel_type tx)) as Hf.
  pose proof (pay_idx_lt (payment_mode tx)) as Hm.
  split.
  - intros j. rewrite Hfq, Hfa, update_stats_payment_mode.
    split_and!; apply fget_fadd_at.
    + by rewrite (wf_fuel_wise_quantity st Hwf).
    + by rewrite (wf_fuel_wise_amount st Hwf).
    + by rewrite (wf_payment_mode_amount st Hwf).
  - destruct (localtime (timestamp tx)) as [lt|] eqn:Hlt.
    + destruct (update_stats_hours_Some tx st lt Hlt) as [Hhq Hha].
      destruct (localtime_range _ _ Hlt) as (_ & _ & Hhour).
      intros h. rewrite Hhq, Hha. split; apply fget_fadd_at.
      * rewrite (wf_hour_quantity st Hwf). lia.
      * rewrite (wf_hour_amount st Hwf). lia.
    + by apply update_stats_hours_None.
Qed.

(** C7: the aggregation step of [record_transaction] takes every record
    in.  Slot by slot: the fuel-wise quantity and amount of the record's
    fuel and the payment-mode amount of its payment mode go up by the
    record's quantity and amount, and no other slot of these arrays moves;
    a record of pump 1..6 raises that pump's [transactions_count] by one
    and its totals by the record's quantity and amount, and no other pump
    moves; the two hour arrays go up in the slot of the record's local
    hour, and in no other, when [localtime] gives one, and are left as
    they were when [localtime] fails.  The step never ends the call: once
    the record is stored, [record_transaction] returns normally with the
    aggregated state, and it never accesses the block out of bounds. *)
Theorem observe_skips_only_the_hour (tx : Transaction) (st : SystemState) :
  well_formed st ->
  let st' := update_stats tx st in
  (forall j : nat,
     fget (fuel_wise_quantity st') j
     = (if (j =? fuel_idx (tx_fuel_type tx))%nat
        then (fget (fuel_wise_quantity st) j + quantity tx)%float
        else fget (fuel_wise_quantity st) j)
     /\ fget (fuel_wise_amount st') j
        = (if (j =? fuel_idx (tx_fuel_type tx))%nat
           then (fget (fuel_wise_amount st) j + amount tx)%float
           else fget (fuel_wise_amount st) j)
     /\ fget (payment_mode_amount st') j
        = (if (j =? pay_idx (payment_mode tx))%nat
           then (fget (payment_mode_amount st) j + amount tx)%float
           else fget (payment_mode_amount st) j))
  /\ (1 <= tx_pump_id tx <= 6 ->
      let i := Z.to_nat (tx_pump_id tx - 1) in
      let p := pump_at (pumps st) i in
      let p' := pump_at (pumps st') i in
      pump_id p' = tx_pump_id tx
      /\ p_fuel_type p' = p_fuel_type p
      /\ status p' = status p
      /\ transactions_count p' = wrap_int (transactions_count p + 1)
      /\ total_quantity p' = (total_quantity p + quantity tx)%float
      /\ total_amount p' = (total_amount p + amount tx)%float
      /\ forall k : nat, k <> i -> pump_at (pumps st') k = pump_at (pumps st) k)
  /\ match localtime (timestamp tx) with
     | None =>
         hour_quantity st' = hour_quantity st
         /\ hour_amount st' = hour_amount st
     | Some lt =>
         forall h : nat,
           fget (hour_quantity st') h
           = (if (h =? Z.to_nat (tm_hour lt))%nat
              then (fget (hour_quantity st) h + quantity tx)%float
              else fget (hour_quantity st) h)
           /\ fget (hour_amount st') h
              = (if (h =? Z.to_nat (tm_hour lt))%nat
                 then (fget (hour_amount st) h + amount tx)%float
                 else fget (hour_amount st) h)
     end
  /\ (forall h1 h2 st1 st2,
        ensure_tx_capacity h1 h2 st = Some st1 ->
        store_transaction tx st1 = Ok st2 ->
        record_transaction h1 h2 tx st = Ok (update_stats tx st2))
  /\ forall h1 h2, record_transaction h1 h2 tx st <> Fault.
Proof using Platform localtime_range.
  intros Hwf st'.
  destruct (update_stats_slots tx st Hwf) as [Hslots Hhours].
  split_and!; [exact Hslots | | exact Hhours | |].
  - intros Hid i p p'. subst p p' st'. rewrite update_stats_pumps.
    pose proof (pump_index_by_id_spec (pumps st) (tx_pump_id tx)
                  (wf_pump_ids st Hwf)) as Hidx.
    assert (Hfound : pump_index_by_id (pumps st) (tx_pump_id tx)
                     = tx_pump_id tx - 1).
    { rewrite Hidx.
      destruct (Z.leb_spec 1 (tx_pump_id tx)), (Z.leb_spec (tx_pump_id tx) 6);
        simpl; lia. }
    destruct (update_pump_stats_found tx st (wf_pump_ids st Hwf) ltac:(lia))
      as (Hlt & Hpid & ->).
    rewrite Hfound in *. fold i in Hlt, Hpid |- *.
    assert (Hlen : length (pumps st) = 6%nat)
      by (by rewrite <- (length_map pump_id), (wf_pump_ids st Hwf)).
    rewrite !pump_at_insert by lia. rewrite Nat.eqb_refl. simpl.
    split_and!; try done.
    intros k Hk. rewrite pump_at_insert by lia.
    by destruct (Nat.eqb_spec k i).
  - intros h1 h2 st1 st2 Hens Hstore. unfold record_transaction.
    by rewrite Hens, Hstore.
  - intros h1 h2. by apply record_transaction_no_fault.
Qed.

(** C9: a record whose [pump_id] matches no pump is appended like any
    other whenever the block has or gets room: it is the last record of the
    ledger; slot by slot, the fuel-wise quantity and amount of its fuel,
    the payment-mode amount of its payment mode and, when [localtime]
    gives an hour, the two hour slots of that hour go up by its quantity
    and amount, and no other slot moves; and [pumps] is left exactly as it
    was. *)
Theorem unknown_pump_is_skipped (h1 h2 : bool) (tx : Transaction)
    (st st1 : SystemState) :
  well_formed st ->
  pump_index_by_id (pumps st) (tx_pump_id tx) = -1 ->
  ensure_tx_capacity h1 h2 st = Some st1 ->
  exists st',
    record_transaction h1 h2 tx st = Ok st'
    /\ ledger st' = ledger st ++ [tx]
    /\ pumps st' = pumps st
    /\ (forall j : nat,
          fget (fuel_wise_quantity st') j
          = (if (j =? fuel_idx (tx_fuel_type tx))%nat
             then (fget (fuel_wise_quantity st) j + quantity tx)%float
             else fget (fuel_wise_quantity st) j)
          /\ fget (fuel_wise_amount st') j
             = (if (j =? fuel_idx (tx_fuel_type tx))%nat
                then (fget (fuel_wise_amount st) j + amount tx)%float
                else fget (fuel_wise_amount st) j)
          /\ fget (payment_mode_amount st') j
             = (if (j =? pay_idx (payment_mode tx))%nat
                then (fget (payment_mode_amount st) j + amount tx)%float
                else fget (payment_mode_amount st) j))
    /\ match localtime (timestamp tx) with
       | Some lt =>
           forall h : nat,
             fget (hour_quantity st') h
             = (if (h =? Z.to_nat (tm_hour lt))%nat
                then (fget (hour_quantity st) h + quantity tx)%float
                else fget (hour_quantity st) h)
             /\ fget (hour_amount st') h
                = (if (h =? Z.to_nat (tm_hour lt))%nat
                   then (fget (hour_amount st) h + amount tx)%float
                   else fget (hour_amount st) h)
       | None =>
           hour_quantity st' = hour_quantity st
           /\ hour_amount st' = hour_amount st
       end.
Proof using Platform localtime_range.
  intros Hwf Hnone Hens.
  pose proof (record_transaction_result h1 h2 tx st Hwf) as Hres.
  rewrite Hens in Hres. destruct Hres as (n & Hrec & Hroom & Hheap).
  exists (update_stats tx (stored n tx st)). split; [done|].
  destruct (record_transaction_Ok h1 h2 tx st _ Hwf Hrec)
    as (_ & _ & _ & Hledger & _).
  assert (Hwf1 : well_formed (stored n tx st))
    by (by apply well_formed_stored).
  destruct (update_stats_slots tx (stored n tx st) Hwf1) as [Hslots Hhours].
  split_and!; [done | | exact Hslots | exact Hhours].
  rewrite update_stats_pumps. by rewrite update_pump_stats_missing.
Qed.

(* ------------------------------------------------------------------ *)
(** ** Sales that complete *)

(** A sale that passes every check completes whenever the ledger has or
    gets room for its record. *)
Lemma process_sale_accepts (inp : SaleInput) (st : SystemState) (pid : Z)
    (vehicle : VehicleType) (pay : PaymentMode) (qty amt : float) :
  let idx := pump_index_by_id (pumps st) pid in
  let pump := pump_at (pumps st) (Z.to_nat idx) in
  let fl := fuel_at (fuels st) (p_fuel_type pump) in
  let tx :=
    mkTransaction
      (snprintf TXN_ID_SIZE
         (txn_id_chars (localtime (in_now_id inp))
            (wrap_ulong (txn_sequence st + 1))))
      (in_now_ts inp) pid (p_fuel_type pump) vehicle qty amt pay in
  well_formed st ->
  in_pump_id inp = Some pid ->
  0 <= idx ->
  status pump = PUMP_ACTIVE ->
  in_vchoice inp ≫= vehicle_of_Z = Some vehicle ->
  read_qty_amt inp (price fl) = inr (qty, amt) ->
  (current_stock fl <? qty)%float = false ->
  in_paychoice inp ≫= payment_of_Z = Some pay ->
  ensure_tx_capacity (in_heap_double inp) (in_heap_fallback inp) st <> None ->
  exists n : nat,
    process_sale inp st
    = Sold tx (update_stats tx (stored n tx (pre_commit (p_fuel_type pump) qty st))).
Proof using Platform.
  intros idx pump fl tx Hwf Hpid Hidx Hstatus Hv Hread Hstock Hpay Hroom.
  unfold process_sale. rewrite Hpid. fold idx.
  destruct (Z.ltb_spec idx 0); [lia|]. fold pump. rewrite Hstatus. simpl.
  rewrite Hv. fold fl. rewrite Hread, Hstock, Hpay.
  unfold commit_sale, generate_txn_id. simpl. fold tx.
  change (deduct_stock (p_fuel_type pump) qty
            (set_txn_sequence (wrap_ulong (txn_sequence st + 1)) st))
    with (pre_commit (p_fuel_type pump) qty st).
  pose proof (record_transaction_result (in_heap_double inp)
                (in_heap_fallback inp) tx
                (pre_commit (p_fuel_type pump) qty st)
                (well_formed_pre_commit st _ _ Hwf)) as Hres.
  destruct (ensure_tx_capacity _ _ (pre_commit _ _ _)) eqn:Hens.
  - destruct Hres as (n & -> & _). by exists n.
  - exfalso. apply Hroom.
    unfold ensure_tx_capacity, pre_commit in *. simpl in *.
    destruct (tx_count st <? tx_capacity st); [done|].
    by repeat case_match.
Qed.

(* ------------------------------------------------------------------ *)
(** ** The first sale of the day *)

(** C8: from the initialised state, a quantity-mode sale of 100 litres on
    either petrol pump completes; its amount is exactly 10250, the petrol
    stock becomes exactly 49900, and the pump has dispensed one
    transaction. *)
Theorem first_petrol_sale_of_100 (heap : bool) (st0 : SystemState)
    (inp : SaleInput) (pid : Z) (vehicle : VehicleType) (pay : PaymentMode) :
  initialize_system heap static_state = Some st0 ->
  pid = 1 \/ pid = 2 ->
  in_pump_id inp = Some pid ->
  in_vchoice inp ≫= vehicle_of_Z = Some vehicle ->
  in_mode inp = Some 0 ->
  in_value inp = Some 100%float ->
  in_paychoice inp ≫= payment_of_Z = Some pay ->
  exists tx st,
    process_sale inp st0 = Sold tx st
    /\ quantity tx = 100%float
    /\ amount tx = 10250%float
    /\ current_stock (fuel_at (fuels st) FUEL_PETROL) = 49900%float
    /\ transactions_count (pump_at (pumps st) (Z.to_nat (pid - 1))) = 1
    /\ tx_count st = 1.
Proof using Platform.
  intros Hinit Hpid Hin_pid Hin_v Hin_mode Hin_value Hin_pay.
  apply initialize_system_Some in Hinit as [-> Hheap].
  pose proof (well_formed_initial_state Hheap) as Hwf.
  assert (Hidx : pump_index_by_id (pumps initial_state) pid = pid - 1).
  { rewrite pump_index_by_id_spec by done. by destruct Hpid as [-> | ->]. }
  assert (Hpump : exists p,
             pump_at (pumps initial_state) (Z.to_nat (pid - 1)) = p
             /\ p_fuel_type p = FUEL_PETROL /\ status p = PUMP_ACTIVE
             /\ transactions_count p = 0).
  { destruct Hpid as [-> | ->]; by eexists. }
  destruct Hpump as (p & Hp & Hpf & Hps & Hpc).
  destruct (process_sale_accepts inp initial_state pid vehicle pay
              100%float 10250%float) as [n Hsale]; try done.
  - rewrite Hidx. lia.
  - by rewrite Hidx, Hp.
  - rewrite Hidx, Hp, Hpf. unfold read_qty_amt.
    by rewrite Hin_mode, Hin_value.
  - by rewrite Hidx, Hp, Hpf.
  - rewrite Hidx, Hp, Hpf in Hsale.
    eexists _, _. split; [exact Hsale|].
    split_and!; try done.
    + by rewrite update_stats_fuels.
    + rewrite update_stats_pumps.
      match goal with
      | |- context [update_pump_stats ?t ?s] =>
          destruct (update_pump_stats_found t s (wf_pump_ids _ Hwf))
            as (Hi & _ & ->);
          cbn [pumps stored pre_commit deduct_stock set_fuels
                 set_txn_sequence set_ledger set_block tx_pump_id] in *;
          rewrite Hidx in *; [lia|]
      end.
      unfold pump_at at 1.
      rewrite list_lookup_insert_eq by (simpl; lia).
      cbn [transactions_count]. by rewrite Hp, Hpc.
    + match goal with
      | |- tx_count (update_stats ?t ?s) = _ =>
          by destruct (update_stats_ledger t s) as (_ & _ & -> & _)
      end.
Qed.

(* ------------------------------------------------------------------ *)
(** ** Rejected sales *)

(** Either a check of [process_sale] fails, or every check passes and the
    sale is committed. *)
Lemma process_sale_checks (inp : SaleInput) (st : SystemState) :
  (exists why, process_sale inp st = Rejected why st)
  \/ exists pid vehicle qty amt pay,
       let idx := pump_index_by_id (pumps st) pid in
       let pump := pump_at (pumps st) (Z.to_nat idx) in
       let fl := fuel_at (fuels st) (p_fuel_type pump) in
       in_pump_id inp = Some pid
       /\ 0 <= idx
       /\ status pump = PUMP_ACTIVE
       /\ in_vchoice inp ≫= vehicle_of_Z = Some vehicle
       /\ read_qty_amt inp (price fl) = inr (qty, amt)
       /\ (current_stock fl <? qty)%float = false
       /\ in_paychoice inp ≫= payment_of_Z = Some pay
       /\ process_sale inp st
          = commit_sale inp pid (p_fuel_type pump) vehicle qty amt pay st.
Proof.
  unfold process_sale.
  destruct (in_pump_id inp) as [pid|] eqn:Hpid; [| by left; eexists].
  destruct (Z.ltb_spec (pump_index_by_id (pumps st) pid) 0) as [| Hidx];
    [by left; eexists|].
  destruct (status (pump_at (pumps st)
                      (Z.to_nat (pump_index_by_id (pumps st) pid))))
    eqn:Hstatus; simpl; try (by left; eexists).
  destruct (in_vchoice inp ≫= vehicle_of_Z) as [vehicle|] eqn:Hv;
    [| by left; eexists].
  destruct (read_qty_amt inp _) as [| [qty amt]] eqn:Hread;
    [by left; eexists|].
  destruct (_ <? qty)%float eqn:Hstock; [by left; eexists|].
  destruct (in_paychoice inp ≫= payment_of_Z) as [pay|] eqn:Hpay;
    [| by left; eexists].
  right. exists pid, vehicle, qty, amt, pay. simpl. by rewrite Hstatus.
Qed.

Lemma read_qty_amt_inr (inp : SaleInput) (unit_price qty amt : float) :
  read_qty_amt inp unit_price = inr (qty, amt) ->
  exists m v,
    in_mode inp = Some m /\ (m = 0 \/ m = 1)
    /\ in_value inp = Some v /\ (v <=? 0)%float = false.
Proof.
  unfold read_qty_amt. intros Hread.
  destruct (in_mode inp) as [m|]; [| done].
  destruct (m =? 0) eqn:Hm0.
  - apply Z.eqb_eq in Hm0.
    destruct (in_value inp) as [v|]; [| done].
    destruct (v <=? 0)%float eqn:Hv; [done|]. exists m, v. auto.
  - destruct (m =? 1) eqn:Hm1; [| done]. apply Z.eqb_eq in Hm1.
    destruct (in_value inp) as [v|]; [| done].
    destruct (v <=? 0)%float eqn:Hv; [done|]. exists m, v. auto.
Qed.

(** C3: a sale attempt that returns early returns the state it started
    from, whole; and each recoverable failure (no or unknown pump id, a
    pump that is not Active, an invalid vehicle, mode or payment selection,
    an unreadable or non-positive quantity or amount, a quantity above the
    current stock) does make the attempt return early. *)
Theorem rejected_sale_changes_nothing (inp : SaleInput) (st : SystemState) :
  (forall why st', process_sale inp st = Rejected why st' -> st' = st)
  /\ (sale_failure inp st -> exists why, process_sale inp st = Rejected why st).
Proof.
  split; [intros why st'; apply process_sale_Rejected|].
  intros Hfail.
  destruct (process_sale_checks inp st)
    as [Hrej | (pid & vehicle & qty & amt & pay & Hpid & Hidx & Hstatus & Hv
                & Hread & Hstock & Hpay & _)]; [done|].
  exfalso.
  destruct (read_qty_amt_inr _ _ _ _ Hread) as (m & v & Hm & Hm01 & Hval & Hpos).
  destruct Hfail as [H | id H1 H2 | id H1 H2 H3 | H | H | H
                     | id q a H1 H2 (H3 & H4) | H].
  - congruence.
  - rewrite Hpid in H1. injection H1 as <-. lia.
  - rewrite Hpid in H1. injection H1 as <-. congruence.
  - congruence.
  - destruct H as [H | (m' & H & Hm0 & Hm1)]; [congruence|].
    rewrite Hm in H. injection H as <-. lia.
  - destruct H as [H | (v' & H & Hv0)]; [congruence|].
    rewrite Hval in H. injection H as <-. congruence.
  - rewrite Hpid in H1. injection H1 as <-.
    rewrite Hread in H3. injection H3 as <- <-. congruence.
  - congruence.
Qed.

(* ------------------------------------------------------------------ *)
(** ** The accumulators cache the ledger *)

Lemma accumulators_match_initial_state : accumulators_match initial_state.
Proof.
  split.
  - by intros [].
  - by intros [].
  - intros p Hp. simpl in Hp.
    repeat (apply elem_of_cons in Hp as [-> | Hp]; [done|]).
    by apply elem_of_nil in Hp.
  - intros p Hp. simpl in Hp.
    repeat (apply elem_of_cons in Hp as [-> | Hp]; [done|]).
    by apply elem_of_nil in Hp.
  - by intros [].
Qed.

Lemma accumulators_match_same_books (st st' : SystemState) :
  same_books st st' -> accumulators_match st -> accumulators_match st'.
Proof.
  intros Hsame [Hfa Hfq Hpa Hpq Hma].
  pose proof (same_books_ledger st st' Hsame) as Hledger.
  assert (Hpump : forall p, p ∈ pumps st' ->
                    exists p0, p0 ∈ pumps st /\ pump_totals p = pump_totals p0).
  { intros p Hp.
    assert (Hin : pump_totals p ∈ map pump_totals (pumps st'))
      by (by apply list_elem_of_fmap_2).
    rewrite (same_pump_totals st st' Hsame) in Hin.
    apply list_elem_of_fmap in Hin as (p0 & Heq & Hp0). by exists p0. }
  destruct Hsame.
  split; rewrite Hledger.
  - intros f. by rewrite same_fuel_wise_amount0.
  - intros f. by rewrite same_fuel_wise_quantity0.
  - intros p (p0 & Hp0 & Heq)%Hpump. injection Heq as -> _ _ ->.
    by apply Hpa.
  - intros p (p0 & Hp0 & Heq)%Hpump. injection Heq as -> _ -> _.
    by apply Hpq.
  - intros m. by rewrite same_payment_mode_amount0.
Qed.

(** Adding a value to one bucket of an array of in-order sums keeps it an
    array of in-order sums of the list extended by that value. *)
Lemma bucket_sum_snoc (a : list float) (i j : nat) (v : float)
    (old : list float) (hit : bool) :
  (i < length a)%nat ->
  (hit = true <-> i = j) ->
  fget a j = fsum old ->
  fget (fadd_at a i v) j = fsum (old ++ (if hit then [v] else [])).
Proof.
  intros Hi Hhit Hold. destruct hit.
  - assert (i = j) as <- by (by apply Hhit).
    by rewrite fget_fadd_at_eq, fsum_snoc, Hold.
  - rewrite fget_fadd_at_ne, app_nil_r; [done|].
    intros Heq. by apply Hhit in Heq.
Qed.

Lemma accumulators_match_sold (inp : SaleInput) (st st' : SystemState)
    (tx : Transaction) :
  well_formed st ->
  process_sale inp st = Sold tx st' ->
  accumulators_match st -> accumulators_match st'.
Proof using Platform.
  intros Hwf Hsale [Hfa Hfq Hpa Hpq Hma].
  destruct (process_sale_Sold inp st st' tx Hwf Hsale)
    as (n & v & pay & _ & Hidx & _ & _ & _ & _ & _ & -> & _ & Hledger & _).
  set (st1 := stored n tx (pre_commit (tx_fuel_type tx) (quantity tx) st))
    in *.
  destruct (update_stats_fuel_wise tx st1) as [Hq Ha].
  pose proof (update_stats_payment_mode tx st1) as Hm.
  pose proof (update_stats_pumps tx st1) as Hp.
  destruct (update_pump_stats_found tx st1 (wf_pump_ids st Hwf) Hidx)
    as (Hi & Hid & Hpumps).
  rewrite Hpumps in Hp. clear Hpumps.
  change (pumps st1) with (pumps st) in *.
  change (fuel_wise_quantity st1) with (fuel_wise_quantity st) in *.
  change (fuel_wise_amount st1) with (fuel_wise_amount st) in *.
  change (payment_mode_amount st1) with (payment_mode_amount st) in *.
  set (i := Z.to_nat (pump_index_by_id (pumps st) (tx_pump_id tx))) in *.
  assert (Hlen : length (pumps st) = 6%nat)
    by (by rewrite <- (length_map pump_id), (wf_pump_ids st Hwf)).
  destruct (lookup_lt_is_Some_2 (pumps st) i ltac:(lia)) as [pi Hpi].
  assert (Hat : pump_at (pumps st) i = pi) by (unfold pump_at; by rewrite Hpi).
  rewrite Hat in *.
  assert (Hother : forall j p, i <> j -> pumps st !! j = Some p ->
                               on_pump (pump_id p) tx = false).
  { intros j p Hij Hj. unfold on_pump.
    destruct (Z.eqb_spec (tx_pump_id tx) (pump_id p)) as [Heq|]; [| done].
    exfalso. apply Hij.
    assert (Hnd : NoDup (map pump_id (pumps st)))
      by (rewrite (wf_pump_ids st Hwf); by compute_done).
    apply (NoDup_lookup _ i j (pump_id p) Hnd).
    - change (map pump_id (pumps st)) with (pump_id <$> pumps st).
      rewrite list_lookup_fmap, Hpi. simpl. congruence.
    - change (map pump_id (pumps st)) with (pump_id <$> pumps st).
      by rewrite list_lookup_fmap, Hj. }
  assert (Hon : on_pump (pump_id pi) tx = true)
    by (unfold on_pump; rewrite Hid; apply Z.eqb_refl).
  split; rewrite Hledger.
  - intros f. rewrite Ha, amounts_where_snoc.
    apply bucket_sum_snoc; [| | done].
    + rewrite (wf_fuel_wise_amount st Hwf). apply fuel_idx_lt.
    + unfold on_fuel. rewrite FuelType_eqb_eq.
      split; [congruence | apply fuel_idx_inj].
  - intros f. rewrite Hq, quantities_where_snoc.
    apply bucket_sum_snoc; [| | done].
    + rewrite (wf_fuel_wise_quantity st Hwf). apply fuel_idx_lt.
    + unfold on_fuel. rewrite FuelType_eqb_eq.
      split; [congruence | apply fuel_idx_inj].
  - intros p Hin. rewrite Hp in Hin.
    apply list_elem_of_lookup in Hin as [j Hj].
    apply list_lookup_insert_Some in Hj as [(<- & <- & _) | (Hij & Hj)].
    + simpl. rewrite amounts_where_snoc.
      rewrite (Hpa pi) by (by eapply list_elem_of_lookup_2).
      by rewrite Hon, fsum_snoc.
    + rewrite amounts_where_snoc, (Hother j p Hij Hj), app_nil_r.
      apply Hpa. by eapply list_elem_of_lookup_2.
  - intros p Hin. rewrite Hp in Hin.
    apply list_elem_of_lookup in Hin as [j Hj].
    apply list_lookup_insert_Some in Hj as [(<- & <- & _) | (Hij & Hj)].
    + simpl. rewrite quantities_where_snoc.
      rewrite (Hpq pi) by (by eapply list_elem_of_lookup_2).
      by rewrite Hon, fsum_snoc.
    + rewrite quantities_where_snoc, (Hother j p Hij Hj), app_nil_r.
      apply Hpq. by eapply list_elem_of_lookup_2.
  - intros m. rewrite Hm, amounts_where_snoc.
    apply bucket_sum_snoc; [| | done].
    + rewrite (wf_payment_mode_amount st Hwf). apply pay_idx_lt.
    + unfold paid_by, PaymentMode_eqb. rewrite Nat.eqb_eq.
      split; [congruence | done].
Qed.

Lemma reachable_accumulators_match (st : SystemState) :
  reachable st -> accumulators_match st.
Proof using Platform.
  induction 1 as [heap st Hinit | c st st' Hreach IH Hexec].
  - apply initialize_system_Some in Hinit as [-> _].
    apply accumulators_match_initial_state.
  - pose proof (reachable_well_formed st Hreach) as Hwf.
    destruct (exec_cases c st st' Hwf Hexec)
      as [(inp & tx & -> & Hsale) | Hsame].
    + by apply (accumulators_match_sold inp st st' tx).
    + by apply (accumulators_match_same_books st st').
Qed.

Lemma run_sales_reachable (ins : list SaleInput) (st st' : SystemState) :
  reachable st -> run_sales ins st = Some st' -> reachable st'.
Proof.
  revert st. induction ins as [|i ins IH]; intros st Hreach Hrun.
  - by injection Hrun as <-.
  - simpl in Hrun.
    destruct (process_sale i st) as [tx st1 | | |] eqn:Hsale; try done.
    apply (IH st1); [| done].
    apply (reach_exec (CmdSale i) st st1 Hreach). simpl. by rewrite Hsale.
Qed.

(* ------------------------------------------------------------------ *)
(** ** Stock *)

Lemma fuel_at_insert (fs : list Fuel) (f g : FuelType) (fl : Fuel) :
  length fs = 3%nat ->
  fuel_at (<[ fuel_idx g := fl ]> fs) f
  = if FuelType_eqb f g then fl else fuel_at fs f.
Proof.
  intros Hlen. unfold fuel_at.
  destruct (FuelType_eqb f g) eqn:Hfg.
  - apply FuelType_eqb_eq in Hfg as ->.
    rewrite list_lookup_insert_eq; [done|].
    pose proof (fuel_idx_lt g). lia.
  - rewrite list_lookup_insert_ne; [done|].
    intros Heq%fuel_idx_inj. subst g.
    by rewrite (proj2 (FuelType_eqb_eq f f)) in Hfg.
Qed.

Lemma fuel_at_fmap (g : Fuel -> Fuel) (fs : list Fuel) (f : FuelType) :
  length fs = 3%nat -> fuel_at (g <$> fs) f = g (fuel_at fs f).
Proof.
  intros Hlen. unfold fuel_at. rewrite list_lookup_fmap.
  destruct (lookup_lt_is_Some_2 fs (fuel_idx f)) as [fl ->]; [| done].
  pose proof (fuel_idx_lt f). lia.
Qed.

(** One menu choice moves the stock of each fuel by the movement it
    reports, and never touches the opening stock. *)
Lemma exec_stock (c : Command) (st st' : SystemState) (f : FuelType) :
  well_formed st ->
  exec c st = Ok st' ->
  current_stock (fuel_at (fuels st') f)
  = replay_stock f (current_stock (fuel_at (fuels st) f)) (move_of c st)
  /\ opening_stock (fuel_at (fuels st') f)
     = opening_stock (fuel_at (fuels st) f).
Proof using Platform.
  intros Hwf Hexec. pose proof (wf_fuels st Hwf) as Hlen.
  destruct c as [inp | g amt | pid s | | |]; simpl in Hexec.
  - simpl. destruct (process_sale inp st) as [tx st1 | why st1 | |] eqn:Hsale;
      try done; injection Hexec as <-.
    + destruct (process_sale_Sold inp st st1 tx Hwf Hsale)
        as (n & v & pay & _ & _ & _ & _ & _ & _ & _ & -> & _).
      rewrite update_stats_fuels.
      change (fuels (stored n tx (pre_commit (tx_fuel_type tx) (quantity tx) st)))
        with (<[ fuel_idx (tx_fuel_type tx) :=
                   set_current_stock
                     (current_stock (fuel_at (fuels st) (tx_fuel_type tx))
                      - quantity tx)%float
                     (fuel_at (fuels st) (tx_fuel_type tx)) ]> (fuels st)).
      rewrite fuel_at_insert by done. simpl.
      destruct (FuelType_eqb f (tx_fuel_type tx)) eqn:Hf; [| done].
      by apply FuelType_eqb_eq in Hf as ->.
    + by rewrite (process_sale_Rejected inp st st1 why Hsale).
  - injection Hexec as <-. simpl.
    destruct (add_supply_cases g amt st)
      as [[Hno ->] | (ft & a & Hg & -> & Ha & Hadd)].
    + destruct (g ≫= fuel_of_Z) as [ft|]; [| done].
      destruct amt as [a|]; [| done].
      by destruct (add_supply g (Some a) st) as [[] ?].
    + rewrite Hg, Hadd. simpl. rewrite fuel_at_insert by done.
      destruct (FuelType_eqb f ft) eqn:Hf; [| done].
      by apply FuelType_eqb_eq in Hf as ->.
  - injection Hexec as <-. unfold change_pump_status.
    by repeat case_match.
  - by injection Hexec as <-.
  - injection Hexec as <-. simpl.
    change (map ?g ?l) with (g <$> l). by rewrite fuel_at_fmap.
  - by injection Hexec as <-.
Qed.

Lemma replay_stock_app (f : FuelType) (s : float) (ms ms' : list StockMove) :
  replay_stock f s (ms ++ ms') = replay_stock f (replay_stock f s ms) ms'.
Proof. unfold replay_stock. by rewrite fold_left_app. Qed.

Lemma run_stock (cs : list Command) (st st' : SystemState)
    (ms : list StockMove) (f : FuelType) :
  well_formed st ->
  run cs st = Ok (st', ms) ->
  well_formed st'
  /\ current_stock (fuel_at (fuels st') f)
     = replay_stock f (current_stock (fuel_at (fuels st) f)) ms
  /\ opening_stock (fuel_at (fuels st') f)
     = opening_stock (fuel_at (fuels st) f).
Proof using Platform.
  revert st ms. induction cs as [|c cs IH]; intros st ms Hwf Hrun.
  - by injection Hrun as <- <-.
  - simpl in Hrun. destruct (exec c st) as [st1| |] eqn:Hexec; try done.
    destruct (run cs st1) as [[st2 ms2]| |] eqn:Hrest; try done.
    injection Hrun as <- <-.
    destruct (exec_stock c st st1 f Hwf Hexec) as [Hcur Hopen].
    destruct (IH st1 ms2 (well_formed_exec c st st1 Hwf Hexec) Hrest)
      as (Hwf2 & Hcur2 & Hopen2).
    split; [done|]. rewrite replay_stock_app, <- Hcur. split; congruence.
Qed.

(** A quantity above the current stock stops the sale at the stock check,
    with the state as it was. *)
Lemma process_sale_insufficient (inp : SaleInput) (st : SystemState)
    (pid : Z) (qty amt : float) :
  let idx := pump_index_by_id (pumps st) pid in
  let pump := pump_at (pumps st) (Z.to_nat idx) in
  let fl := fuel_at (fuels st) (p_fuel_type pump) in
  in_pump_id inp = Some pid ->
  0 <= idx ->
  status pump = PUMP_ACTIVE ->
  in_vchoice inp ≫= vehicle_of_Z <> None ->
  read_qty_amt inp (price fl) = inr (qty, amt) ->
  (current_stock fl <? qty)%float = true ->
  process_sale inp st = Rejected InsufficientStock st.
Proof.
  intros idx pump fl Hpid Hidx Hstatus Hv Hread Hstock.
  unfold process_sale. rewrite Hpid. fold idx.
  destruct (Z.ltb_spec idx 0); [lia|]. fold pump. rewrite Hstatus. simpl.
  destruct (in_vchoice inp ≫= vehicle_of_Z); [| done].
  fold fl. by rewrite Hread, Hstock.
Qed.

(* ------------------------------------------------------------------ *)
(** ** Binary64 subtraction and addition keep a stock non-negative *)

Lemma leb_zero_nonneg (x : float) :
  (0 <=? x)%float = true <-> sf_nonneg (Prim2SF x).
Proof.
  rewrite FloatAxioms.leb_spec. change (Prim2SF 0) with (S754_zero false).
  unfold SFleb, SFcompare.
  destruct (Prim2SF x) as [s | [] | | [] m e]; simpl; intuition congruence.
Qed.

Lemma is_finite_sf_finite (x : float) :
  is_finite x = true -> sf_finite (Prim2SF x).
Proof.
  unfold is_finite, is_nan, is_infinity.
  rewrite !FloatAxioms.eqb_spec, FloatAxioms.abs_spec.
  change (Prim2SF infinity) with (S754_infinity false).
  by destruct (Prim2SF x) as [s | [] | | [] m e].
Qed.

Lemma shr_1_nonneg (r : shr_record) : 0 <= shr_m r -> 0 <= shr_m (shr_1 r).
Proof. destruct r as [[|[p|p|]|p] ? ?]; simpl; lia. Qed.

Lemma iter_pos_shr_1_nonneg (p : positive) (r : shr_record) :
  0 <= shr_m r -> 0 <= shr_m (SpecFloat.iter_pos shr_1 p r).
Proof.
  revert r. induction p as [p IH | p IH |]; intros r Hr; simpl.
  - by apply IH, IH, shr_1_nonneg.
  - by apply IH, IH.
  - by apply shr_1_nonneg.
Qed.

Lemma shr_fexp_nonneg (m e : Z) (l : location) :
  0 <= m -> 0 <= shr_m (fst (shr_fexp prec emax m e l)).
Proof.
  intros Hm. unfold shr_fexp, shr.
  assert (Hrec : 0 <= shr_m (shr_record_of_loc m l))
    by (by destruct l as [|[]]).
  destruct (_ - e) as [|p|p]; simpl; [done | | done].
  by apply iter_pos_shr_1_nonneg.
Qed.

Lemma round_nearest_even_nonneg (m : Z) (l : location) :
  0 <= m -> 0 <= round_nearest_even m l.
Proof.
  intros Hm. destruct l as [|[]]; simpl; try lia.
  destruct (Z.even m); lia.
Qed.

Lemma binary_round_aux_nonneg (m e : Z) (l : location) :
  0 <= m -> sf_nonneg (binary_round_aux prec emax false m e l).
Proof.
  intros Hm. unfold binary_round_aux.
  pose proof (shr_fexp_nonneg m e l Hm) as H1.
  destruct (shr_fexp prec emax m e l) as [r1 e1]. simpl in H1.
  pose proof (shr_fexp_nonneg
                (round_nearest_even (shr_m r1) (loc_of_shr_record r1)) e1
                loc_Exact (round_nearest_even_nonneg _ _ H1)) as H2.
  destruct (shr_fexp prec emax _ e1 loc_Exact) as [r2 e2]. simpl in H2.
  destruct (shr_m r2) as [|p|p]; simpl; [done | | lia].
  by destruct (e2 <=? emax - prec).
Qed.

Lemma binary_normalize_nonneg (m e : Z) :
  0 <= m -> sf_nonneg (binary_normalize prec emax m e false).
Proof.
  intros Hm. destruct m as [|p|p]; simpl; [done | | lia].
  unfold binary_round. destruct (shl_align _ _ _) as [mz ez].
  by apply binary_round_aux_nonneg.
Qed.

Lemma SFadd_nonneg (x y : spec_float) :
  sf_nonneg x -> sf_nonneg y -> sf_nonneg (SFadd prec emax x y).
Proof.
  destruct x as [sx | sx | | sx mx ex], y as [sy | sy | | sy my ey];
    simpl; try done.
  - by destruct sx, sy.
  - by intros -> ->.
  - intros -> ->. apply binary_normalize_nonneg. simpl. lia.
Qed.

Lemma Zpos_iter_xO (m d : positive) :
  Zpos (Pos.iter xO m d) = Zpos m * 2 ^ Zpos d.
Proof.
  induction d as [|d IH] using Pos.peano_ind.
  - simpl. lia.
  - rewrite Pos.iter_succ, Pos2Z.inj_xO, IH, Pos2Z.inj_succ, Z.pow_succ_r; lia.
Qed.

Lemma digits2_pos_bounds (m : positive) :
  2 ^ (Zpos (digits2_pos m) - 1) <= Zpos m < 2 ^ Zpos (digits2_pos m).
Proof.
  induction m as [m IH | m IH |]; simpl digits2_pos.
  - rewrite Pos2Z.inj_succ, Z.pow_succ_r by lia.
    replace (Z.succ (Zpos (digits2_pos m)) - 1)
      with (Z.succ (Zpos (digits2_pos m) - 1)) by lia.
    rewrite Z.pow_succ_r by lia. lia.
  - rewrite Pos2Z.inj_succ, Z.pow_succ_r by lia.
    replace (Z.succ (Zpos (digits2_pos m)) - 1)
      with (Z.succ (Zpos (digits2_pos m) - 1)) by lia.
    rewrite Z.pow_succ_r by lia. lia.
  - simpl. lia.
Qed.

(** Two positive binary64 numbers in canonical form compare as their
    exponents and then their mantissas do; so when the first is not below
    the second, its mantissa aligned on the smaller exponent is not below
    the other's. *)
Lemma aligned_mantissas_ordered (mx my : positive) (ex ey : Z) :
  bounded prec emax mx ex = true ->
  bounded prec emax my ey = true ->
  SFltb (S754_finite false mx ex) (S754_finite false my ey) = false ->
  Zpos (fst (shl_align my ey (Z.min ex ey)))
  <= Zpos (fst (shl_align mx ex (Z.min ex ey))).
Proof.
  unfold bounded, canonical_mantissa, fexp, SFltb, SFcompare.
  intros [Hx _]%andb_prop [Hy _]%andb_prop Hcmp.
  apply Z.eqb_eq in Hx, Hy.
  pose proof (digits2_pos_bounds mx) as Hdx.
  pose proof (digits2_pos_bounds my) as Hdy.
  unfold shl_align.
  destruct (Z.compare_spec ex ey) as [-> | Hlt | Hgt]; [| done |].
  - rewrite Z.min_id, Z.sub_diag. simpl.
    destruct (Pos.compare_cont Eq mx my) eqn:Hm; try done.
    + apply Pos.compare_eq in Hm as ->. lia.
    + apply Pos.compare_gt_iff in Hm. lia.
  - rewrite Z.min_r by lia. rewrite Z.sub_diag. simpl.
    destruct (ey - ex) as [|d|d] eqn:Hd; try lia. simpl.
    rewrite Zpos_iter_xO.
    assert (Hprec : Zpos (digits2_pos mx) = prec).
    { unfold emin, prec, emax in *. lia. }
    assert (Hmy : Zpos (digits2_pos my) <= prec).
    { unfold emin, prec, emax in *. lia. }
    assert (Hpow : 2 ^ Zpos (digits2_pos my) <= 2 ^ prec)
      by (apply Z.pow_le_mono_r; lia).
    rewrite Hprec in Hdx.
    assert (H2d : 2 <= 2 ^ Zpos d).
    { change 2 with (2 ^ 1) at 1. apply Z.pow_le_mono_r; lia. }
    replace (2 ^ prec) with (2 * 2 ^ (prec - 1)) in Hpow
      by (by unfold prec).
    nia.
Qed.

Lemma SFsub_nonneg (x y : spec_float) :
  valid_binary x = true -> valid_binary y = true ->
  sf_nonneg x -> sf_finite y ->
  SFltb x y = false ->
  sf_nonneg (SFsub prec emax x y).
Proof.
  intros Hvx Hvy Hx Hy Hlt.
  destruct x as [sx | sx | | sx mx ex], y as [sy | sy | | sy my ey];
    simpl in *; try done.
  - by destruct sx, sy.
  - by destruct sy.
  - subst sx. destruct sy.
    + apply binary_normalize_nonneg. simpl. lia.
    + apply binary_normalize_nonneg. simpl.
      pose proof (aligned_mantissas_ordered mx my ex ey Hvx Hvy Hlt). lia.
Qed.

Lemma add_nonneg (x y : float) :
  (0 <=? x)%float = true -> (0 <=? y)%float = true ->
  (0 <=? x + y)%float = true.
Proof.
  rewrite !leb_zero_nonneg, FloatAxioms.add_spec. apply SFadd_nonneg.
Qed.

Lemma sub_nonneg (x y : float) :
  (0 <=? x)%float = true -> is_finite y = true ->
  (x <? y)%float = false ->
  (0 <=? x - y)%float = true.
Proof.
  rewrite !leb_zero_nonneg, FloatAxioms.sub_spec, FloatAxioms.ltb_spec.
  intros Hx Hy%is_finite_sf_finite Hlt.
  by apply SFsub_nonneg; try apply Prim2SF_valid.
Qed.

(** An accepted supply quantity that is a number is positive. *)
Lemma not_leb_zero_nonneg (y : float) :
  is_finite y = true -> (y <=? 0)%float = false -> (0 <=? y)%float = true.
Proof.
  rewrite !FloatAxioms.leb_spec. intros Hy%is_finite_sf_finite.
  change (Prim2SF 0) with (S754_zero false).
  unfold SFleb, SFcompare.
  by destruct (Prim2SF y) as [s | [] | | [] m e].
Qed.

Lemma exec_stock_nonneg (c : Command) (st st' : SystemState) :
  well_formed st ->
  exec c st = Ok st' ->
  (forall m, m ∈ move_of c st -> is_finite (move_quantity m) = true) ->
  stock_nonneg st -> stock_nonneg st'.
Proof using Platform.
  intros Hwf Hexec Hfin Hst f.
  destruct (exec_stock c st st' f Hwf Hexec) as [-> _].
  specialize (Hst f).
  destruct c as [inp | g amt | pid s | | |]; simpl in *; try done.
  - destruct (process_sale inp st) as [tx st1 | why st1 | |] eqn:Hsale;
      try done.
    destruct (process_sale_Sold inp st st1 tx Hwf Hsale)
      as (n & v & pay & _ & _ & _ & _ & _ & Hstock & _).
    simpl. destruct (FuelType_eqb f (tx_fuel_type tx)) eqn:Hf; [| done].
    apply FuelType_eqb_eq in Hf as ->.
    apply sub_nonneg; [done | | done].
    apply (Hfin (Dispensed (tx_fuel_type tx) (quantity tx))).
    by apply list_elem_of_singleton.
  - destruct (add_supply_cases g amt st)
      as [[Hno _] | (ft & a & Hg & -> & Ha & Hadd)].
    + destruct (g ≫= fuel_of_Z) as [ft|]; [| done].
      destruct amt as [a|]; [| done].
      by destruct (add_supply g (Some a) st) as [[] ?].
    + rewrite Hg, Hadd in *. simpl.
      destruct (FuelType_eqb f ft) eqn:Hf; [| done].
      apply add_nonneg; [done|].
      apply not_leb_zero_nonneg; [| done].
      apply (Hfin (Supplied ft a)). by apply list_elem_of_singleton.
Qed.

Lemma run_stock_nonneg (cs : list Command) (st st' : SystemState)
    (ms : list StockMove) :
  well_formed st ->
  run cs st = Ok (st', ms) ->
  (forall m, m ∈ ms -> is_finite (move_quantity m) = true) ->
  stock_nonneg st -> stock_nonneg st'.
Proof using Platform.
  revert st ms. induction cs as [|c cs IH]; intros st ms Hwf Hrun Hfin Hst.
  - by injection Hrun as <- <-.
  - simpl in Hrun. destruct (exec c st) as [st1| |] eqn:Hexec; try done.
    destruct (run cs st1) as [[st2 ms2]| |] eqn:Hrest; try done.
    injection Hrun as <- <-.
    apply (IH st1 ms2); [by apply (well_formed_exec c st) | done | |].
    + intros m Hm. apply Hfin, elem_of_app. by right.
    + apply (exec_stock_nonneg c st st1); [done | done | | done].
      intros m Hm. apply Hfin, elem_of_app. by left.
Qed.

(** C2, as the code has it: after any run from the initialised state the
    current stock of every fuel is its opening stock with the quantity of
    each completed sale subtracted and each supply added, in binary64
    arithmetic and in the order they happened; it is not negative as long
    as every quantity moved was a finite number; and a sale whose quantity
    exceeds the current stock stops at the stock check and returns the
    state unchanged. *)
Theorem stock_is_replayed_from_moves (heap : bool) (cs : list Command)
    (st0 st : SystemState) (ms : list StockMove) (f : FuelType) :
  initialize_system heap static_state = Some st0 ->
  run cs st0 = Ok (st, ms) ->
  let fl := fuel_at (fuels st) f in
  current_stock fl = replay_stock f (opening_stock fl) ms
  /\ ((forall m, m ∈ ms -> is_finite (move_quantity m) = true) ->
      (0 <=? current_stock fl)%float = true)
  /\ forall inp pid qty amt,
       let idx := pump_index_by_id (pumps st) pid in
       let pump := pump_at (pumps st) (Z.to_nat idx) in
       let tank := fuel_at (fuels st) (p_fuel_type pump) in
       in_pump_id inp = Some pid ->
       0 <= idx ->
       status pump = PUMP_ACTIVE ->
       in_vchoice inp ≫= vehicle_of_Z <> None ->
       read_qty_amt inp (price tank) = inr (qty, amt) ->
       (current_stock tank <? qty)%float = true ->
       process_sale inp st = Rejected InsufficientStock st.
Proof using Platform.
  intros Hinit Hrun fl.
  apply initialize_system_Some in Hinit as [-> Hheap].
  pose proof (well_formed_initial_state Hheap) as Hwf.
  destruct (run_stock cs initial_state st ms f Hwf Hrun)
    as (_ & Hcur & Hopen).
  split_and!.
  - subst fl. rewrite Hcur, Hopen. by destruct f.
  - intros Hfin.
    apply (run_stock_nonneg cs initial_state st ms Hwf Hrun Hfin).
    by intros [].
  - intros inp pid qty amt. by apply process_sale_insufficient.
Qed.

(* ------------------------------------------------------------------ *)
(** ** The fixed tables of the station *)

Lemma fuel_at_set_current_stock (st : SystemState) (g f : FuelType)
    (v : float) :
  length (fuels st) = 3%nat ->
  let fs := <[ fuel_idx g := set_current_stock v (fuel_at (fuels st) g) ]>
              (fuels st) in
  f_type (fuel_at fs f) = f_type (fuel_at (fuels st) f)
  /\ price (fuel_at fs f) = price (fuel_at (fuels st) f)
  /\ opening_stock (fuel_at fs f) = opening_stock (fuel_at (fuels st) f)
  /\ closing_stock (fuel_at fs f) = closing_stock (fuel_at (fuels st) f)
  /\ current_stock (fuel_at fs f)
     = if FuelType_eqb f g then v else current_stock (fuel_at (fuels st) f).
Proof.
  intros Hlen fs. subst fs. rewrite fuel_at_insert by done.
  destruct (FuelType_eqb f g) eqn:Hfg; [| done].
  by apply FuelType_eqb_eq in Hfg as ->.
Qed.

Lemma fixed_tables_initial_state : fixed_tables initial_state.
Proof. by intros []. Qed.

Lemma fixed_tables_exec (c : Command) (st st' : SystemState) :
  well_formed st -> exec c st = Ok st' -> fixed_tables st -> fixed_tables st'.
Proof using Platform.
  intros Hwf Hexec Htab f. pose proof (wf_fuels st Hwf) as Hlen.
  specialize (Htab f).
  destruct c as [inp | g amt | pid s | | |]; simpl in Hexec.
  - destruct (process_sale inp st) as [tx st1 | why st1 | |] eqn:Hsale;
      try done; injection Hexec as <-.
    + destruct (process_sale_Sold inp st st1 tx Hwf Hsale)
        as (n & v & pay & _ & _ & _ & _ & _ & _ & _ & -> & _).
      rewrite update_stats_fuels.
      change (fuels (stored n tx (pre_commit (tx_fuel_type tx) (quantity tx) st)))
        with (<[ fuel_idx (tx_fuel_type tx) :=
                   set_current_stock
                     (current_stock (fuel_at (fuels st) (tx_fuel_type tx))
                      - quantity tx)%float
                     (fuel_at (fuels st) (tx_fuel_type tx)) ]> (fuels st)).
      destruct (fuel_at_set_current_stock st (tx_fuel_type tx) f
                  (current_stock (fuel_at (fuels st) (tx_fuel_type tx))
                   - quantity tx)%float Hlen) as (-> & -> & -> & _).
      done.
    + by rewrite (process_sale_Rejected inp st st1 why Hsale).
  - injection Hexec as <-.
    destruct (add_supply_cases g amt st)
      as [[_ ->] | (ft & a & _ & _ & _ & ->)]; [done|]. simpl.
    by destruct (fuel_at_set_current_stock st ft f
                   (current_stock (fuel_at (fuels st) ft) + a)%float Hlen)
      as (-> & -> & -> & _).
  - injection Hexec as <-. unfold change_pump_status.
    by repeat case_match.
  - by injection Hexec as <-.
  - injection Hexec as <-. simpl.
    change (map ?g ?l) with (g <$> l). by rewrite fuel_at_fmap.
  - by injection Hexec as <-.
Qed.

Lemma reachable_fixed_tables (st : SystemState) :
  reachable st -> fixed_tables st.
Proof using Platform.
  induction 1 as [heap st Hinit | c st st' Hreach IH Hexec].
  - apply initialize_system_Some in Hinit as [-> _].
    apply fixed_tables_initial_state.
  - by apply (fixed_tables_exec c st st');
      [apply reachable_well_formed | |].
Qed.

(** The pump found for an identifier dispenses the fuel of the table. *)
Lemma pump_at_index_fuel (ps : list Pump) (id : Z) :
  map pump_id ps = [1; 2; 3; 4; 5; 6] ->
  map p_fuel_type ps
  = [FUEL_PETROL; FUEL_PETROL; FUEL_DIESEL; FUEL_DIESEL; FUEL_CNG; FUEL_CNG] ->
  0 <= pump_index_by_id ps id ->
  1 <= id <= 6
  /\ pump_index_by_id ps id = id - 1
  /\ pump_id (pump_at ps (Z.to_nat (id - 1))) = id
  /\ p_fuel_type (pump_at ps (Z.to_nat (id - 1))) = pump_fuel id.
Proof.
  intros Hids Hfuels Hidx.
  rewrite (pump_index_by_id_spec ps id Hids) in *.
  destruct (Z.leb_spec 1 id), (Z.leb_spec id 6); simpl in Hidx; try lia.
  destruct ps as [|p1 [|p2 [|p3 [|p4 [|p5 [|p6 [|p7 ps]]]]]]]; try done.
  injection Hids as H1 H2 H3 H4 H5 H6.
  injection Hfuels as F1 F2 F3 F4 F5 F6.
  assert (Hcases : id = 1 \/ id = 2 \/ id = 3 \/ id = 4 \/ id = 5 \/ id = 6)
    by lia.
  by repeat (destruct Hcases as [-> | Hcases]); [..| subst id].
Qed.

(** X1: in every state of a run [pump_index_by_id] finds pump [id] at
    index [id - 1] when [1 <= id <= 6] and returns -1 for every other
    identifier; the pump it finds carries that identifier and the fuel the
    station assigns to it (petrol for 1 and 2, diesel for 3 and 4, CNG for
    5 and 6). *)
Theorem pump_lookup_in_a_run (st : SystemState) (id : Z) :
  reachable st ->
  pump_index_by_id (pumps st) id
  = (if (1 <=? id) && (id <=? 6) then id - 1 else -1)
  /\ (1 <= id <= 6 ->
      pump_id (pump_at (pumps st) (Z.to_nat (id - 1))) = id
      /\ p_fuel_type (pump_at (pumps st) (Z.to_nat (id - 1))) = pump_fuel id).
Proof using Platform.
  intros Hwf%reachable_well_formed.
  pose proof (pump_index_by_id_spec (pumps st) id (wf_pump_ids st Hwf)) as Hidx.
  split; [done|]. intros Hid.
  destruct (pump_at_index_fuel (pumps st) id (wf_pump_ids st Hwf)
              (wf_pump_fuels st Hwf)) as (_ & _ & Hpid & Hfuel); [| done].
  rewrite Hidx.
  destruct (Z.leb_spec 1 id), (Z.leb_spec id 6); simpl; lia.
Qed.

(** X2: no operation of a run changes the type, the unit price or the
    opening stock of a fuel: in every state of a run the three fuels are
    petrol at 102.50, diesel at 88.75 and CNG at 75.00, with opening stocks
    50000, 50000 and 20000. *)
Theorem prices_and_opening_stock_are_fixed (st : SystemState) (f : FuelType) :
  reachable st ->
  f_type (fuel_at (fuels st) f) = f
  /\ price (fuel_at (fuels st) f) = unit_price f
  /\ opening_stock (fuel_at (fuels st) f) = opening_of f.
Proof using Platform.
  intros Hreach. by apply reachable_fixed_tables.
Qed.

(* ------------------------------------------------------------------ *)
(** ** The ledger over a run *)

(** The state a completed sale leaves, with the size of the growth. *)
Lemma process_sale_Sold_block (inp : SaleInput) (st st' : SystemState)
    (tx : Transaction) :
  well_formed st ->
  process_sale inp st = Sold tx st' ->
  exists n : nat,
    transactions st'
    = <[ Z.to_nat (tx_count st) := tx ]>
        (transactions st ++ replicate n zero_tx)
    /\ tx_capacity st' = tx_capacity st + Z.of_nat n
    /\ tx_count st' = tx_count st + 1
    /\ tx_count st < tx_capacity st + Z.of_nat n.
Proof using Platform.
  intros Hwf Hsale.
  destruct (process_sale_Sold inp st st' tx Hwf Hsale)
    as (n & v & pay & _ & _ & _ & _ & _ & _ & _ & Hst & Hwf' & _ & Hcount & _).
  exists n.
  destruct (update_stats_ledger tx
              (stored n tx (pre_commit (tx_fuel_type tx) (quantity tx) st)))
    as (Hblk & Hcap & _ & _).
  rewrite <- Hst in Hblk, Hcap.
  split_and!; try done.
  pose proof (wf_count st' Hwf'). simpl in Hcap. lia.
Qed.

Lemma unused_slots_sold (inp : SaleInput) (st st' : SystemState)
    (tx : Transaction) :
  well_formed st ->
  process_sale inp st = Sold tx st' ->
  Forall (eq zero_tx) (unused_slots st) ->
  Forall (eq zero_tx) (unused_slots st').
Proof using Platform.
  intros Hwf Hsale Hzero.
  destruct (process_sale_Sold_block inp st st' tx Hwf Hsale)
    as (n & Hblk & _ & Hcount & _).
  pose proof (wf_count st Hwf) as Hc.
  unfold unused_slots in *. rewrite Hblk, Hcount.
  replace (Z.to_nat (tx_count st + 1)) with (S (Z.to_nat (tx_count st)))
    by lia.
  rewrite drop_insert_lt by lia.
  apply Forall_lookup. intros i t Hi.
  rewrite lookup_drop in Hi.
  apply lookup_app_Some in Hi as [Hi | [_ Hi]].
  - rewrite Forall_lookup in Hzero.
    apply (Hzero (S i) t). rewrite lookup_drop. rewrite <- Hi. f_equal. lia.
  - by apply lookup_replicate_1 in Hi as [-> _].
Qed.

Lemma same_books_unused_slots (st st' : SystemState) :
  same_books st st' -> unused_slots st' = unused_slots st.
Proof. intros []. unfold unused_slots. congruence. Qed.

Lemma reachable_unused_slots (st : SystemState) :
  reachable st -> Forall (eq zero_tx) (unused_slots st).
Proof using Platform.
  induction 1 as [heap st Hinit | c st st' Hreach IH Hexec].
  - apply initialize_system_Some in Hinit as [-> _].
    apply Forall_lookup. intros i t Hi.
    change (unused_slots initial_state) with (replicate 50 zero_tx) in Hi.
    by apply lookup_replicate_1 in Hi as [-> _].
  - pose proof (reachable_well_formed st Hreach) as Hwf.
    destruct (exec_cases c st st' Hwf Hexec)
      as [(inp & tx & -> & Hsale) | Hsame].
    + by apply (unused_slots_sold inp st st' tx).
    + by rewrite (same_books_unused_slots st st').
Qed.

(** X3: in every state of a run the slots of the ledger block after the
    last record, from [tx_count] up to [tx_capacity], all hold the all-zero
    record that [calloc] and the [memset] of [ensure_tx_capacity] wrote. *)
Theorem unused_slots_are_zeroed (st : SystemState) :
  reachable st ->
  unused_slots st
  = replicate (Z.to_nat (tx_capacity st - tx_count st)) zero_tx.
Proof using Platform.
  intros Hreach. pose proof (reachable_well_formed st Hreach) as Hwf.
  symmetry. apply replicate_as_Forall. split.
  - unfold unused_slots. rewrite length_drop.
    pose proof (wf_block st Hwf). pose proof (wf_count st Hwf). lia.
  - by apply reachable_unused_slots.
Qed.

(** What one menu choice does to the ledger. *)
Lemma exec_ledger (c : Command) (st st' : SystemState) :
  well_formed st ->
  exec c st = Ok st' ->
  exists txs,
    ledger st' = ledger st ++ txs
    /\ map sale_move txs = sales_among (move_of c st)
    /\ tx_count st' = tx_count st + Z.of_nat (length txs)
    /\ tx_capacity st <= tx_capacity st'.
Proof using Platform.
  intros Hwf Hexec.
  destruct (exec_cases c st st' Hwf Hexec)
    as [(inp & tx & -> & Hsale) | Hsame].
  - destruct (process_sale_Sold inp st st' tx Hwf Hsale)
      as (n & v & pay & _ & _ & _ & _ & _ & _ & _ & _ & _ & Hledger & Hcount & _).
    destruct (process_sale_Sold_block inp st st' tx Hwf Hsale)
      as (k & _ & Hcap & _).
    exists [tx]. simpl. rewrite Hsale. split_and!; try done; lia.
  - exists []. rewrite app_nil_r.
    split_and!.
    + by apply same_books_ledger.
    + destruct c as [inp | g amt | pid s | | |]; simpl in *; try done.
      * destruct (process_sale inp st) as [tx st1 | | |] eqn:Hsale; try done.
        exfalso. injection Hexec as <-.
        destruct (process_sale_Sold inp st st1 tx Hwf Hsale)
          as (n & v & pay & _ & _ & _ & _ & _ & _ & _ & _ & _ & _ & Hcount & _).
        rewrite (same_tx_count st st1 Hsame) in Hcount. lia.
      * by repeat case_match.
    + rewrite (same_tx_count st st' Hsame). simpl. lia.
    + rewrite (same_tx_capacity st st' Hsame). lia.
Qed.

Lemma sales_among_app (ms ms' : list StockMove) :
  sales_among (ms ++ ms') = sales_among ms ++ sales_among ms'.
Proof. unfold sales_among. apply List.filter_app. Qed.

(** X4: the ledger is append-only.  Over any run of menu choices the
    records already in the ledger stay where they are with their content;
    the records added are exactly the completed sales of the run, one per
    sale and in their order; [tx_count] grows by their number and
    [tx_capacity] never shrinks. *)
Theorem ledger_is_append_only (cs : list Command) (st st' : SystemState)
    (ms : list StockMove) :
  reachable st ->
  run cs st = Ok (st', ms) ->
  exists txs,
    ledger st' = ledger st ++ txs
    /\ map sale_move txs = sales_among ms
    /\ tx_count st' = tx_count st + Z.of_nat (length txs)
    /\ tx_capacity st <= tx_capacity st'.
Proof using Platform.
  intros Hwf%reachable_well_formed. revert st ms Hwf.
  induction cs as [|c cs IH]; intros st ms Hwf Hrun.
  - injection Hrun as <- <-. exists []. rewrite app_nil_r. simpl.
    split_and!; try done; lia.
  - simpl in Hrun. destruct (exec c st) as [st1| |] eqn:Hexec; try done.
    destruct (run cs st1) as [[st2 ms2]| |] eqn:Hrest; try done.
    injection Hrun as <- <-.
    destruct (exec_ledger c st st1 Hwf Hexec) as (t1 & Hl1 & Hs1 & Hc1 & Hk1).
    destruct (IH st1 ms2 (well_formed_exec c st st1 Hwf Hexec) Hrest)
      as (t2 & Hl2 & Hs2 & Hc2 & Hk2).
    exists (t1 ++ t2).
    rewrite Hl2, Hl1, app_assoc, map_app, sales_among_app, length_app.
    split_and!; try done; [congruence | lia | lia].
Qed.

(** X5: in every state of a run the ledger block has room for at least
    the 50 records it started with. *)
Theorem capacity_is_at_least_initial (st : SystemState) :
  reachable st -> INITIAL_TX_CAPACITY <= tx_capacity st.
Proof using Platform.
  induction 1 as [heap st Hinit | c st st' Hreach IH Hexec].
  - by apply initialize_system_Some in Hinit as [-> _].
  - destruct (exec_ledger c st st' (reachable_well_formed st Hreach) Hexec)
      as (_ & _ & _ & _ & Hcap). lia.
Qed.

(* ------------------------------------------------------------------ *)
(** ** What the ledger records say *)

Lemma read_qty_amt_cases (inp : SaleInput) (p q a : float) :
  read_qty_amt inp p = inr (q, a) ->
  (a = (q * p)%float /\ (q <=? 0)%float = false)
  \/ (q = (a / p)%float /\ (a <=? 0)%float = false).
Proof.
  unfold read_qty_amt. intros Hread.
  destruct (in_mode inp) as [m|]; [| done].
  destruct (m =? 0).
  - destruct (in_value inp) as [v|]; [| done].
    destruct (v <=? 0)%float eqn:Hv; [done|].
    injection Hread as <- <-. by left.
  - destruct (m =? 1); [| done].
    destruct (in_value inp) as [v|]; [| done].
    destruct (v <=? 0)%float eqn:Hv; [done|].
    injection Hread as <- <-. by right.
Qed.

Lemma process_sale_Sold_consistent (inp : SaleInput) (st st' : SystemState)
    (tx : Transaction) :
  well_formed st -> fixed_tables st ->
  process_sale inp st = Sold tx st' ->
  record_consistent tx.
Proof using Platform.
  intros Hwf Htab Hsale.
  destruct (process_sale_Sold inp st st' tx Hwf Hsale)
    as (n & v & pay & _ & Hidx & _ & Hfuel & Hread & _).
  destruct (pump_at_index_fuel (pumps st) (tx_pump_id tx)
              (wf_pump_ids st Hwf) (wf_pump_fuels st Hwf) Hidx)
    as (Hid & Heq & _ & Hpf).
  rewrite Heq in Hfuel. rewrite Hpf in Hfuel.
  destruct (Htab (tx_fuel_type tx)) as (_ & Hprice & _).
  rewrite Hprice in Hread.
  split_and!; try done; try lia.
  by apply (read_qty_amt_cases inp).
Qed.

(** X6: every record in the ledger of a run was dispensed from one of the
    six pumps, carries the fuel assigned to that pump, and pairs its
    quantity and amount through the unit price of that fuel: either the
    amount is quantity times price with a quantity that is not [<= 0]
    (quantity mode), or the quantity is amount divided by price with an
    amount that is not [<= 0] (amount mode). *)
Theorem ledger_records_are_consistent (st : SystemState) (tx : Transaction) :
  reachable st -> tx ∈ ledger st -> record_consistent tx.
Proof using Platform.
  intros Hreach. revert tx.
  induction Hreach as [heap st Hinit | c st st' Hreach IH Hexec];
    intros tx Hin.
  - apply initialize_system_Some in Hinit as [-> _].
    by apply elem_of_nil in Hin.
  - pose proof (reachable_well_formed st Hreach) as Hwf.
    destruct (exec_cases c st st' Hwf Hexec)
      as [(inp & tx' & -> & Hsale) | Hsame].
    + destruct (process_sale_Sold inp st st' tx' Hwf Hsale)
        as (n & v & pay & _ & _ & _ & _ & _ & _ & _ & _ & _ & Hledger & _).
      rewrite Hledger in Hin.
      apply elem_of_app in Hin as [Hin | ->%list_elem_of_singleton];
        [by apply IH|].
      by apply (process_sale_Sold_consistent inp st st');
        [| apply reachable_fixed_tables |].
    + apply IH. by rewrite <- (same_books_ledger st st').
Qed.

(* ------------------------------------------------------------------ *)
(** ** The hour-wise and payment-wise accumulators *)

Lemma fget_replicate_zero (n h : nat) : fget (replicate n 0%float) h = 0%float.
Proof.
  unfold fget. destruct (replicate n 0%float !! h) as [x|] eqn:Hx; [| done].
  by apply lookup_replicate_1 in Hx as [-> _].
Qed.

Lemma hours_match_sold (inp : SaleInput) (st st' : SystemState)
    (tx : Transaction) :
  well_formed st ->
  process_sale inp st = Sold tx st' ->
  hours_match st -> hours_match st'.
Proof using Platform localtime_range.
  intros Hwf Hsale Hold h.
  destruct (process_sale_Sold inp st st' tx Hwf Hsale)
    as (n & v & pay & _ & _ & _ & _ & _ & _ & _ & -> & _ & Hledger & _).
  set (st1 := stored n tx (pre_commit (tx_fuel_type tx) (quantity tx) st))
    in *.
  rewrite Hledger, quantities_where_snoc, amounts_where_snoc.
  destruct (Hold h) as [Hq Ha].
  unfold in_hour at 2 4.
  destruct (localtime (timestamp tx)) as [lt|] eqn:Hlt.
  - destruct (update_stats_hours_Some tx st1 lt Hlt) as [-> ->].
    destruct (localtime_range _ _ Hlt) as (_ & _ & Hhour).
    change (hour_quantity st1) with (hour_quantity st).
    change (hour_amount st1) with (hour_amount st).
    split; apply bucket_sum_snoc; try done.
    + rewrite (wf_hour_quantity st Hwf). lia.
    + rewrite Z.eqb_eq. lia.
    + rewrite (wf_hour_amount st Hwf). lia.
    + rewrite Z.eqb_eq. lia.
  - destruct (update_stats_hours_None tx st1 Hlt) as [-> ->].
    change (hour_quantity st1) with (hour_quantity st).
    change (hour_amount st1) with (hour_amount st).
    by rewrite !app_nil_r.
Qed.

Lemma reachable_hours_match (st : SystemState) :
  reachable st -> hours_match st.
Proof using Platform localtime_range.
  induction 1 as [heap st Hinit | c st st' Hreach IH Hexec].
  - apply initialize_system_Some in Hinit as [-> _].
    intros h.
    change (ledger initial_state) with (@nil Transaction).
    change (hour_quantity initial_state) with (replicate 24 0%float).
    change (hour_amount initial_state) with (replicate 24 0%float).
    by rewrite fget_replicate_zero.
  - pose proof (reachable_well_formed st Hreach) as Hwf.
    destruct (exec_cases c st st' Hwf Hexec)
      as [(inp & tx & -> & Hsale) | Hsame].
    + by apply (hours_match_sold inp st st' tx).
    + intros h. rewrite (same_books_ledger st st' Hsame).
      rewrite (same_hour_quantity st st' Hsame),
              (same_hour_amount st st' Hsame).
      apply IH.
Qed.

(** X7: in every state of a run each hour-of-day bucket holds the
    in-order binary64 sum of the quantities (amounts) of the ledger records
    whose timestamp falls in that local hour; records whose local time
    cannot be derived are in no bucket. *)
Theorem hour_buckets_are_ledger_sums (st : SystemState) (h : nat) :
  reachable st ->
  fget (hour_quantity st) h
  = fsum (quantities_where (in_hour h) (ledger st))
  /\ fget (hour_amount st) h = fsum (amounts_where (in_hour h) (ledger st)).
Proof using Platform localtime_range.
  intros Hreach. by apply reachable_hours_match.
Qed.

(** X8: in every state of a run each payment-mode bucket holds the
    in-order binary64 sum of the amounts of the ledger records paid in that
    mode. *)
Theorem payment_buckets_are_ledger_sums (st : SystemState) (m : PaymentMode) :
  reachable st ->
  fget (payment_mode_amount st) (pay_idx m)
  = fsum (amounts_where (paid_by m) (ledger st)).
Proof using Platform.
  intros Hreach.
  by destruct (reachable_accumulators_match st Hreach) as [_ _ _ _ Hm].
Qed.

Lemma show_hour_wise_analysis_rows (st : SystemState) :
  show_hour_wise_analysis st = omap (hour_row st) (seq 0 24).
Proof. exact (eq_refl (omap (hour_row st) (seq 0 24))). Qed.

(** X9: every row [show_hour_wise_analysis] prints is for an hour of
    0..23, shows the two buckets of that hour, and the ledger has a record
    made in that hour: an hour without a sale is never listed. *)
Theorem hour_listing_shows_only_hours_with_sales (st : SystemState)
    (h : nat) (q a : float) :
  reachable st ->
  (h, q, a) ∈ show_hour_wise_analysis st ->
  (h < 24)%nat
  /\ q = fget (hour_quantity st) h /\ a = fget (hour_amount st) h
  /\ exists tx, tx ∈ ledger st /\ in_hour h tx = true.
Proof using Platform localtime_range.
  intros Hreach Hin. rewrite show_hour_wise_analysis_rows in Hin.
  apply list_elem_of_omap in Hin as (h' & Hh' & Hrow).
  apply elem_of_seq in Hh'. unfold hour_row in Hrow. cbv zeta in Hrow.
  destruct ((0 <? fget (hour_quantity st) h')%float
            || (0 <? fget (hour_amount st) h')%float) eqn:Hpos;
    [| discriminate Hrow].
  injection Hrow as <- <- <-.
  split_and!; try done; [lia|].
  destruct (reachable_hours_match st Hreach h') as [Hq Ha].
  destruct (List.filter (in_hour h') (ledger st)) as [|tx l] eqn:Hfilter.
  - exfalso. unfold quantities_where, amounts_where in Hq, Ha.
    rewrite Hfilter in Hq, Ha. rewrite Hq, Ha in Hpos. discriminate Hpos.
  - exists tx.
    assert (Hin : List.In tx (List.filter (in_hour h') (ledger st)))
      by (rewrite Hfilter; by left).
    apply List.filter_In in Hin as [Hin Hhour].
    split; [by apply list_elem_of_In | done].
Qed.

(* ------------------------------------------------------------------ *)
(** ** Supply, pump status and the daily report *)

Lemma fuel_of_Z_None (z : Z) : fuel_of_Z z = None <-> z < 0 \/ 2 < z.
Proof.
  unfold fuel_of_Z.
  destruct (Z.eqb_spec z 0), (Z.eqb_spec z 1), (Z.eqb_spec z 2);
    split; intros H; try done; try lia; exfalso; lia.
Qed.

Lemma status_of_Z_cases (z : Z) (s : PumpStatus) :
  status_of_Z z = Some s ->
  (z = 0 /\ s = PUMP_ACTIVE) \/ (z = 1 /\ s = PUMP_INACTIVE)
  \/ (z = 2 /\ s = PUMP_MAINT).
Proof.
  unfold status_of_Z.
  destruct (Z.eqb_spec z 0), (Z.eqb_spec z 1), (Z.eqb_spec z 2);
    intros [= <-]; try (exfalso; lia);
    [by left | by right; left | by right; right].
Qed.

(** X10: a supply that is added raises the current stock of the chosen
    fuel by the quantity typed and touches nothing else: not the other
    stocks, no closing stock, no pump, no book. *)
Theorem add_supply_adds_to_one_stock (f : option Z) (amt : option float)
    (st st' : SystemState) :
  well_formed st ->
  add_supply f amt st = (true, st') ->
  exists ft a,
    f ≫= fuel_of_Z = Some ft /\ amt = Some a /\ (a <=? 0)%float = false
    /\ current_stock (fuel_at (fuels st') ft)
       = (current_stock (fuel_at (fuels st) ft) + a)%float
    /\ (forall g, g <> ft ->
                  current_stock (fuel_at (fuels st') g)
                  = current_stock (fuel_at (fuels st) g))
    /\ (forall g, closing_stock (fuel_at (fuels st') g)
                  = closing_stock (fuel_at (fuels st) g))
    /\ pumps st' = pumps st
    /\ same_books st st'.
Proof.
  intros Hwf Hadd. pose proof (wf_fuels st Hwf) as Hlen.
  destruct (add_supply_cases f amt st)
    as [[Hfst _] | (ft & a & Hf & Hamt & Hpos & Heq)].
  { by rewrite Hadd in Hfst. }
  rewrite Heq in Hadd. injection Hadd as <-.
  exists ft, a. split_and!; try done.
  - destruct (fuel_at_set_current_stock st ft ft
                (current_stock (fuel_at (fuels st) ft) + a)%float Hlen)
      as (_ & _ & _ & _ & Hcur).
    simpl. rewrite Hcur. by destruct ft.
  - intros g Hne.
    destruct (fuel_at_set_current_stock st ft g
                (current_stock (fuel_at (fuels st) ft) + a)%float Hlen)
      as (_ & _ & _ & _ & Hcur).
    simpl. rewrite Hcur.
    destruct (FuelType_eqb g ft) eqn:Heqb; [| done].
    by apply FuelType_eqb_eq in Heqb.
  - intros g.
    destruct (fuel_at_set_current_stock st ft g
                (current_stock (fuel_at (fuels st) ft) + a)%float Hlen)
      as (_ & _ & _ & Hclose & _).
    simpl. by rewrite Hclose.
Qed.

(** X11: [add_supply] refuses exactly when the fuel number is missing or
    outside 0..2, or the quantity is missing or [<= 0]; a refused supply
    leaves the state as it was. *)
Theorem add_supply_refusals (f : option Z) (amt : option float)
    (st : SystemState) :
  (fst (add_supply f amt st) = false
   <-> f = None \/ (exists z, f = Some z /\ (z < 0 \/ 2 < z))
       \/ amt = None \/ (exists a, amt = Some a /\ (a <=? 0)%float = true))
  /\ (fst (add_supply f amt st) = false -> snd (add_supply f amt st) = st).
Proof.
  split.
  - unfold add_supply. destruct f as [z|]; simpl; [| by split; [left|]].
    destruct (fuel_of_Z z) as [ft|] eqn:Hz.
    + assert (Hin : ~ (z < 0 \/ 2 < z))
        by (rewrite <- fuel_of_Z_None; congruence).
      destruct amt as [a|]; simpl.
      * destruct (a <=? 0)%float eqn:Ha; simpl.
        -- split; [| done]. intros _. do 3 right. by exists a.
        -- split; [done|].
           intros [? | [(? & [= <-] & ?) | [? | (? & [= <-] & ?)]]];
             try done. congruence.
      * split; [| done]. intros _. right. right. by left.
    + apply fuel_of_Z_None in Hz. split; [| done].
      intros _. right. left. by exists z.
  - destruct (add_supply_cases f amt st)
      as [[_ Hsnd] | (ft & a & _ & _ & _ & Heq)]; [done|].
    by rewrite Heq.
Qed.

(** The one assignment of an accepted status change. *)
Lemma change_pump_status_accepted (pid s : option Z) (st st' : SystemState) :
  well_formed st ->
  change_pump_status pid s st = (true, st') ->
  exists id new,
    pid = Some id /\ 1 <= id <= 6 /\ s ≫= status_of_Z = Some new
    /\ st' = set_pumps
               (<[ Z.to_nat (id - 1) :=
                     set_status new (pump_at (pumps st) (Z.to_nat (id - 1))) ]>
                  (pumps st)) st.
Proof.
  intros Hwf Hch. unfold change_pump_status in Hch.
  destruct pid as [id|]; [| done].
  pose proof (pump_index_by_id_spec (pumps st) id (wf_pump_ids st Hwf)) as Hidx.
  destruct (Z.ltb_spec (pump_index_by_id (pumps st) id) 0) as [| Hge];
    [done|].
  destruct (s ≫= status_of_Z) as [new|] eqn:Hs; [| done].
  injection Hch as <-.
  assert (Hid : 1 <= id <= 6).
  { rewrite Hidx in Hge.
    destruct (Z.leb_spec 1 id), (Z.leb_spec id 6); simpl in Hge; lia. }
  assert (Hi : pump_index_by_id (pumps st) id = id - 1).
  { rewrite Hidx.
    destruct (Z.leb_spec 1 id), (Z.leb_spec id 6); simpl; lia. }
  rewrite Hi. by exists id, new.
Qed.

(** X12: a status change that is accepted sets the status of the pump
    named, whatever its status was, and touches nothing else: no other
    pump's status, no pump's fuel or counters, no fuel, no book. *)
Theorem change_pump_status_sets_one_status (pid s : option Z)
    (st st' : SystemState) :
  well_formed st ->
  change_pump_status pid s st = (true, st') ->
  exists id new,
    pid = Some id /\ 1 <= id <= 6 /\ s ≫= status_of_Z = Some new
    /\ status (pump_at (pumps st') (Z.to_nat (id - 1))) = new
    /\ (forall k, k <> Z.to_nat (id - 1) ->
                  pump_at (pumps st') k = pump_at (pumps st) k)
    /\ map p_fuel_type (pumps st') = map p_fuel_type (pumps st)
    /\ fuels st' = fuels st
    /\ same_books st st'.
Proof.
  intros Hwf Hch.
  destruct (change_pump_status_accepted pid s st st' Hwf Hch)
    as (id & new & Hpid & Hid & Hs & ->).
  assert (Hlen : length (pumps st) = 6%nat)
    by (by rewrite <- (length_map pump_id), (wf_pump_ids st Hwf)).
  exists id, new. set (i := Z.to_nat (id - 1)).
  assert (Hlt : (i < length (pumps st))%nat) by lia.
  destruct (lookup_lt_is_Some_2 (pumps st) i Hlt) as [p Hp].
  assert (Hat : pump_at (pumps st) i = p) by (unfold pump_at; by rewrite Hp).
  rewrite Hat.
  split_and!; try done; try lia.
  - simpl. unfold pump_at. by rewrite list_lookup_insert_eq.
  - intros k Hk. simpl. unfold pump_at.
    by rewrite list_lookup_insert_ne.
  - simpl. change (map ?g ?l) with (g <$> l).
    rewrite list_fmap_insert. simpl. apply list_insert_id.
    by rewrite list_lookup_fmap, Hp.
  - split; try done. simpl. change (map ?g ?l) with (g <$> l).
    rewrite list_fmap_insert. apply list_insert_id.
    by rewrite list_lookup_fmap, Hp.
Qed.

Lemma read_qty_amt_inl (inp : SaleInput) (p : float) (why : SaleError) :
  read_qty_amt inp p = inl why ->
  why = InvalidMode \/ why = InvalidQuantity \/ why = InvalidAmount.
Proof.
  unfold read_qty_amt. intros Hread.
  repeat case_match; try done; injection Hread as <-; auto.
Qed.

(** X13: once a pump is set to Inactive or Maintenance, an attempt to sell
    on it is rejected with "Selected pump is not active", whatever else is
    typed, and leaves the state unchanged; once it is set to Active, no
    attempt on it is rejected for that reason. *)
Theorem stopped_pump_sells_nothing (id : Z) (s : option Z)
    (st st' : SystemState) (inp : SaleInput) :
  well_formed st ->
  change_pump_status (Some id) s st = (true, st') ->
  in_pump_id inp = Some id ->
  (process_sale inp st' = Rejected PumpNotActive st' <-> s <> Some 0)
  /\ (forall st'', process_sale inp st' = Rejected PumpNotActive st'' ->
                   st'' = st').
Proof using Platform.
  intros Hwf Hch Hinp.
  assert (Hwf' : well_formed st')
    by (apply (well_formed_exec (CmdStatus (Some id) s) st); [done|];
        change (Ok (snd (change_pump_status (Some id) s st)) = Ok st');
        by rewrite Hch).
  destruct (change_pump_status_accepted (Some id) s st st' Hwf Hch)
    as (id' & new & [= <-] & Hid & Hs & Hst').
  assert (Hnew : status (pump_at (pumps st') (Z.to_nat (id - 1))) = new).
  { assert (Hlen : length (pumps st) = 6%nat)
      by (by rewrite <- (length_map pump_id), (wf_pump_ids st Hwf)).
    rewrite Hst'. simpl. unfold pump_at at 1.
    rewrite list_lookup_insert_eq by lia. done. }
  pose proof (pump_index_by_id_spec (pumps st') id (wf_pump_ids st' Hwf'))
    as Hidx.
  assert (Hi : pump_index_by_id (pumps st') id = id - 1).
  { rewrite Hidx.
    destruct (Z.leb_spec 1 id), (Z.leb_spec id 6); simpl; lia. }
  split.
  - unfold process_sale. rewrite Hinp, Hi. cbv zeta.
    destruct (Z.ltb_spec (id - 1) 0) as [| _]; [lia|].
    rewrite Hnew.
    destruct s as [z|]; [| done]. simpl in Hs.
    apply status_of_Z_cases in Hs as [[-> ->] | [[-> ->] | [-> ->]]]; simpl.
    + split; [| done]. intros Hrej. exfalso.
      repeat case_match; try done;
        first [ by apply commit_sale_not_Rejected in Hrej
              | injection Hrej as ->;
                by destruct (read_qty_amt_inl _ _ _ ltac:(eassumption))
                  as [|[|]] ].
    + done.
    + done.
  - intros st'' Hrej.
    by apply (process_sale_Rejected inp st' st'' PumpNotActive).
Qed.

(* ------------------------------------------------------------------ *)
(** ** The daily report *)


(** X15: in every state of a run, whatever sales, supplies, status
    changes and reports led to it, the two totals of the daily report are
    the sums, over petrol, diesel and CNG in that order, of the in-order
    sums of the quantities and amounts of that fuel's ledger records. *)
Theorem daily_report_totals_are_ledger_sums (st : SystemState) :
  reachable st ->
  fst (generate_daily_report st)
  = (fsum (map (fun f => fsum (quantities_where (on_fuel f) (ledger st)))
             [FUEL_PETROL; FUEL_DIESEL; FUEL_CNG]),
     fsum (map (fun f => fsum (amounts_where (on_fuel f) (ledger st)))
             [FUEL_PETROL; FUEL_DIESEL; FUEL_CNG])).
Proof using Platform.
  intros Hreach.
  destruct (reachable_accumulators_match st Hreach) as [Hfa Hfq _ _ _].
  unfold generate_daily_report, report_totals. simpl.
  by rewrite <- (Hfq FUEL_PETROL), <- (Hfq FUEL_DIESEL), <- (Hfq FUEL_CNG),
    <- (Hfa FUEL_PETROL), <- (Hfa FUEL_DIESEL), <- (Hfa FUEL_CNG).
Qed.

(** X16: in every state of a run, whatever commands led to it, each fuel's
    and each pump's accumulators hold the in-order sums of the quantities
    and amounts of their own ledger records. *)
Theorem books_match_in_every_state (st : SystemState) :
  reachable st ->
  (forall f,
     fget (fuel_wise_quantity st) (fuel_idx f)
     = fsum (quantities_where (on_fuel f) (ledger st))
     /\ fget (fuel_wise_amount st) (fuel_idx f)
        = fsum (amounts_where (on_fuel f) (ledger st)))
  /\ (forall i, (i < 6)%nat ->
        let p := pump_at (pumps st) i in
        pump_id p = Z.of_nat i + 1
        /\ total_quantity p
           = fsum (quantities_where (on_pump (pump_id p)) (ledger st))
        /\ total_amount p
           = fsum (amounts_where (on_pump (pump_id p)) (ledger st))).
Proof using Platform.
  intros Hreach.
  pose proof (reachable_well_formed st Hreach) as Hwf.
  destruct (reachable_accumulators_match st Hreach) as [Hfa Hfq Hpa Hpq _].
  split; [by intros f|].
  intros i Hi p.
  assert (Hlen : length (pumps st) = 6%nat)
    by (by rewrite <- (length_map pump_id), (wf_pump_ids st Hwf)).
  destruct (lookup_lt_is_Some_2 (pumps st) i ltac:(lia)) as [pi Hpi].
  assert (Hat : p = pi) by (subst p; unfold pump_at; by rewrite Hpi).
  rewrite Hat.
  assert (Hin : pi ∈ pumps st) by (by eapply list_elem_of_lookup_2).
  split_and!; [| by apply Hpq | by apply Hpa].
  assert (Hid : (pump_id <$> pumps st) !! i = Some (pump_id pi))
    by (by rewrite list_lookup_fmap, Hpi).
  change (pump_id <$> pumps st) with (map pump_id (pumps st)) in Hid.
  rewrite (wf_pump_ids st Hwf) in Hid.
  do 6 (destruct i as [|i]; [by injection Hid as <- |]). lia.
Qed.

(* ------------------------------------------------------------------ *)
(** ** Transaction counts *)

Lemma wrap_int_succ (c : Z) : wrap_int (wrap_int c + 1) = wrap_int (c + 1).
Proof.
  unfold wrap_int.
  replace ((c + 2 ^ 31) mod 2 ^ 32 - 2 ^ 31 + 1 + 2 ^ 31)
    with ((c + 2 ^ 31) mod 2 ^ 32 + 1) by lia.
  rewrite Zplus_mod_idemp_l. f_equal. f_equal. lia.
Qed.

Lemma wrap_int_small (c : Z) : - 2 ^ 31 <= c < 2 ^ 31 -> wrap_int c = c.
Proof. intros Hc. unfold wrap_int. rewrite Z.mod_small; lia. Qed.

Lemma counts_match_initial_state : counts_match initial_state.
Proof.
  intros p Hp. simpl in Hp.
  repeat (apply elem_of_cons in Hp as [-> | Hp]; [done|]).
  by apply elem_of_nil in Hp.
Qed.

Lemma counts_match_same_books (st st' : SystemState) :
  same_books st st' -> counts_match st -> counts_match st'.
Proof.
  intros Hsame Hcount p Hp.
  pose proof (same_books_ledger st st' Hsame) as Hledger.
  assert (Hin : pump_totals p ∈ map pump_totals (pumps st'))
    by (by apply list_elem_of_fmap_2).
  rewrite (same_pump_totals st st' Hsame) in Hin.
  apply list_elem_of_fmap in Hin as (p0 & Heq & Hp0).
  injection Heq as -> -> _ _.
  unfold sales_on_pump. rewrite Hledger. by apply Hcount.
Qed.

Lemma counts_match_sold (inp : SaleInput) (st st' : SystemState)
    (tx : Transaction) :
  well_formed st ->
  process_sale inp st = Sold tx st' ->
  counts_match st -> counts_match st'.
Proof using Platform.
  intros Hwf Hsale Hcount.
  destruct (process_sale_Sold inp st st' tx Hwf Hsale)
    as (n & v & pay & _ & Hidx & _ & _ & _ & _ & _ & -> & _ & Hledger & _).
  set (st1 := stored n tx (pre_commit (tx_fuel_type tx) (quantity tx) st))
    in *.
  pose proof (update_stats_pumps tx st1) as Hp.
  destruct (update_pump_stats_found tx st1 (wf_pump_ids st Hwf) Hidx)
    as (Hi & Hid & Hpumps).
  rewrite Hpumps in Hp. clear Hpumps.
  change (pumps st1) with (pumps st) in *.
  set (i := Z.to_nat (pump_index_by_id (pumps st) (tx_pump_id tx))) in *.
  assert (Hlen : length (pumps st) = 6%nat)
    by (by rewrite <- (length_map pump_id), (wf_pump_ids st Hwf)).
  destruct (lookup_lt_is_Some_2 (pumps st) i ltac:(lia)) as [pi Hpi].
  assert (Hat : pump_at (pumps st) i = pi) by (unfold pump_at; by rewrite Hpi).
  rewrite Hat in *.
  assert (Hother : forall j p, i <> j -> pumps st !! j = Some p ->
                               on_pump (pump_id p) tx = false).
  { intros j p Hij Hj. unfold on_pump.
    destruct (Z.eqb_spec (tx_pump_id tx) (pump_id p)) as [Heq|]; [| done].
    exfalso. apply Hij.
    assert (Hnd : NoDup (map pump_id (pumps st)))
      by (rewrite (wf_pump_ids st Hwf); by compute_done).
    apply (NoDup_lookup _ i j (pump_id p) Hnd).
    - change (map pump_id (pumps st)) with (pump_id <$> pumps st).
      rewrite list_lookup_fmap, Hpi. simpl. congruence.
    - change (map pump_id (pumps st)) with (pump_id <$> pumps st).
      by rewrite list_lookup_fmap, Hj. }
  assert (Hon : on_pump (pump_id pi) tx = true)
    by (unfold on_pump; rewrite Hid; apply Z.eqb_refl).
  intros p Hin. rewrite Hp in Hin. unfold sales_on_pump. rewrite Hledger.
  rewrite List.filter_app, length_app. simpl.
  apply list_elem_of_lookup in Hin as [j Hj].
  apply list_lookup_insert_Some in Hj as [(<- & <- & _) | (Hij & Hj)].
  - simpl. rewrite Hon. simpl.
    rewrite (Hcount pi) by (by eapply list_elem_of_lookup_2).
    rewrite wrap_int_succ. unfold sales_on_pump. f_equal. lia.
  - rewrite (Hother j p Hij Hj). simpl. rewrite Nat.add_0_r.
    apply Hcount. by eapply list_elem_of_lookup_2.
Qed.

Lemma reachable_counts_match (st : SystemState) :
  reachable st -> counts_match st.
Proof using Platform.
  induction 1 as [heap st Hinit | c st st' Hreach IH Hexec].
  - apply initialize_system_Some in Hinit as [-> _].
    apply counts_match_initial_state.
  - pose proof (reachable_well_formed st Hreach) as Hwf.
    destruct (exec_cases c st st' Hwf Hexec)
      as [(inp & tx & -> & Hsale) | Hsame].
    + by apply (counts_match_sold inp st st' tx).
    + by apply (counts_match_same_books st st').
Qed.

(** X17: in every state of a run a pump's [transactions_count] is the
    number of ledger records made on that pump, reduced to the range of a
    32-bit [int]; it is that number itself as long as the ledger holds
    fewer than [2 ^ 31] records. *)
Theorem pump_count_is_number_of_its_records (st : SystemState) (p : Pump) :
  reachable st ->
  p ∈ pumps st ->
  transactions_count p = wrap_int (sales_on_pump (pump_id p) st)
  /\ (tx_count st < 2 ^ 31 ->
      transactions_count p = sales_on_pump (pump_id p) st).
Proof using Platform.
  intros Hreach Hp.
  pose proof (reachable_counts_match st Hreach p Hp) as Hcount.
  split; [done|]. intros Hsmall. rewrite Hcount.
  apply wrap_int_small.
  pose proof (ledger_length st (reachable_well_formed st Hreach)) as Hlen.
  pose proof (wf_count st (reachable_well_formed st Hreach)) as Hc.
  unfold sales_on_pump.
  pose proof (List.filter_length_le (on_pump (pump_id p)) (ledger st)).
  lia.
Qed.

(* ------------------------------------------------------------------ *)
(** ** How a sale attempt can end *)

(** Once the checks have passed, the attempt ends by what
    [ensure_tx_capacity] answers. *)
Lemma commit_sale_outcome (inp : SaleInput) (pid : Z) (f : FuelType)
    (vehicle : VehicleType) (qty amt : float) (pay : PaymentMode)
    (st : SystemState) :
  well_formed st ->
  let cap := tx_capacity st in
  let grows :=
    (tx_count st <? cap)
    || alloc_ok (in_heap_double inp) (cap * 2 * SIZEOF_TX)
    || alloc_ok (in_heap_fallback inp) ((cap + 50) * SIZEOF_TX) in
  if grows
  then exists tx st', commit_sale inp pid f vehicle qty amt pay st = Sold tx st'
  else commit_sale inp pid f vehicle qty amt pay st = Fatal.
Proof using Platform.
  intros Hwf cap grows.
  unfold commit_sale, generate_txn_id. cbv zeta. cbn [fst snd].
  set (tx := mkTransaction _ _ _ _ _ _ _ _).
  change (deduct_stock f qty
            (set_txn_sequence (wrap_ulong (txn_sequence st + 1)) st))
    with (pre_commit f qty st).
  pose proof (well_formed_pre_commit st f qty Hwf) as Hwf1.
  pose proof (record_transaction_result (in_heap_double inp)
                (in_heap_fallback inp) tx (pre_commit f qty st) Hwf1) as Hres.
  rewrite (ensure_tx_capacity_cases _ _ _ Hwf1) in Hres.
  change (tx_count (pre_commit f qty st)) with (tx_count st) in Hres.
  change (tx_capacity (pre_commit f qty st)) with cap in Hres.
  subst grows.
  destruct (tx_count st <? cap); simpl.
  { destruct Hres as (n & -> & _). by eexists _, _. }
  destruct (alloc_ok (in_heap_double inp) (cap * 2 * SIZEOF_TX)); simpl.
  { destruct Hres as (n & -> & _). by eexists _, _. }
  destruct (alloc_ok (in_heap_fallback inp) ((cap + 50) * SIZEOF_TX)).
  { destruct Hres as (n & -> & _). by eexists _, _. }
  by rewrite Hres.
Qed.

(** X18: a sale attempt never writes outside the ledger block; it ends
    the process only when the ledger is full and neither the doubled block
    nor the block of 50 more records can be allocated; and in that
    situation no sale completes. *)
Theorem sale_exits_only_when_the_ledger_cannot_grow (inp : SaleInput)
    (st : SystemState) :
  well_formed st ->
  let cap := tx_capacity st in
  let stuck :=
    tx_count st = cap
    /\ alloc_ok (in_heap_double inp) (cap * 2 * SIZEOF_TX) = false
    /\ alloc_ok (in_heap_fallback inp) ((cap + 50) * SIZEOF_TX) = false in
  process_sale inp st <> MemFault
  /\ (process_sale inp st = Fatal -> stuck)
  /\ (stuck -> forall tx st', process_sale inp st <> Sold tx st').
Proof using Platform.
  intros Hwf cap stuck. pose proof (wf_count st Hwf) as Hcount.
  destruct (process_sale_checks inp st)
    as [[why ->] | (pid & vehicle & qty & amt & pay & _ & _ & _ & _ & _ & _
                    & _ & ->)]; [done|].
  pose proof (commit_sale_outcome inp pid
                (p_fuel_type
                   (pump_at (pumps st)
                      (Z.to_nat (pump_index_by_id (pumps st) pid))))
                vehicle qty amt pay st Hwf) as Hout.
  cbv zeta in Hout. fold cap in Hout. subst stuck.
  destruct (Z.ltb_spec (tx_count st) cap) as [Hlt | Hge]; simpl in Hout.
  { destruct Hout as (tx & st' & ->). split_and!; try done. lia. }
  destruct (alloc_ok (in_heap_double inp) (cap * 2 * SIZEOF_TX));
    simpl in Hout.
  { destruct Hout as (tx & st' & ->). split_and!; try done.
    by intros (_ & ? & _). }
  destruct (alloc_ok (in_heap_fallback inp) ((cap + 50) * SIZEOF_TX)).
  { destruct Hout as (tx & st' & ->). split_and!; try done.
    by intros (_ & _ & ?). }
  rewrite Hout. split_and!; try done. intros _. split_and!; try done.
  fold cap in Hcount. lia.
Qed.

(* ------------------------------------------------------------------ *)
(** ** Reading a transaction identifier *)

Lemma is_digit_digit_char (d : Z) : 0 <= d < 10 -> is_digit (digit_char d) = true.
Proof.
  intros Hd. pose proof (digit_char_value d Hd) as Hval. unfold is_digit.
  cbv zeta. lia.
Qed.

Lemma digits_utoa (fuel : nat) (n : Z) :
  0 <= n -> forallb is_digit (utoa fuel n) = true.
Proof.
  revert n. induction fuel as [|fuel IH]; intros n Hn; [done|]. simpl.
  destruct (Z.ltb_spec n 10) as [Hlt | Hge].
  - simpl. rewrite is_digit_digit_char by lia. done.
  - rewrite forallb_app, IH by (apply Z.div_pos; lia). simpl.
    rewrite is_digit_digit_char; [done|].
    pose proof (Z.mod_pos_bound n 10). lia.
Qed.

Lemma digits_zero_pad (w : nat) (ds : list ascii) :
  forallb is_digit ds = true -> forallb is_digit (zero_pad w ds) = true.
Proof.
  intros Hds. unfold zero_pad. rewrite forallb_app, Hds, andb_true_r.
  induction (w - length ds)%nat as [|k IH]; [done | exact IH].
Qed.

Lemma digits_fmt_u (w : nat) (n : Z) :
  0 <= n -> forallb is_digit (fmt_u w n) = true.
Proof. intros Hn. by apply digits_zero_pad, digits_utoa. Qed.

Lemma digits_fmt_d (w : nat) (z : Z) :
  0 <= z -> forallb is_digit (fmt_d w z) = true.
Proof.
  intros Hz. unfold fmt_d. destruct (Z.ltb_spec z 0); [lia|].
  by apply digits_zero_pad, digits_utoa.
Qed.

(** A positive number does not start with the digit zero. *)
Lemma utoa_head (fuel : nat) (n : Z) :
  0 < n < 10 ^ Z.of_nat fuel ->
  exists c rest, utoa fuel n = c :: rest /\ c <> "0"%char.
Proof.
  revert n. induction fuel as [|fuel IH]; intros n Hn.
  - simpl in Hn. lia.
  - simpl. destruct (Z.ltb_spec n 10) as [Hlt | Hge].
    + exists (digit_char n), []. split; [done|].
      intros Hzero. pose proof (digit_char_value n ltac:(lia)) as Hval.
      rewrite Hzero in Hval. simpl in Hval. lia.
    + destruct (IH (n / 10)) as (c & rest & -> & Hc).
      { rewrite Nat2Z.inj_succ, Z.pow_succ_r in Hn by lia.
        split; [apply Z.div_str_pos; lia|].
        apply Z.div_lt_upper_bound; lia. }
      by exists c, (rest ++ [digit_char (n mod 10)]).
Qed.

(** [%05lu]: at least five characters, and no zero in front of more. *)
Lemma fmt_u_5_shape (n : Z) :
  0 <= n < 10 ^ 18 ->
  (5 <= length (fmt_u 5 n))%nat
  /\ ((5 < length (fmt_u 5 n))%nat -> head (fmt_u 5 n) <> Some "0"%char).
Proof.
  intros Hn. split; [apply (length_fmt_u_5 n Hn)|].
  unfold fmt_u at 1. rewrite length_zero_pad. intros Hlong.
  unfold fmt_u, zero_pad.
  replace (5 - length (decimal n))%nat with 0%nat by lia. simpl.
  destruct (Z.ltb_spec n 10) as [Hlt | Hge].
  { pose proof (utoa_length_le 20 1 n ltac:(lia) ltac:(simpl; lia)) as Hone.
    unfold decimal in Hlong. lia. }
  destruct (utoa_head 20 n) as (c & rest & Heq & Hc); [simpl; lia|].
  unfold decimal. rewrite Heq. simpl. congruence.
Qed.

Lemma txn_id_chars_split (lt : option tm) (seq : Z) :
  (forall t, lt = Some t -> tm_in_range t) ->
  exists stamp : list ascii,
    txn_id_chars lt seq = list_ascii_of_string "TXN" ++ stamp ++ fmt_u 5 seq
    /\ match lt with
       | Some _ => length stamp = 10%nat
       | None => stamp = list_ascii_of_string "000000000"
       end
    /\ forallb is_digit stamp = true.
Proof.
  intros Hrange. destruct lt as [t|].
  - destruct (Hrange t eq_refl) as (Hmon & Hday & Hhour).
    exists (fmt_u 4 (wrap_uint (tm_year t + 1900) mod 10000)
              ++ fmt_d 2 (tm_mon t + 1) ++ fmt_d 2 (tm_mday t)
              ++ fmt_d 2 (tm_hour t)).
    assert (Hyear : 0 <= wrap_uint (tm_year t + 1900) mod 10000 < 10000).
    { unfold wrap_uint.
      pose proof (Z.mod_pos_bound ((tm_year t + 1900) mod 2 ^ 32) 10000).
      lia. }
    split_and!.
    + unfold txn_id_chars. by rewrite <- !app_assoc.
    + rewrite !length_app, length_fmt_u_4, !length_fmt_d_2; lia.
    + rewrite !forallb_app, digits_fmt_u, !digits_fmt_d; (done || lia).
  - by exists (list_ascii_of_string "000000000").
Qed.

(** X19: in every state of a run the sequence counter equals the number
    of records, so an attempt that is rejected uses up no number; and the
    identifier of the record at ledger position [i] is, in full, the text
    "TXN", a stamp of ten digits (or the nine zeros written when the local
    time was not available), and the number [i + 1] in decimal digits,
    padded with zeros to five characters and never cut. *)
Theorem txn_id_reads_back_as_position (st : SystemState) (i : nat)
    (tx : Transaction) :
  reachable st ->
  ledger st !! i = Some tx ->
  txn_sequence st = tx_count st
  /\ exists stamp number : list ascii,
       list_ascii_of_string (txn_id tx)
       = list_ascii_of_string "TXN" ++ stamp ++ number
       /\ (length stamp = 10%nat \/ stamp = list_ascii_of_string "000000000")
       /\ forallb is_digit stamp = true
       /\ forallb is_digit number = true
       /\ digits_value number = Z.of_nat i + 1
       /\ (5 <= length number)%nat
       /\ ((5 < length number)%nat -> head number <> Some "0"%char).
Proof using Platform localtime_range.
  intros Hreach Hi.
  pose proof (reachable_well_formed st Hreach) as Hwf.
  destruct (reachable_ids_in_step st Hreach) as [Hseq Hids].
  split; [done|].
  destruct (Hids i tx Hi) as (lt & Hrange & Hid).
  assert (Hpos : 0 <= Z.of_nat i + 1 < 10 ^ 18).
  { pose proof (lookup_lt_Some _ _ _ Hi) as Hlt.
    rewrite (ledger_length st Hwf) in Hlt.
    pose proof (capacity_bound st Hwf). pose proof (wf_count st Hwf). lia. }
  rewrite (snprintf_txn_id_whole lt _ Hrange Hpos) in Hid.
  destruct (txn_id_chars_split lt (Z.of_nat i + 1) Hrange)
    as (stamp & Hsplit & Hstamp & Hdigits).
  destruct (fmt_u_5_shape (Z.of_nat i + 1) Hpos) as [Hlen Hhead].
  exists stamp, (fmt_u 5 (Z.of_nat i + 1)).
  rewrite Hid, list_ascii_of_string_of_list_ascii.
  split_and!; try done.
  - destruct lt; [by left | by right].
  - apply digits_fmt_u. lia.
  - apply fmt_u_value. lia.
Qed.

(* ------------------------------------------------------------------ *)
(** ** Finding a pump *)

Lemma pump_index_loop_first_match (n i : nat) (ps : list Pump) (id : Z) :
  let r := pump_index_loop n i ps id in
  (r = -1
   /\ forall j, (i <= j < i + n)%nat -> pump_id (pump_at ps j) <> id)
  \/ (Z.of_nat i <= r < Z.of_nat (i + n)
      /\ pump_id (pump_at ps (Z.to_nat r)) = id
      /\ forall j, (i <= j < Z.to_nat r)%nat -> pump_id (pump_at ps j) <> id).
Proof.
  revert i. induction n as [|n IH]; intros i; simpl.
  - left. split; [done|]. intros j Hj. lia.
  - destruct (Z.eqb_spec (pump_id (pump_at ps i)) id) as [Heq | Hne].
    + right. rewrite Nat2Z.id.
      split_and!; try done; try lia; intros j Hj; lia.
    + destruct (IH (S i)) as [[Hr Hall] | (Hr & Hat & Hall)].
      * left. split; [done|]. intros j Hj.
        destruct (decide (j = i)) as [-> | Hji]; [done|].
        apply Hall. lia.
      * right. split_and!; try done; try lia.
        intros j Hj.
        destruct (decide (j = i)) as [-> | Hji]; [done|].
        apply Hall. lia.
Qed.

(** X20: whatever the pump array holds, [pump_index_by_id] returns the
    first of the six positions whose pump carries the identifier asked
    for, and -1 exactly when none of the six does. *)
Theorem pump_index_by_id_first_match (ps : list Pump) (id : Z) :
  let r := pump_index_by_id ps id in
  (r = -1 /\ forall j, (j < 6)%nat -> pump_id (pump_at ps j) <> id)
  \/ (0 <= r < 6
      /\ pump_id (pump_at ps (Z.to_nat r)) = id
      /\ forall j, (j < Z.to_nat r)%nat -> pump_id (pump_at ps j) <> id).
Proof.
  intros r. subst r. unfold pump_index_by_id, PUMP_COUNT.
  destruct (pump_index_loop_first_match 6 0 ps id)
    as [[Hr Hall] | (Hr & Hat & Hall)].
  - left. split; [done|]. intros j Hj. apply Hall. lia.
  - right. split_and!; try done; try lia. intros j Hj. apply Hall. lia.
Qed.

(* ------------------------------------------------------------------ *)
(** ** Low-stock warnings *)

Lemma check_low_stock_alerts_rows (st : SystemState) :
  check_low_stock_alerts st = omap (low_stock_alert st) (seq 0 3).
Proof. exact (eq_refl (omap (low_stock_alert st) (seq 0 3))). Qed.

(** X21: in every state of a run [check_low_stock_alerts] warns about a
    fuel exactly when that fuel's current stock is below 5000, names that
    fuel and shows that stock. *)
Theorem low_stock_alerts_name_the_low_fuels (st : SystemState)
    (f : FuelType) (s : float) :
  reachable st ->
  (f, s) ∈ check_low_stock_alerts st
  <-> s = current_stock (fuel_at (fuels st) f)
      /\ (s <? LOW_STOCK_THRESHOLD)%float = true.
Proof using Platform.
  intros Hreach. pose proof (reachable_fixed_tables st Hreach) as Htab.
  rewrite check_low_stock_alerts_rows, list_elem_of_omap.
  assert (Hrow : forall g,
            low_stock_alert st (fuel_idx g)
            = if (current_stock (fuel_at (fuels st) g)
                  <? LOW_STOCK_THRESHOLD)%float
              then Some (g, current_stock (fuel_at (fuels st) g))
              else None).
  { intros g. unfold low_stock_alert. cbv zeta.
    change (default zero_fuel (fuels st !! fuel_idx g))
      with (fuel_at (fuels st) g).
    by destruct (Htab g) as (-> & _). }
  split.
  - intros (i & Hi & Halert). apply elem_of_seq in Hi.
    assert (Hg : exists g, i = fuel_idx g).
    { destruct i as [|[|[|i]]];
        [by exists FUEL_PETROL | by exists FUEL_DIESEL | by exists FUEL_CNG
        | lia]. }
    destruct Hg as [g ->]. rewrite Hrow in Halert.
    destruct (_ <? _)%float eqn:Hlow; [| done].
    by injection Halert as <- <-.
  - intros [-> Hlow]. exists (fuel_idx f). split.
    + apply elem_of_seq. pose proof (fuel_idx_lt f). lia.
    + by rewrite Hrow, Hlow.
Qed.

(* ------------------------------------------------------------------ *)
(** ** What each menu choice leaves alone *)

Lemma fmap_insert_same {A B : Type} (g : A -> B) (l : list A) (i : nat)
    (x y : A) :
  l !! i = Some x -> g y = g x -> g <$> <[ i := y ]> l = g <$> l.
Proof.
  intros Hx Hg. rewrite list_fmap_insert. apply list_insert_id.
  by rewrite list_lookup_fmap, Hx, Hg.
Qed.

Lemma fuel_at_lookup (fs : list Fuel) (f : FuelType) :
  length fs = 3%nat -> fs !! fuel_idx f = Some (fuel_at fs f).
Proof.
  intros Hlen. unfold fuel_at.
  destruct (lookup_lt_is_Some_2 fs (fuel_idx f)) as [fl ->]; [| done].
  pose proof (fuel_idx_lt f). lia.
Qed.

(** X22: a pump's status is changed by the status menu only, a closing
    stock by the daily report only, and a current stock by a sale or a
    supply only. *)
Theorem each_field_has_its_own_writers (c : Command) (st st' : SystemState) :
  well_formed st ->
  exec c st = Ok st' ->
  ((forall pid s, c <> CmdStatus pid s) ->
   map status (pumps st') = map status (pumps st))
  /\ (c <> CmdReport ->
      map closing_stock (fuels st') = map closing_stock (fuels st))
  /\ ((forall inp, c <> CmdSale inp) -> (forall f amt, c <> CmdSupply f amt) ->
      map current_stock (fuels st') = map current_stock (fuels st)).
Proof using Platform.
  intros Hwf Hexec. pose proof (wf_fuels st Hwf) as Hlen.
  destruct c as [inp | g amt | pid s | | |]; simpl in Hexec.
  - destruct (process_sale inp st) as [tx st1 | why st1 | |] eqn:Hsale;
      try done; injection Hexec as <-.
    + destruct (process_sale_Sold inp st st1 tx Hwf Hsale)
        as (n & v & pay & _ & _ & _ & _ & _ & _ & _ & -> & _).
      split_and!.
      * intros _. rewrite update_stats_pumps.
        by destruct (update_pump_stats_shape tx
                       (stored n tx
                          (pre_commit (tx_fuel_type tx) (quantity tx) st))
                       (wf_pump_ids st Hwf)) as (_ & _ & ->).
      * intros _. rewrite update_stats_fuels.
        change (map ?h ?l) with (h <$> l).
        by apply (fmap_insert_same closing_stock (fuels st)
                    (fuel_idx (tx_fuel_type tx))
                    (fuel_at (fuels st) (tx_fuel_type tx)));
          [apply fuel_at_lookup |].
      * intros Hno. by destruct (Hno inp).
    + rewrite (process_sale_Rejected inp st st1 why Hsale).
      by split_and!.
  - injection Hexec as <-.
    destruct (add_supply_cases g amt st)
      as [[_ ->] | (ft & a & _ & _ & _ & ->)].
    + by split_and!.
    + split_and!; try done.
      * intros _. change (map ?h ?l) with (h <$> l).
        by apply (fmap_insert_same closing_stock (fuels st) (fuel_idx ft)
                    (fuel_at (fuels st) ft)); [apply fuel_at_lookup |].
      * intros _ Hno. by destruct (Hno g amt).
  - injection Hexec as <-. split_and!.
    + intros Hno. by destruct (Hno pid s).
    + intros _. unfold change_pump_status. by repeat case_match.
    + intros _ _. unfold change_pump_status. by repeat case_match.
  - injection Hexec as <-. done.
  - injection Hexec as <-. split_and!; try done.
    intros _ _. simpl. change (map ?h ?l) with (h <$> l).
    rewrite <- list_fmap_compose. by apply list_fmap_ext.
  - injection Hexec as <-. done.
Qed.

(* ------------------------------------------------------------------ *)
(** ** The main loop *)

Lemma main_loop_ends (ms : list MenuInput) (st : SystemState) :
  reachable st ->
  match main_loop ms st with
  | AtMenu st' => reachable st'
  | Returned code st' =>
      code = 0 /\ exists st'', reachable st'' /\ st' = shutdown_system st''
  | ExitFailure => True
  | Crashed => False
  end.
Proof using Platform.
  revert st. induction ms as [|m ms IH]; intros st Hreach; simpl; [done|].
  destruct (menu_choice m) as [choice|]; [| by apply IH].
  destruct (choice =? 0); [by eauto|].
  destruct (exec (menu_command m choice) st) as [st1 | |] eqn:Hexec.
  - apply IH. by apply (reach_exec (menu_command m choice) st).
  - done.
  - by apply (exec_no_fault _ st (reachable_well_formed st Hreach)) in Hexec.
Qed.

(** X23: [main] never accesses the ledger out of bounds, whatever is
    typed; whenever it is back at the menu its state is a state of a run;
    it returns only with code 0, after releasing the ledger; and it exits
    with failure at once when the first allocation fails. *)
Theorem main_ends_cleanly (heap : bool) (ms : list MenuInput) :
  main heap ms <> Crashed
  /\ (forall st, main heap ms = AtMenu st -> reachable st)
  /\ (forall code st,
        main heap ms = Returned code st ->
        code = 0 /\ transactions st = [] /\ tx_capacity st = 0
        /\ tx_count st = 0)
  /\ (heap = false -> main heap ms = ExitFailure).
Proof using Platform.
  unfold main.
  destruct (initialize_system heap static_state) as [st0|] eqn:Hinit.
  - pose proof (main_loop_ends ms st0 (reach_init heap st0 Hinit)) as Hend.
    assert (Hheap : heap = false -> False).
    { intros ->. unfold initialize_system, calloc, alloc_ok in Hinit.
      by simpl in Hinit. }
    destruct (main_loop ms st0) as [st | code st | |]; [| | | done].
    + split_and!; [done | by intros ? [= <-] | done | by intros ?%Hheap].
    + destruct Hend as (-> & st'' & _ & ->).
      split_and!;
        [done | done | by intros ? ? [= <- <-] | by intros ?%Hheap].
    + split_and!; [done | done | done | by intros ?%Hheap].
  - done.
Qed.



(* ------------------------------------------------------------------ *)
(** ** A status change that is refused *)

Lemma status_of_Z_None (z : Z) : status_of_Z z = None <-> z < 0 \/ 2 < z.
Proof.
  unfold status_of_Z.
  destruct (Z.eqb_spec z 0), (Z.eqb_spec z 1), (Z.eqb_spec z 2);
    split; intros H; try done; try lia; exfalso; lia.
Qed.

(** X25: [change_pump_status] refuses exactly when the pump identifier is
    missing or not one of 1..6, or the status number is missing or outside
    0..2; a refused change leaves the state as it was. *)
Theorem change_pump_status_refusals (pid s : option Z) (st : SystemState) :
  well_formed st ->
  (fst (change_pump_status pid s st) = false
   <-> pid = None \/ (exists id, pid = Some id /\ (id < 1 \/ 6 < id))
       \/ s = None \/ (exists z, s = Some z /\ (z < 0 \/ 2 < z)))
  /\ (fst (change_pump_status pid s st) = false ->
      snd (change_pump_status pid s st) = st).
Proof.
  intros Hwf. unfold change_pump_status.
  destruct pid as [id|]; [| by split; [split; [left|] |]].
  rewrite (pump_index_by_id_spec (pumps st) id (wf_pump_ids st Hwf)).
  destruct (Z.leb_spec 1 id), (Z.leb_spec id 6); simpl;
    try (split; [split; [intros _; right; left; exists id; split; [done|lia]
                        | done] | done]).
  destruct (Z.ltb_spec (id - 1) 0); [lia|].
  destruct s as [z|]; simpl; [| by split; [split; [do 2 right; left|] |]].
  destruct (status_of_Z z) as [new|] eqn:Hz; simpl.
  - assert (Hin : ~ (z < 0 \/ 2 < z))
      by (rewrite <- status_of_Z_None; congruence).
    split; [| done]. split; [done|].
    intros [? | [(? & [= <-] & ?) | [? | (? & [= <-] & ?)]]]; try done; lia.
  - apply status_of_Z_None in Hz. split; [| done]. split; [| done].
    intros _. do 3 right. by exists z.
Qed.

(* ------------------------------------------------------------------ *)
(** ** A sale that passes every check *)

(** X26: in every state of a run, an attempt on an Active pump [id] of
    1..6, with a valid vehicle and payment selection, a quantity and an
    amount accepted by the mode prompt at the price of the pump's fuel,
    a quantity the stock check lets through, and room in the ledger,
    completes: the record carries the pump, its fuel, the quantity, the
    amount, the vehicle, the payment mode and the time read; it is
    appended to the ledger; and the stock of that fuel goes down by the
    quantity. *)
Theorem checked_sale_completes (st : SystemState) (inp : SaleInput)
    (id : Z) (vehicle : VehicleType) (pay : PaymentMode) (qty amt : float) :
  reachable st ->
  in_pump_id inp = Some id ->
  1 <= id <= 6 ->
  status (pump_at (pumps st) (Z.to_nat (id - 1))) = PUMP_ACTIVE ->
  in_vchoice inp ≫= vehicle_of_Z = Some vehicle ->
  read_qty_amt inp (unit_price (pump_fuel id)) = inr (qty, amt) ->
  (current_stock (fuel_at (fuels st) (pump_fuel id)) <? qty)%float = false ->
  in_paychoice inp ≫= payment_of_Z = Some pay ->
  tx_count st < tx_capacity st ->
  exists tx st',
    process_sale inp st = Sold tx st'
    /\ (timestamp tx, tx_pump_id tx, tx_fuel_type tx, vehicle_type tx,
        quantity tx, amount tx, payment_mode tx)
       = (in_now_ts inp, id, pump_fuel id, vehicle, qty, amt, pay)
    /\ ledger st' = ledger st ++ [tx]
    /\ current_stock (fuel_at (fuels st') (pump_fuel id))
       = (current_stock (fuel_at (fuels st) (pump_fuel id)) - qty)%float.
Proof using Platform.
  intros Hreach Hpid Hid Hstatus Hv Hread Hstock Hpay Hroom.
  pose proof (reachable_well_formed st Hreach) as Hwf.
  destruct (reachable_fixed_tables st Hreach (pump_fuel id))
    as (_ & Hprice & _).
  destruct (pump_at_index_fuel (pumps st) id (wf_pump_ids st Hwf)
              (wf_pump_fuels st Hwf)) as (_ & Hidx & _ & Hfuel).
  { rewrite (pump_index_by_id_spec (pumps st) id (wf_pump_ids st Hwf)).
    destruct (Z.leb_spec 1 id), (Z.leb_spec id 6); simpl; lia. }
  destruct (process_sale_accepts inp st id vehicle pay qty amt Hwf Hpid)
    as [n Hsale].
  - rewrite Hidx. lia.
  - by rewrite Hidx.
  - done.
  - by rewrite Hidx, Hfuel, Hprice.
  - by rewrite Hidx, Hfuel.
  - done.
  - unfold ensure_tx_capacity.
    by destruct (Z.ltb_spec (tx_count st) (tx_capacity st)); [| lia].
  - rewrite Hidx, Hfuel in Hsale.
    eexists _, _. split; [exact Hsale|]. split; [done|].
    destruct (process_sale_Sold inp st _ _ Hwf Hsale)
      as (_ & _ & _ & _ & _ & _ & _ & _ & _ & _ & _ & _ & Hledger & _).
    split; [exact Hledger|].
    rewrite update_stats_fuels.
    destruct (fuel_at_set_current_stock st (pump_fuel id) (pump_fuel id)
                (current_stock (fuel_at (fuels st) (pump_fuel id)) - qty)%float
                (wf_fuels st Hwf)) as (_ & _ & _ & _ & Hcur).
    cbn zeta in Hcur. simpl.
    etransitivity; [exact Hcur|]. by destruct (pump_fuel id).
Qed.

(* ------------------------------------------------------------------ *)
(** ** Values that are not numbers *)

Lemma SFeqb_irrefl_nan (x : spec_float) : SFeqb x x = false -> x = S754_nan.
Proof.
  destruct x as [s | s | | s m e]; try done; unfold SFeqb, SFcompare.
  - by destruct s.
  - rewrite Z.compare_refl, Pos.compare_refl. by destruct s.
Qed.

Lemma is_nan_Prim2SF (v : float) :
  PrimFloat.is_nan v = true -> Prim2SF v = S754_nan.
Proof.
  unfold PrimFloat.is_nan. intros Hnan.
  apply SFeqb_irrefl_nan. rewrite <- FloatAxioms.eqb_spec.
  by destruct (v =? v)%float.
Qed.

Lemma nan_compares_false (v x : float) :
  PrimFloat.is_nan v = true ->
  (v <=? x)%float = false /\ (x <? v)%float = false.
Proof.
  intros Hnan%is_nan_Prim2SF.
  rewrite FloatAxioms.leb_spec, FloatAxioms.ltb_spec, Hnan.
  unfold SFleb, SFltb, SFcompare. by destruct (Prim2SF x) as [[]|[]| |[]].
Qed.

(** X27: a value that is not a number passes every comparison guarding
    the stock: as a quantity typed in a sale it is accepted by the
    quantity prompt and by the stock check, whatever the stock; as a
    quantity typed in a supply it is accepted for every valid fuel. *)
Theorem nan_passes_the_checks (inp : SaleInput) (v p stock : float)
    (f : Z) (st : SystemState) :
  PrimFloat.is_nan v = true ->
  in_mode inp = Some 0 ->
  in_value inp = Some v ->
  0 <= f <= 2 ->
  read_qty_amt inp p = inr (v, (v * p)%float)
  /\ (stock <? v)%float = false
  /\ fst (add_supply (Some f) (Some v) st) = true.
Proof.
  intros Hnan Hmode Hval Hf.
  destruct (nan_compares_false v 0 Hnan) as [Hle _].
  destruct (nan_compares_false v stock Hnan) as [_ Hlt].
  split_and!; [| done |].
  - unfold read_qty_amt. by rewrite Hmode, Hval, Hle.
  - unfold add_supply. simpl.
    destruct (fuel_of_Z f) as [ft|] eqn:Hft.
    + by rewrite Hle.
    + apply fuel_of_Z_None in Hft. lia.
Qed.

(* ------------------------------------------------------------------ *)
(** ** Every record is in one bucket of each kind *)

(** Putting [x] at the head of the bucket of key [k0]: once when [k0] is
    one of the keys, not at all when it is not. *)
Lemma bucket_insert {K : Type} (eqb : K -> K -> bool) (k0 : K) (x : float)
    (F : K -> list float) (keys : list K) :
  (forall a b, eqb a b = true <-> a = b) ->
  NoDup keys ->
  let G := fun k => if eqb k0 k then x :: F k else F k in
  (k0 ∈ keys -> Permutation (concat (map G keys)) (x :: concat (map F keys)))
  /\ (k0 ∉ keys -> concat (map G keys) = concat (map F keys)).
Proof.
  intros Heqb Hnd G. induction Hnd as [|k ks Hk Hnd [IHin IHout]]; simpl.
  - split; [by intros ?%elem_of_nil | done].
  - subst G. simpl. destruct (eqb k0 k) eqn:Hk0.
    + apply Heqb in Hk0 as ->. split.
      * intros _. by rewrite (IHout Hk).
      * intros Hout. exfalso. apply Hout. by left.
    + assert (Hne : k0 <> k).
      { intros ->. by rewrite (proj2 (Heqb k k) eq_refl) in Hk0. }
      split.
      * intros [? | Hin]%elem_of_cons; [done|].
        rewrite (IHin Hin). symmetry. apply Permutation_middle.
      * intros Hout. rewrite IHout; [done|].
        intros Hin. apply Hout. by right.
Qed.

(** Buckets selected by a key partition the list they select from. *)
Lemma bucket_partition {K : Type} (key : Transaction -> K)
    (eqb : K -> K -> bool) (val : Transaction -> float) (keys : list K)
    (l : list Transaction) :
  (forall a b, eqb a b = true <-> a = b) ->
  NoDup keys ->
  (forall t, t ∈ l -> key t ∈ keys) ->
  Permutation (map val l)
    (concat
       (map (fun k => map val (List.filter (fun t => eqb (key t) k) l)) keys)).
Proof.
  intros Heqb Hnd. induction l as [|t l IH]; intros Hkeys.
  - simpl. clear. induction keys as [|k ks IHk]; [done | exact IHk].
  - destruct (bucket_insert eqb (key t) (val t)
                (fun k => map val (List.filter (fun t => eqb (key t) k) l))
                keys Heqb Hnd) as [Hin _].
    simpl.
    rewrite (IH ltac:(intros t' Ht'; apply Hkeys; by right)).
    rewrite <- Hin by (apply Hkeys; by left).
    apply Permutation_refl'. f_equal. apply map_ext. intros k.
    by destruct (eqb (key t) k).
Qed.

Lemma reachable_ledger_pumps (st : SystemState) (tx : Transaction) :
  reachable st -> tx ∈ ledger st -> 1 <= tx_pump_id tx <= 6.
Proof using Platform.
  intros Hreach. revert tx.
  induction Hreach as [heap st Hinit | c st st' Hreach IH Hexec];
    intros tx Hin.
  - apply initialize_system_Some in Hinit as [-> _].
    by apply elem_of_nil in Hin.
  - pose proof (reachable_well_formed st Hreach) as Hwf.
    destruct (exec_cases c st st' Hwf Hexec)
      as [(inp & tx' & -> & Hsale) | Hsame].
    + destruct (process_sale_Sold inp st st' tx' Hwf Hsale)
        as (n & v & pay & _ & Hidx & _ & _ & _ & _ & _ & _ & _ & Hledger & _).
      rewrite Hledger in Hin.
      apply elem_of_app in Hin as [Hin | ->%list_elem_of_singleton];
        [by apply IH|].
      cbv zeta in Hidx.
      rewrite (pump_index_by_id_spec (pumps st) (tx_pump_id tx')
                 (wf_pump_ids st Hwf)) in Hidx.
      destruct (Z.leb_spec 1 (tx_pump_id tx')),
        (Z.leb_spec (tx_pump_id tx') 6); simpl in Hidx; lia.
    + apply IH. by rewrite <- (same_books_ledger st st').
Qed.

(** C1, as the code has it: after any sequence of completed sales from
    the initialised state, every fuel-wise accumulator holds the in-order
    binary64 sum of the amounts (quantities) of that fuel's ledger records,
    and every pump's total holds the in-order sum over that pump's ledger
    records.  Every ledger record is in exactly one fuel bucket and in
    exactly one pump bucket: the amounts (quantities) of the ledger are, up
    to order, the lists of the three fuel buckets put together, and also
    the lists of the six pump buckets put together.  So the grand total
    over the fuels, the grand total over the pumps and the total over the
    ledger add the same numbers, grouped and ordered differently: the
    first two are sums of bucket sums, the third is one sum. *)
Theorem accumulators_are_ledger_sums (heap : bool) (ins : list SaleInput)
    (st0 st : SystemState) :
  initialize_system heap static_state = Some st0 ->
  run_sales ins st0 = Some st ->
  let fuel_types := [FUEL_PETROL; FUEL_DIESEL; FUEL_CNG] in
  let pump_ids := [1; 2; 3; 4; 5; 6] in
  (forall f,
     fget (fuel_wise_amount st) (fuel_idx f)
     = fsum (amounts_where (on_fuel f) (ledger st))
     /\ fget (fuel_wise_quantity st) (fuel_idx f)
        = fsum (quantities_where (on_fuel f) (ledger st)))
  /\ (forall p,
        p ∈ pumps st ->
        total_amount p = fsum (amounts_where (on_pump (pump_id p)) (ledger st))
        /\ total_quantity p
           = fsum (quantities_where (on_pump (pump_id p)) (ledger st)))
  /\ Permutation (map amount (ledger st))
       (concat (map (fun f => amounts_where (on_fuel f) (ledger st))
                  fuel_types))
  /\ Permutation (map quantity (ledger st))
       (concat (map (fun f => quantities_where (on_fuel f) (ledger st))
                  fuel_types))
  /\ Permutation (map amount (ledger st))
       (concat (map (fun id => amounts_where (on_pump id) (ledger st))
                  pump_ids))
  /\ Permutation (map quantity (ledger st))
       (concat (map (fun id => quantities_where (on_pump id) (ledger st))
                  pump_ids))
  /\ report_totals st
     = (fsum (map (fun f => fsum (quantities_where (on_fuel f) (ledger st)))
                fuel_types),
        fsum (map (fun f => fsum (amounts_where (on_fuel f) (ledger st)))
                fuel_types))
  /\ fsum (map total_amount (pumps st))
     = fsum (map (fun id => fsum (amounts_where (on_pump id) (ledger st)))
               pump_ids)
  /\ fsum (map total_quantity (pumps st))
     = fsum (map (fun id => fsum (quantities_where (on_pump id) (ledger st)))
               pump_ids).
Proof using Platform.
  intros Hinit Hrun fuel_types pump_ids.
  assert (Hreach : reachable st).
  { apply (run_sales_reachable ins st0 st); [| done].
    by apply (reach_init heap). }
  pose proof (reachable_well_formed st Hreach) as Hwf.
  destruct (reachable_accumulators_match st Hreach) as [Hfa Hfq Hpa Hpq _].
  assert (Hfuels : forall t, t ∈ ledger st -> tx_fuel_type t ∈ fuel_types).
  { intros t _. subst fuel_types.
    destruct (tx_fuel_type t); repeat constructor. }
  assert (Hpumps : forall t, t ∈ ledger st -> tx_pump_id t ∈ pump_ids).
  { intros t Ht. pose proof (reachable_ledger_pumps st t Hreach Ht) as Hid.
    subst pump_ids.
    assert (Hcases : tx_pump_id t = 1 \/ tx_pump_id t = 2 \/ tx_pump_id t = 3
                     \/ tx_pump_id t = 4 \/ tx_pump_id t = 5
                     \/ tx_pump_id t = 6) by lia.
    repeat (destruct Hcases as [-> | Hcases]; [repeat constructor|]).
    rewrite Hcases. repeat constructor. }
  assert (Hndf : NoDup fuel_types).
  { subst fuel_types.
    repeat (apply NoDup_cons_2;
            [intros Hin;
             repeat (apply elem_of_cons in Hin as [Hin | Hin];
                     [discriminate Hin|]);
             by apply elem_of_nil in Hin|]).
    apply NoDup_nil_2. }
  assert (Hndp : NoDup pump_ids) by (by compute_done).
  assert (Htotals : forall (val : Pump -> float) (sums : Z -> float),
            (forall p, p ∈ pumps st -> val p = sums (pump_id p)) ->
            fsum (map val (pumps st)) = fsum (map sums pump_ids)).
  { intros val sums Hval. subst pump_ids.
    rewrite <- (wf_pump_ids st Hwf), map_map. f_equal.
    apply map_ext_in. intros p Hp. apply Hval. by apply list_elem_of_In. }
  split_and!.
  - by intros f.
  - by intros p Hp; split; [apply Hpa | apply Hpq].
  - exact (bucket_partition tx_fuel_type FuelType_eqb amount fuel_types
             (ledger st) FuelType_eqb_eq Hndf Hfuels).
  - exact (bucket_partition tx_fuel_type FuelType_eqb quantity fuel_types
             (ledger st) FuelType_eqb_eq Hndf Hfuels).
  - exact (bucket_partition tx_pump_id Z.eqb amount pump_ids
             (ledger st) Z.eqb_eq Hndp Hpumps).
  - exact (bucket_partition tx_pump_id Z.eqb quantity pump_ids
             (ledger st) Z.eqb_eq Hndp Hpumps).
  - unfold report_totals. subst fuel_types. simpl.
    by rewrite <- (Hfq FUEL_PETROL), <- (Hfq FUEL_DIESEL), <- (Hfq FUEL_CNG),
      <- (Hfa FUEL_PETROL), <- (Hfa FUEL_DIESEL), <- (Hfa FUEL_CNG).
  - by apply Htotals.
  - by apply Htotals.
Qed.

End Program.

(* ------------------------------------------------------------------ *)
(** ** The concrete platform *)

Abbreviation demo_process_sale :=
  (process_sale demo_localtime demo_sizeof_tx demo_heap_max demo_uninit).
Abbreviation demo_run_sales :=
  (run_sales demo_localtime demo_sizeof_tx demo_heap_max demo_uninit).
Abbreviation demo_run :=
  (run demo_localtime demo_sizeof_tx demo_heap_max demo_uninit).
Abbreviation demo_reachable :=
  (reachable demo_localtime demo_sizeof_tx demo_heap_max demo_uninit).
Abbreviation demo_after_three_amount_sales :=
  (after_three_amount_sales demo_localtime demo_sizeof_tx demo_heap_max
     demo_uninit).
Abbreviation demo_after_two_petrol_sales :=
  (after_two_petrol_sales demo_localtime demo_sizeof_tx demo_heap_max
     demo_uninit).
Abbreviation demo_two_petrol_moves :=
  (two_petrol_moves demo_localtime demo_sizeof_tx demo_heap_max demo_uninit).
Abbreviation demo_after_many_appends :=
  (after_many_appends demo_localtime demo_sizeof_tx demo_heap_max demo_uninit).

Lemma demo_localtime_range (t : Z) (lt : tm) :
  demo_localtime t = Some lt -> tm_in_range lt.
Proof.
  unfold demo_localtime, tm_in_range.
  destruct ((t <? TIME_MIN) || (TIME_MAX <? t)); [done|].
  intros [= <-]. simpl. pose proof (Z.mod_pos_bound (t / 3600) 24). lia.
Qed.

Lemma demo_initialize_system :
  initialize_system demo_sizeof_tx demo_heap_max true static_state
  = Some initial_state.
Proof. reflexivity. Qed.

Lemma demo_reachable_initial_state : demo_reachable initial_state.
Proof. by apply (reach_init _ _ _ _ true). Qed.

Lemma demo_run_three_amount_sales :
  demo_run_sales three_amount_sales initial_state
  = Some demo_after_three_amount_sales.
Proof. vm_compute. reflexivity. Qed.

Lemma demo_reachable_after_three_amount_sales :
  demo_reachable demo_after_three_amount_sales.
Proof.
  apply (run_sales_reachable _ _ _ _ three_amount_sales initial_state).
  - apply demo_reachable_initial_state.
  - apply demo_run_three_amount_sales.
Qed.

(* ------------------------------------------------------------------ *)
(** ** Where the specification and the code part *)

(** C1 fails as stated: after three sales by amount (1000.10 on pump 1,
    2000.20 on pump 3, 500.15 on pump 2) the fuel-wise total that the daily
    report prints and the total over the pumps are both
    3500.4499999999998, the total over the ledger is 3500.4500000000003,
    and [==] tells them apart. *)
Lemma fuel_total_differs_from_ledger_total :
  demo_run_sales three_amount_sales initial_state
  = Some demo_after_three_amount_sales
  /\ (snd (report_totals demo_after_three_amount_sales)
      =? fsum (map amount (ledger demo_after_three_amount_sales)))%float = false
  /\ (fsum (map total_amount (pumps demo_after_three_amount_sales))
      =? fsum (map amount (ledger demo_after_three_amount_sales)))%float = false
  /\ snd (report_totals demo_after_three_amount_sales)
     <> fsum (map amount (ledger demo_after_three_amount_sales)).
Proof.
  split_and!; [by vm_compute | by vm_compute | by vm_compute |].
  intros Heq.
  assert (Hb : (snd (report_totals demo_after_three_amount_sales)
                =? fsum (map amount (ledger demo_after_three_amount_sales)))%float
               = false) by (by vm_compute).
  rewrite Heq in Hb. vm_compute in Hb. discriminate.
Qed.

(** C2 fails as stated, twice.  After 10.1 litres sold on pump 1 and 20.2
    on pump 2 the petrol stock is 49969.700000000004 while opening stock
    less the sum of the sales is 49969.699999999997.  And a quantity typed
    as [nan] passes both checks, after which the stock is a NaN, which is
    not [>= 0]. *)
Lemma stock_differs_from_closed_formula :
  (exists st ms,
     demo_run two_petrol_sales initial_state = Ok (st, ms)
     /\ (current_stock (fuel_at (fuels st) FUEL_PETROL)
         =? formula_stock FUEL_PETROL OPEN_PETROL ms)%float = false)
  /\ (exists st ms,
        demo_run nan_sale initial_state = Ok (st, ms)
        /\ ms = [Dispensed FUEL_PETROL nan]
        /\ (0 <=? current_stock (fuel_at (fuels st) FUEL_PETROL))%float
           = false).
Proof.
  split.
  - exists (state_of (demo_run two_petrol_sales initial_state)),
           (moves_of (demo_run two_petrol_sales initial_state)).
    split; by vm_compute.
  - exists (state_of (demo_run nan_sale initial_state)),
           (moves_of (demo_run nan_sale initial_state)).
    split_and!; by vm_compute.
Qed.

(** C6 fails as stated: after the three sales the first row listed is the
    last sale, not the first. *)
Lemma listing_is_not_in_insertion_order :
  ~ lists_in_insertion_order demo_after_three_amount_sales.
Proof.
  intros Horder. specialize (Horder 0%nat).
  vm_compute in Horder. discriminate.
Qed.

(* ------------------------------------------------------------------ *)
(** ** The theorems at work on the concrete platform *)

Ltac demo_platform :=
  first [ exact demo_localtime_range
        | unfold demo_sizeof_tx, demo_heap_max, INITIAL_TX_CAPACITY; lia ].

Lemma demo_well_formed_initial_state :
  well_formed demo_sizeof_tx demo_heap_max initial_state.
Proof. apply well_formed_initial_state. demo_platform. Qed.

Lemma accumulators_are_ledger_sums_witness :
  demo_run_sales three_amount_sales initial_state
  = Some demo_after_three_amount_sales
  /\ fget (fuel_wise_amount demo_after_three_amount_sales) (fuel_idx FUEL_PETROL)
     = fsum (amounts_where (on_fuel FUEL_PETROL)
               (ledger demo_after_three_amount_sales))
  /\ Permutation (map amount (ledger demo_after_three_amount_sales))
       (concat (map (fun id =>
                       amounts_where (on_pump id)
                         (ledger demo_after_three_amount_sales))
                  [1; 2; 3; 4; 5; 6]))
  /\ snd (report_totals demo_after_three_amount_sales)
     = fsum (map (fun f =>
                    fsum (amounts_where (on_fuel f)
                            (ledger demo_after_three_amount_sales)))
               [FUEL_PETROL; FUEL_DIESEL; FUEL_CNG]).
Proof.
  split; [vm_compute; reflexivity|].
  destruct (accumulators_are_ledger_sums demo_localtime demo_sizeof_tx
              demo_heap_max demo_uninit ltac:(demo_platform)
              ltac:(demo_platform) ltac:(demo_platform)
              true three_amount_sales initial_state
              demo_after_three_amount_sales)
    as (Hfuel & _ & _ & _ & Hperm & _ & Htotals & _);
    [vm_compute; reflexivity.. |].
  split; [exact (proj1 (Hfuel FUEL_PETROL))|].
  split; [exact Hperm|].
  by rewrite Htotals.
Defined.

Lemma stock_is_replayed_from_moves_witness :
  demo_run two_petrol_sales initial_state
  = Ok (demo_after_two_petrol_sales, demo_two_petrol_moves)
  /\ current_stock (fuel_at (fuels demo_after_two_petrol_sales) FUEL_PETROL)
     = replay_stock FUEL_PETROL OPEN_PETROL demo_two_petrol_moves
  /\ (0 <=? current_stock (fuel_at (fuels demo_after_two_petrol_sales) FUEL_PETROL))%float
     = true.
Proof.
  split; [vm_compute; reflexivity|].
  destruct (stock_is_replayed_from_moves demo_localtime demo_sizeof_tx
              demo_heap_max demo_uninit ltac:(demo_platform)
              ltac:(demo_platform) ltac:(demo_platform)
              true two_petrol_sales initial_state demo_after_two_petrol_sales
              demo_two_petrol_moves FUEL_PETROL)
    as (Hreplay & Hnonneg & _); [vm_compute; reflexivity.. |].
  split; [exact Hreplay|]. apply Hnonneg. intros m Hm.
  assert (Hall : forallb (fun m => is_finite (move_quantity m))
                   demo_two_petrol_moves = true) by (vm_compute; reflexivity).
  rewrite forallb_forall in Hall. by apply Hall, list_elem_of_In.
Defined.

Lemma rejected_sale_changes_nothing_witness :
  sale_failure oversized_sale initial_state
  /\ demo_process_sale oversized_sale initial_state
     = Rejected InsufficientStock initial_state.
Proof.
  assert (Hfail : sale_failure oversized_sale initial_state).
  { apply (fail_stock _ _ 1 60000%float 6150000%float);
      [reflexivity | vm_compute; discriminate | vm_compute; split; reflexivity]. }
  split; [exact Hfail|].
  destruct (proj2 (rejected_sale_changes_nothing demo_localtime demo_sizeof_tx
                     demo_heap_max demo_uninit oversized_sale initial_state)
              Hfail) as [why Hwhy].
  rewrite Hwhy. vm_compute in Hwhy. by injection Hwhy as <-.
Defined.

Lemma txn_ids_pairwise_distinct_witness :
  demo_reachable demo_after_three_amount_sales
  /\ NoDup (map txn_id (ledger demo_after_three_amount_sales)).
Proof.
  split; [exact demo_reachable_after_three_amount_sales|].
  apply (txn_ids_pairwise_distinct demo_localtime demo_sizeof_tx
           demo_heap_max demo_uninit ltac:(demo_platform)
           ltac:(demo_platform) ltac:(demo_platform) ltac:(demo_platform)
           demo_after_three_amount_sales).
  exact demo_reachable_after_three_amount_sales.
Defined.

Lemma ledger_growth_keeps_records_witness :
  append_all demo_localtime demo_sizeof_tx demo_heap_max demo_uninit
    many_appends initial_state = Ok demo_after_many_appends
  /\ (INITIAL_TX_CAPACITY * 10 < Z.of_nat (length many_appends))
  /\ ledger demo_after_many_appends = ledger initial_state ++ map snd many_appends.
Proof.
  split; [vm_compute; reflexivity|]. split; [vm_compute; reflexivity|].
  apply (proj2 (proj2 (ledger_growth_keeps_records demo_localtime
                         demo_sizeof_tx demo_heap_max demo_uninit
                         ltac:(demo_platform) ltac:(demo_platform)
                         ltac:(demo_platform)))
           initial_state many_appends demo_after_many_appends).
  - exact demo_reachable_initial_state.
  - vm_compute; reflexivity.
Defined.

Lemma list_transactions_most_recent_first_witness :
  demo_reachable demo_after_three_amount_sales
  /\ list_transactions demo_after_three_amount_sales
     = row_of <$> reverse (ledger demo_after_three_amount_sales).
Proof.
  split; [exact demo_reachable_after_three_amount_sales|].
  apply (list_transactions_most_recent_first demo_localtime demo_sizeof_tx
           demo_heap_max demo_uninit ltac:(demo_platform)
           ltac:(demo_platform) ltac:(demo_platform)
           demo_after_three_amount_sales).
  exact demo_reachable_after_three_amount_sales.
Defined.

Lemma observe_skips_only_the_hour_witness :
  well_formed demo_sizeof_tx demo_heap_max initial_state
  /\ 1 <= tx_pump_id late_tx <= 6
  /\ demo_localtime (timestamp late_tx) = None
  /\ hour_quantity (update_stats demo_localtime late_tx initial_state)
     = hour_quantity initial_state
  /\ hour_amount (update_stats demo_localtime late_tx initial_state)
     = hour_amount initial_state
  /\ fget (fuel_wise_quantity
             (update_stats demo_localtime late_tx initial_state))
          (fuel_idx FUEL_DIESEL)
     = 12.5%float
  /\ fget (payment_mode_amount
             (update_stats demo_localtime late_tx initial_state))
          (pay_idx PAY_CARD)
     = 1109.375%float
  /\ pump_totals
       (pump_at (pumps (update_stats demo_localtime late_tx initial_state)) 2)
     = (3, 1, 12.5%float, 1109.375%float).
Proof.
  split; [exact demo_well_formed_initial_state|].
  split; [vm_compute; split; discriminate|].
  split; [reflexivity|].
  destruct (observe_skips_only_the_hour demo_localtime demo_sizeof_tx
              demo_heap_max demo_uninit ltac:(demo_platform)
              ltac:(demo_platform) ltac:(demo_platform) ltac:(demo_platform)
              late_tx initial_state demo_well_formed_initial_state)
    as (Hslots & Hpump & Hhours & _).
  destruct (Hslots (fuel_idx FUEL_DIESEL)) as (Hfq & _ & _).
  destruct (Hslots (pay_idx PAY_CARD)) as (_ & _ & Hpay).
  destruct Hpump as (Hid & _ & _ & Hcount & Hqty & Hamt & _);
    [vm_compute; split; discriminate|].
  split; [exact (proj1 Hhours)|]. split; [exact (proj2 Hhours)|].
  split; [etransitivity; [exact Hfq | vm_compute; reflexivity]|].
  split; [etransitivity; [exact Hpay | vm_compute; reflexivity]|].
  unfold pump_totals.
  change (Z.to_nat (tx_pump_id late_tx - 1)) with 2%nat in Hid, Hcount, Hqty, Hamt.
  rewrite Hid, Hcount, Hqty, Hamt. vm_compute. reflexivity.
Defined.

Lemma first_petrol_sale_of_100_witness :
  exists tx st,
    demo_process_sale (sale_input 1 0 100) initial_state = Sold tx st
    /\ quantity tx = 100%float
    /\ amount tx = 10250%float
    /\ current_stock (fuel_at (fuels st) FUEL_PETROL) = 49900%float
    /\ transactions_count (pump_at (pumps st) (Z.to_nat (1 - 1))) = 1
    /\ tx_count st = 1.
Proof.
  apply (first_petrol_sale_of_100 demo_localtime demo_sizeof_tx
           demo_heap_max demo_uninit ltac:(demo_platform)
           ltac:(demo_platform) ltac:(demo_platform)
           true initial_state (sale_input 1 0 100) 1 VEH_4W PAY_CASH);
    first [reflexivity | by left].
Defined.

Lemma unknown_pump_is_skipped_witness :
  well_formed demo_sizeof_tx demo_heap_max initial_state
  /\ pump_index_by_id (pumps initial_state) (tx_pump_id stray_tx) = -1
  /\ exists st',
       record_transaction demo_localtime demo_sizeof_tx demo_heap_max
         demo_uninit true true stray_tx initial_state = Ok st'
       /\ ledger st' = ledger initial_state ++ [stray_tx]
       /\ pumps st' = pumps initial_state
       /\ fget (fuel_wise_quantity st') (fuel_idx FUEL_DIESEL) = 12.5%float
       /\ fget (fuel_wise_amount st') (fuel_idx FUEL_DIESEL) = 1109.375%float
       /\ fget (fuel_wise_amount st') (fuel_idx FUEL_PETROL) = 0%float
       /\ fget (payment_mode_amount st') (pay_idx PAY_CARD) = 1109.375%float
       /\ fget (hour_quantity st') 1 = 12.5%float
       /\ fget (hour_amount st') 1 = 1109.375%float
       /\ fget (hour_amount st') 2 = 0%float.
Proof.
  split; [exact demo_well_formed_initial_state|].
  split; [reflexivity|].
  destruct (unknown_pump_is_skipped demo_localtime demo_sizeof_tx
              demo_heap_max demo_uninit ltac:(demo_platform)
              ltac:(demo_platform) ltac:(demo_platform) ltac:(demo_platform)
              true true stray_tx initial_state initial_state
              demo_well_formed_initial_state eq_refl eq_refl)
    as (st' & Hrec & Hledger & Hpumps & Hslots & Hhours).
  exists st'.
  destruct (Hslots (fuel_idx FUEL_DIESEL)) as (Hfq & Hfa & _).
  destruct (Hslots (fuel_idx FUEL_PETROL)) as (_ & Hfa0 & _).
  destruct (Hslots (pay_idx PAY_CARD)) as (_ & _ & Hpay).
  change (demo_localtime (timestamp stray_tx))
    with (Some (mkTm 126 9 30 1)) in Hhours.
  destruct (Hhours 1%nat) as (Hhq & Hha).
  destruct (Hhours 2%nat) as (_ & Hha2).
  split_and!; try done;
    (etransitivity; [eassumption | vm_compute; reflexivity]).
Defined.

Lemma ledger_writes_in_bounds_witness :
  demo_reachable demo_after_three_amount_sales
  /\ 0 <= tx_count demo_after_three_amount_sales
          <= tx_capacity demo_after_three_amount_sales
  /\ forall c,
       exec demo_localtime demo_sizeof_tx demo_heap_max demo_uninit c
         demo_after_three_amount_sales <> Fault.
Proof.
  split; [exact demo_reachable_after_three_amount_sales|].
  destruct (ledger_writes_in_bounds demo_localtime demo_sizeof_tx
              demo_heap_max demo_uninit ltac:(demo_platform)
              ltac:(demo_platform) ltac:(demo_platform)
              demo_after_three_amount_sales
              demo_reachable_after_three_amount_sales)
    as (_ & Hcount & _ & _ & _ & Hexec).
  by split.
Defined.

(* ------------------------------------------------------------------ *)
(** ** The further properties at work on the concrete platform *)

Abbreviation demo_main :=
  (main demo_localtime demo_sizeof_tx demo_heap_max demo_uninit).
Abbreviation demo_exec :=
  (exec demo_localtime demo_sizeof_tx demo_heap_max demo_uninit).

Lemma pump_lookup_in_a_run_witness :
  demo_reachable demo_after_three_amount_sales
  /\ pump_index_by_id (pumps demo_after_three_amount_sales) 4 = 3
  /\ pump_index_by_id (pumps demo_after_three_amount_sales) 7 = -1.
Proof.
  split; [exact demo_reachable_after_three_amount_sales|].
  split.
  - exact (proj1 (pump_lookup_in_a_run demo_localtime demo_sizeof_tx
                    demo_heap_max demo_uninit ltac:(demo_platform)
                    ltac:(demo_platform) ltac:(demo_platform)
                    demo_after_three_amount_sales 4
                    demo_reachable_after_three_amount_sales)).
  - exact (proj1 (pump_lookup_in_a_run demo_localtime demo_sizeof_tx
                    demo_heap_max demo_uninit ltac:(demo_platform)
                    ltac:(demo_platform) ltac:(demo_platform)
                    demo_after_three_amount_sales 7
                    demo_reachable_after_three_amount_sales)).
Defined.

Lemma prices_and_opening_stock_are_fixed_witness :
  demo_reachable demo_after_three_amount_sales
  /\ price (fuel_at (fuels demo_after_three_amount_sales) FUEL_DIESEL)
     = PRICE_DIESEL
  /\ opening_stock (fuel_at (fuels demo_after_three_amount_sales) FUEL_DIESEL)
     = OPEN_DIESEL.
Proof.
  split; [exact demo_reachable_after_three_amount_sales|].
  destruct (prices_and_opening_stock_are_fixed demo_localtime demo_sizeof_tx
              demo_heap_max demo_uninit ltac:(demo_platform)
              ltac:(demo_platform) ltac:(demo_platform)
              demo_after_three_amount_sales FUEL_DIESEL
              demo_reachable_after_three_amount_sales)
    as (_ & Hprice & Hopen).
  by split.
Defined.

Lemma unused_slots_are_zeroed_witness :
  demo_reachable demo_after_three_amount_sales
  /\ unused_slots demo_after_three_amount_sales = replicate 47 zero_tx.
Proof.
  split; [exact demo_reachable_after_three_amount_sales|].
  exact (unused_slots_are_zeroed demo_localtime demo_sizeof_tx
           demo_heap_max demo_uninit ltac:(demo_platform)
           ltac:(demo_platform) ltac:(demo_platform)
           demo_after_three_amount_sales
           demo_reachable_after_three_amount_sales).
Defined.

Lemma ledger_is_append_only_witness :
  demo_reachable initial_state
  /\ demo_run two_petrol_sales initial_state
     = Ok (demo_after_two_petrol_sales, demo_two_petrol_moves)
  /\ exists txs,
       ledger demo_after_two_petrol_sales = ledger initial_state ++ txs
       /\ map sale_move txs = sales_among demo_two_petrol_moves
       /\ tx_count demo_after_two_petrol_sales
          = tx_count initial_state + Z.of_nat (length txs)
       /\ tx_capacity initial_state <= tx_capacity demo_after_two_petrol_sales.
Proof.
  split; [exact demo_reachable_initial_state|].
  split; [vm_compute; reflexivity|].
  apply (ledger_is_append_only demo_localtime demo_sizeof_tx
           demo_heap_max demo_uninit ltac:(demo_platform)
           ltac:(demo_platform) ltac:(demo_platform)
           two_petrol_sales initial_state demo_after_two_petrol_sales
           demo_two_petrol_moves demo_reachable_initial_state).
  vm_compute; reflexivity.
Defined.

Lemma capacity_is_at_least_initial_witness :
  demo_reachable demo_after_three_amount_sales
  /\ INITIAL_TX_CAPACITY <= tx_capacity demo_after_three_amount_sales.
Proof.
  split; [exact demo_reachable_after_three_amount_sales|].
  exact (capacity_is_at_least_initial demo_localtime demo_sizeof_tx
           demo_heap_max demo_uninit ltac:(demo_platform)
           ltac:(demo_platform) ltac:(demo_platform)
           demo_after_three_amount_sales
           demo_reachable_after_three_amount_sales).
Defined.

Lemma demo_second_record_in_ledger :
  tx_at (transactions demo_after_three_amount_sales) 1
  ∈ ledger demo_after_three_amount_sales.
Proof. apply (list_elem_of_lookup_2 _ 1%nat). vm_compute. reflexivity. Qed.

Lemma ledger_records_are_consistent_witness :
  demo_reachable demo_after_three_amount_sales
  /\ tx_at (transactions demo_after_three_amount_sales) 1
     ∈ ledger demo_after_three_amount_sales
  /\ record_consistent (tx_at (transactions demo_after_three_amount_sales) 1).
Proof.
  split; [exact demo_reachable_after_three_amount_sales|].
  split; [exact demo_second_record_in_ledger|].
  exact (ledger_records_are_consistent demo_localtime demo_sizeof_tx
           demo_heap_max demo_uninit ltac:(demo_platform)
           ltac:(demo_platform) ltac:(demo_platform)
           demo_after_three_amount_sales
           (tx_at (transactions demo_after_three_amount_sales) 1)
           demo_reachable_after_three_amount_sales
           demo_second_record_in_ledger).
Defined.

Lemma hour_buckets_are_ledger_sums_witness :
  demo_reachable demo_after_three_amount_sales
  /\ fget (hour_amount demo_after_three_amount_sales) 1
     = fsum (amounts_where (in_hour demo_localtime 1)
               (ledger demo_after_three_amount_sales)).
Proof.
  split; [exact demo_reachable_after_three_amount_sales|].
  exact (proj2 (hour_buckets_are_ledger_sums demo_localtime demo_sizeof_tx
                  demo_heap_max demo_uninit ltac:(demo_platform)
                  ltac:(demo_platform) ltac:(demo_platform)
                  ltac:(demo_platform)
                  demo_after_three_amount_sales 1%nat
                  demo_reachable_after_three_amount_sales)).
Defined.

Lemma payment_buckets_are_ledger_sums_witness :
  demo_reachable demo_after_three_amount_sales
  /\ fget (payment_mode_amount demo_after_three_amount_sales)
       (pay_idx PAY_CASH)
     = fsum (amounts_where (paid_by PAY_CASH)
               (ledger demo_after_three_amount_sales)).
Proof.
  split; [exact demo_reachable_after_three_amount_sales|].
  exact (payment_buckets_are_ledger_sums demo_localtime demo_sizeof_tx
           demo_heap_max demo_uninit ltac:(demo_platform)
           ltac:(demo_platform) ltac:(demo_platform)
           demo_after_three_amount_sales PAY_CASH
           demo_reachable_after_three_amount_sales).
Defined.

Lemma demo_hour_one_is_listed :
  (1%nat, fget (hour_quantity demo_after_three_amount_sales) 1,
   fget (hour_amount demo_after_three_amount_sales) 1)
  ∈ show_hour_wise_analysis demo_after_three_amount_sales.
Proof. apply (list_elem_of_lookup_2 _ 0%nat). vm_compute. reflexivity. Qed.

Lemma hour_listing_shows_only_hours_with_sales_witness :
  demo_reachable demo_after_three_amount_sales
  /\ (1%nat, fget (hour_quantity demo_after_three_amount_sales) 1,
      fget (hour_amount demo_after_three_amount_sales) 1)
     ∈ show_hour_wise_analysis demo_after_three_amount_sales
  /\ exists tx,
       tx ∈ ledger demo_after_three_amount_sales
       /\ in_hour demo_localtime 1 tx = true.
Proof.
  split; [exact demo_reachable_after_three_amount_sales|].
  split; [exact demo_hour_one_is_listed|].
  apply (hour_listing_shows_only_hours_with_sales demo_localtime
           demo_sizeof_tx demo_heap_max demo_uninit ltac:(demo_platform)
           ltac:(demo_platform) ltac:(demo_platform) ltac:(demo_platform)
           demo_after_three_amount_sales 1%nat _ _
           demo_reachable_after_three_amount_sales demo_hour_one_is_listed).
Defined.

Lemma add_supply_adds_to_one_stock_witness :
  well_formed demo_sizeof_tx demo_heap_max initial_state
  /\ fst (add_supply (Some 1) (Some 750.5%float) initial_state) = true
  /\ exists ft a,
       Some 1 ≫= fuel_of_Z = Some ft /\ Some 750.5%float = Some a
       /\ (a <=? 0)%float = false
       /\ current_stock
            (fuel_at
               (fuels (snd (add_supply (Some 1) (Some 750.5%float)
                              initial_state))) ft)
          = (current_stock (fuel_at (fuels initial_state) ft) + a)%float.
Proof.
  split; [exact demo_well_formed_initial_state|].
  split; [reflexivity|].
  destruct (add_supply_adds_to_one_stock demo_sizeof_tx demo_heap_max
              (Some 1) (Some 750.5%float) initial_state
              (snd (add_supply (Some 1) (Some 750.5%float) initial_state))
              demo_well_formed_initial_state eq_refl)
    as (ft & a & Hft & Ha & Hpos & Hcur & _).
  by exists ft, a.
Defined.

Lemma change_pump_status_sets_one_status_witness :
  well_formed demo_sizeof_tx demo_heap_max initial_state
  /\ fst (change_pump_status (Some 2) (Some 2) initial_state) = true
  /\ exists id new,
       Some 2 = Some id /\ 1 <= id <= 6
       /\ Some 2 ≫= status_of_Z = Some new
       /\ status
            (pump_at
               (pumps (snd (change_pump_status (Some 2) (Some 2)
                              initial_state)))
               (Z.to_nat (id - 1)))
          = new.
Proof.
  split; [exact demo_well_formed_initial_state|].
  split; [reflexivity|].
  destruct (change_pump_status_sets_one_status demo_sizeof_tx demo_heap_max
              (Some 2) (Some 2) initial_state
              (snd (change_pump_status (Some 2) (Some 2) initial_state))
              demo_well_formed_initial_state eq_refl)
    as (id & new & Hid & Hrange & Hnew & Hstatus & _).
  by exists id, new.
Defined.

Lemma stopped_pump_sells_nothing_witness :
  well_formed demo_sizeof_tx demo_heap_max initial_state
  /\ fst (change_pump_status (Some 2) (Some 2) initial_state) = true
  /\ in_pump_id (sale_input 2 0 10) = Some 2
  /\ demo_process_sale (sale_input 2 0 10)
       (snd (change_pump_status (Some 2) (Some 2) initial_state))
     = Rejected PumpNotActive
         (snd (change_pump_status (Some 2) (Some 2) initial_state)).
Proof.
  split; [exact demo_well_formed_initial_state|].
  split; [reflexivity|]. split; [reflexivity|].
  apply (proj1 (stopped_pump_sells_nothing demo_localtime demo_sizeof_tx
                  demo_heap_max demo_uninit ltac:(demo_platform)
                  ltac:(demo_platform) ltac:(demo_platform)
                  2 (Some 2) initial_state
                  (snd (change_pump_status (Some 2) (Some 2) initial_state))
                  (sale_input 2 0 10)
                  demo_well_formed_initial_state eq_refl eq_refl)).
  discriminate.
Defined.


Lemma daily_report_totals_are_ledger_sums_witness :
  demo_reachable demo_after_three_amount_sales
  /\ fst (generate_daily_report demo_after_three_amount_sales)
     = (fsum (map (fun f =>
                     fsum (quantities_where (on_fuel f)
                             (ledger demo_after_three_amount_sales)))
                [FUEL_PETROL; FUEL_DIESEL; FUEL_CNG]),
        fsum (map (fun f =>
                     fsum (amounts_where (on_fuel f)
                             (ledger demo_after_three_amount_sales)))
                [FUEL_PETROL; FUEL_DIESEL; FUEL_CNG])).
Proof.
  split; [exact demo_reachable_after_three_amount_sales|].
  exact (daily_report_totals_are_ledger_sums demo_localtime demo_sizeof_tx
           demo_heap_max demo_uninit ltac:(demo_platform)
           ltac:(demo_platform) ltac:(demo_platform)
           demo_after_three_amount_sales
           demo_reachable_after_three_amount_sales).
Defined.

Lemma books_match_in_every_state_witness :
  demo_reachable demo_after_three_amount_sales
  /\ fget (fuel_wise_quantity demo_after_three_amount_sales)
       (fuel_idx FUEL_DIESEL)
     = fsum (quantities_where (on_fuel FUEL_DIESEL)
               (ledger demo_after_three_amount_sales)).
Proof.
  split; [exact demo_reachable_after_three_amount_sales|].
  exact (proj1 (proj1 (books_match_in_every_state demo_localtime
                         demo_sizeof_tx demo_heap_max demo_uninit
                         ltac:(demo_platform) ltac:(demo_platform)
                         ltac:(demo_platform)
                         demo_after_three_amount_sales
                         demo_reachable_after_three_amount_sales)
                 FUEL_DIESEL)).
Defined.

Lemma demo_first_pump_in_pumps :
  pump_at (pumps demo_after_three_amount_sales) 0
  ∈ pumps demo_after_three_amount_sales.
Proof. apply (list_elem_of_lookup_2 _ 0%nat). vm_compute. reflexivity. Qed.

Lemma pump_count_is_number_of_its_records_witness :
  demo_reachable demo_after_three_amount_sales
  /\ pump_at (pumps demo_after_three_amount_sales) 0
     ∈ pumps demo_after_three_amount_sales
  /\ tx_count demo_after_three_amount_sales < 2 ^ 31
  /\ transactions_count (pump_at (pumps demo_after_three_amount_sales) 0)
     = sales_on_pump
         (pump_id (pump_at (pumps demo_after_three_amount_sales) 0))
         demo_after_three_amount_sales.
Proof.
  assert (Hsmall : tx_count demo_after_three_amount_sales < 2 ^ 31)
    by (vm_compute; reflexivity).
  split; [exact demo_reachable_after_three_amount_sales|].
  split; [exact demo_first_pump_in_pumps|].
  split; [exact Hsmall|].
  exact (proj2 (pump_count_is_number_of_its_records demo_localtime
                  demo_sizeof_tx demo_heap_max demo_uninit
                  ltac:(demo_platform) ltac:(demo_platform)
                  ltac:(demo_platform)
                  demo_after_three_amount_sales
                  (pump_at (pumps demo_after_three_amount_sales) 0)
                  demo_reachable_after_three_amount_sales
                  demo_first_pump_in_pumps) Hsmall).
Defined.

Lemma sale_exits_only_when_the_ledger_cannot_grow_witness :
  well_formed demo_sizeof_tx demo_heap_max initial_state
  /\ demo_process_sale (sale_input 1 0 100) initial_state <> MemFault
  /\ demo_process_sale (sale_input 1 0 100) initial_state <> Fatal.
Proof.
  split; [exact demo_well_formed_initial_state|].
  destruct (sale_exits_only_when_the_ledger_cannot_grow demo_localtime
              demo_sizeof_tx demo_heap_max demo_uninit ltac:(demo_platform)
              ltac:(demo_platform) ltac:(demo_platform)
              (sale_input 1 0 100) initial_state
              demo_well_formed_initial_state)
    as (Hmem & Hfatal & _).
  split; [exact Hmem|].
  intros Hexit. destruct (Hfatal Hexit) as [Hfull _]. discriminate Hfull.
Defined.

Lemma demo_third_record_at_2 :
  ledger demo_after_three_amount_sales !! 2%nat
  = Some (tx_at (transactions demo_after_three_amount_sales) 2).
Proof. vm_compute. reflexivity. Qed.

Lemma txn_id_reads_back_as_position_witness :
  demo_reachable demo_after_three_amount_sales
  /\ ledger demo_after_three_amount_sales !! 2%nat
     = Some (tx_at (transactions demo_after_three_amount_sales) 2)
  /\ txn_sequence demo_after_three_amount_sales
     = tx_count demo_after_three_amount_sales
  /\ exists stamp number : list ascii,
       list_ascii_of_string
         (txn_id (tx_at (transactions demo_after_three_amount_sales) 2))
       = list_ascii_of_string "TXN" ++ stamp ++ number
       /\ (length stamp = 10%nat \/ stamp = list_ascii_of_string "000000000")
       /\ forallb is_digit stamp = true
       /\ forallb is_digit number = true
       /\ digits_value number = 3
       /\ (5 <= length number)%nat
       /\ ((5 < length number)%nat -> head number <> Some "0"%char).
Proof.
  split; [exact demo_reachable_after_three_amount_sales|].
  split; [exact demo_third_record_at_2|].
  exact (txn_id_reads_back_as_position demo_localtime demo_sizeof_tx
           demo_heap_max demo_uninit ltac:(demo_platform)
           ltac:(demo_platform) ltac:(demo_platform) ltac:(demo_platform)
           demo_after_three_amount_sales 2%nat
           (tx_at (transactions demo_after_three_amount_sales) 2)
           demo_reachable_after_three_amount_sales demo_third_record_at_2).
Defined.

Lemma low_stock_alerts_name_the_low_fuels_witness :
  demo_reachable demo_after_three_amount_sales
  /\ ~ (FUEL_PETROL,
        current_stock (fuel_at (fuels demo_after_three_amount_sales)
                         FUEL_PETROL))
       ∈ check_low_stock_alerts demo_after_three_amount_sales.
Proof.
  split; [exact demo_reachable_after_three_amount_sales|].
  intros Hin.
  apply (low_stock_alerts_name_the_low_fuels demo_localtime demo_sizeof_tx
           demo_heap_max demo_uninit ltac:(demo_platform)
           ltac:(demo_platform) ltac:(demo_platform)
           demo_after_three_amount_sales FUEL_PETROL _
           demo_reachable_after_three_amount_sales) in Hin
    as [_ Hlow].
  vm_compute in Hlow. discriminate Hlow.
Defined.

Lemma each_field_has_its_own_writers_witness :
  well_formed demo_sizeof_tx demo_heap_max initial_state
  /\ demo_exec CmdReport initial_state
     = Ok (snd (generate_daily_report initial_state))
  /\ map status (pumps (snd (generate_daily_report initial_state)))
     = map status (pumps initial_state).
Proof.
  split; [exact demo_well_formed_initial_state|].
  split; [reflexivity|].
  apply (proj1 (each_field_has_its_own_writers demo_localtime demo_sizeof_tx
                  demo_heap_max demo_uninit ltac:(demo_platform)
                  ltac:(demo_platform) ltac:(demo_platform)
                  CmdReport initial_state
                  (snd (generate_daily_report initial_state))
                  demo_well_formed_initial_state eq_refl)).
  discriminate.
Defined.

Lemma main_ends_cleanly_witness :
  demo_main true a_day_at_the_menu <> Crashed
  /\ forall code st,
       demo_main true a_day_at_the_menu = Returned code st ->
       code = 0 /\ transactions st = [] /\ tx_capacity st = 0
       /\ tx_count st = 0.
Proof.
  destruct (main_ends_cleanly demo_localtime demo_sizeof_tx demo_heap_max
              demo_uninit ltac:(demo_platform) ltac:(demo_platform)
              ltac:(demo_platform) true a_day_at_the_menu)
    as (Hcrash & _ & Hret & _).
  by split.
Defined.


Lemma change_pump_status_refusals_witness :
  well_formed demo_sizeof_tx demo_heap_max initial_state
  /\ fst (change_pump_status (Some 9) (Some 1) initial_state) = false
  /\ snd (change_pump_status (Some 9) (Some 1) initial_state) = initial_state.
Proof.
  split; [exact demo_well_formed_initial_state|].
  destruct (change_pump_status_refusals demo_sizeof_tx demo_heap_max
              (Some 9) (Some 1) initial_state demo_well_formed_initial_state)
    as [Hiff Hsame].
  assert (Hrefused :
            fst (change_pump_status (Some 9) (Some 1) initial_state) = false).
  { apply Hiff. right. left. exists 9. split; [reflexivity | lia]. }
  split; [exact Hrefused | exact (Hsame Hrefused)].
Defined.

Lemma checked_sale_completes_witness :
  demo_reachable demo_after_three_amount_sales
  /\ exists tx st',
       demo_process_sale (sale_input 5 0 10) demo_after_three_amount_sales
       = Sold tx st'
       /\ (timestamp tx, tx_pump_id tx, tx_fuel_type tx, vehicle_type tx,
           quantity tx, amount tx, payment_mode tx)
          = (3600, 5, FUEL_CNG, VEH_4W, 10%float, 750%float, PAY_CASH)
       /\ ledger st' = ledger demo_after_three_amount_sales ++ [tx]
       /\ current_stock (fuel_at (fuels st') FUEL_CNG) = 19990%float.
Proof.
  split; [exact demo_reachable_after_three_amount_sales|].
  destruct (checked_sale_completes demo_localtime demo_sizeof_tx
              demo_heap_max demo_uninit ltac:(demo_platform)
              ltac:(demo_platform) ltac:(demo_platform)
              demo_after_three_amount_sales (sale_input 5 0 10) 5
              VEH_4W PAY_CASH 10%float 750%float
              demo_reachable_after_three_amount_sales)
    as (tx & st' & Hsale & Htx & Hledger & Hstock);
    [ reflexivity | lia | vm_compute; reflexivity | reflexivity
    | vm_compute; reflexivity | vm_compute; reflexivity | reflexivity
    | vm_compute; reflexivity |].
  exists tx, st'. split; [exact Hsale|]. split; [exact Htx|].
  split; [exact Hledger|].
  etransitivity; [exact Hstock|]. vm_compute. reflexivity.
Defined.

Lemma nan_passes_the_checks_witness :
  PrimFloat.is_nan nan = true
  /\ read_qty_amt (sale_input 1 0 nan) PRICE_PETROL
     = inr (nan, (nan * PRICE_PETROL)%float)
  /\ (OPEN_PETROL <? nan)%float = false
  /\ fst (add_supply (Some 2) (Some nan) initial_state) = true.
Proof.
  split; [reflexivity|].
  apply (nan_passes_the_checks (sale_input 1 0 nan) nan PRICE_PETROL
           OPEN_PETROL 2 initial_state);
    first [reflexivity | lia].
Defined.
